(** * Invoice Nudger: reminder pipeline, template renderer and status reconciler

    A shallow embedding of
      - [src/lib/email.ts]            (sendEmail, processScheduledReminders,
                                       formatEmailTemplate),
      - [src/app/api/reminders/process/route.ts] (POST),
      - [src/components/reminders/reminder-scheduler.tsx] (getFormattedPreview),
      - the invoice queries of the invoice detail and invoice list components,
    together with the parts of the JavaScript runtime they rely on
    (Date, Number.prototype.toFixed, String.prototype.replace). *)

From Stdlib Require Import ZArith List String Ascii QArith Lia Bool.
Import ListNotations.

Local Open Scope string_scope.
Local Open Scope Z_scope.

(** ** JavaScript strings and numbers *)

Module Js.

(** [String(n)] for a non-negative integer [n]: its decimal digits. *)
Definition digit_char (d : Z) : ascii := ascii_of_nat (48 + Z.to_nat d).

Fixpoint digits_fuel (fuel : nat) (n : Z) (acc : string) : string :=
  match fuel with
  | O => acc
  | S f =>
      let acc' := String (digit_char (n mod 10)) acc in
      if n <? 10 then acc' else digits_fuel f (n / 10) acc'
  end.

Definition string_of_Z (n : Z) : string :=
  digits_fuel (S (Z.to_nat (Z.log2 n))) n EmptyString.

Fixpoint zeros (k : nat) : string :=
  match k with
  | O => EmptyString
  | S k' => String "0" (zeros k')
  end.

(** [addLeadingZeros(n, width)] of date-fns, [padStart(width, "0")]. *)
Definition pad_zeros (width : nat) (s : string) : string :=
  zeros (width - String.length s) ++ s.

(** [Number.prototype.toFixed(2)].  A finite JavaScript number is a dyadic
    rational; it is represented by its exact value.  The result is built from
    the integer [n] for which [n / 100 - x] is as close to zero as possible,
    the larger one when there are two.  Magnitudes from 10^21 on (which print
    in exponent notation) are outside this model. *)
Definition round_half_up_hundredths (x : Q) : Z :=
  (2 * 100 * Qnum x + Z.pos (Qden x)) / (2 * Z.pos (Qden x)).

Definition toFixed2_nonneg (x : Q) : string :=
  let n := round_half_up_hundredths x in
  string_of_Z (n / 100) ++ "." ++ pad_zeros 2 (string_of_Z (n mod 100)).

Definition toFixed2 (x : Q) : string :=
  if Qnum x <? 0
  then "-" ++ toFixed2_nonneg (Qopp x)
  else toFixed2_nonneg x.

(** Suffix of a string after its first [k] characters. *)
Fixpoint drop (k : nat) (s : string) : string :=
  match k, s with
  | O, _ => s
  | S k', String _ s' => drop k' s'
  | S _, EmptyString => EmptyString
  end.

(** Whether [key] occurs at the start of [s]. *)
Fixpoint starts_with (key s : string) : bool :=
  match key with
  | EmptyString => true
  | String a key' =>
      match s with
      | EmptyString => false
      | String b s' => Ascii.eqb a b && starts_with key' s'
      end
  end.

(** [GetSubstitution] of ECMA-262 for a pattern without capture groups:
    [$$] is a dollar sign, [$&] the matched text, [$`] the text before the
    match and [$'] the text after it; every other use of [$] is literal. *)
Fixpoint get_substitution (matched before after repl : string) : string :=
  match repl with
  | EmptyString => EmptyString
  | String a t =>
      if Ascii.eqb a "$" then
        match t with
        | EmptyString => String a EmptyString
        | String c rest =>
            if Ascii.eqb c "$" then
              String "$" (get_substitution matched before after rest)
            else if Ascii.eqb c "&" then
              matched ++ get_substitution matched before after rest
            else if Ascii.eqb c "`" then
              before ++ get_substitution matched before after rest
            else if Ascii.eqb c "'" then
              after ++ get_substitution matched before after rest
            else String a (get_substitution matched before after t)
        end
      else String a (get_substitution matched before after t)
  end.

(** [s.replace(new RegExp(key, "g"), repl)] for a [key] that the regular
    expression grammar reads as a literal (the placeholder tokens are: a brace
    that opens no quantifier is an ordinary character).  Matches are taken
    left to right without overlap; [skip] counts the characters of the
    current match still to be consumed and [before] is the text already
    passed. *)
Fixpoint replace_from (key repl : string) (skip : nat) (before s : string)
  : string :=
  match s with
  | EmptyString => EmptyString
  | String c s' =>
      let before' := before ++ String c EmptyString in
      match skip with
      | S k => replace_from key repl k before' s'
      | O =>
          if starts_with key s then
            get_substitution key before (drop (String.length key) s) repl
            ++ replace_from key repl (String.length key - 1) before' s'
          else String c (replace_from key repl O before' s')
      end
  end.

Definition replace_all (key repl s : string) : string :=
  replace_from key repl O EmptyString s.

Definition newline : string := String (ascii_of_nat 10) EmptyString.

End Js.

(** ** Dates: the time values of ECMA-262 *)

Module JsDate.

Definition msPerDay : Z := 86400000.

Definition DayFromYear (y : Z) : Z :=
  365 * (y - 1970) + (y - 1969) / 4 - (y - 1901) / 100 + (y - 1601) / 400.

Definition InLeapYear (y : Z) : bool :=
  ((y mod 4 =? 0) && negb (y mod 100 =? 0)) || (y mod 400 =? 0).

Definition DaysInYear (y : Z) : Z := if InLeapYear y then 366 else 365.

(** The year [y] with [DayFromYear y <= day < DayFromYear (y + 1)]. *)
Definition YearFromDay (day : Z) : Z :=
  let e := 1970 + (400 * day) / 146097 in
  if DayFromYear (e + 1) <=? day then e + 1
  else if DayFromYear e <=? day then e
  else e - 1.

(** Days of the year before month [m] (1 to 12). *)
Definition days_before_month (leap : bool) (m : Z) : Z :=
  let l := if leap then 1 else 0 in
  if m <=? 1 then 0
  else if m =? 2 then 31
  else if m =? 3 then 59 + l
  else if m =? 4 then 90 + l
  else if m =? 5 then 120 + l
  else if m =? 6 then 151 + l
  else if m =? 7 then 181 + l
  else if m =? 8 then 212 + l
  else if m =? 9 then 243 + l
  else if m =? 10 then 273 + l
  else if m =? 11 then 304 + l
  else 334 + l.

Definition days_in_month (y m : Z) : Z :=
  if m =? 2 then (if InLeapYear y then 29 else 28)
  else if (m =? 4) || (m =? 6) || (m =? 9) || (m =? 11) then 30
  else 31.

(** [MonthFromTime] (here 1 to 12) and [DateFromTime], on a day number. *)
Definition MonthFromDay (day : Z) : Z :=
  let y := YearFromDay day in
  let leap := InLeapYear y in
  let w := day - DayFromYear y in
  if w <? days_before_month leap 2 then 1
  else if w <? days_before_month leap 3 then 2
  else if w <? days_before_month leap 4 then 3
  else if w <? days_before_month leap 5 then 4
  else if w <? days_before_month leap 6 then 5
  else if w <? days_before_month leap 7 then 6
  else if w <? days_before_month leap 8 then 7
  else if w <? days_before_month leap 9 then 8
  else if w <? days_before_month leap 10 then 9
  else if w <? days_before_month leap 11 then 10
  else if w <? days_before_month leap 12 then 11
  else 12.

Definition DateFromDay (day : Z) : Z :=
  let y := YearFromDay day in
  day - DayFromYear y - days_before_month (InLeapYear y) (MonthFromDay day) + 1.

(** [MakeDay] for a month inside the year. *)
Definition MakeDay (y m d : Z) : Z :=
  DayFromYear y + days_before_month (InLeapYear y) m + d - 1.

(** A calendar date read from a date-only ISO string. *)
Record civil : Type := mkCivil { year : Z; month : Z; day : Z }.

Definition digit_val (c : ascii) : option Z :=
  let n := Z.of_nat (nat_of_ascii c) in
  if (48 <=? n) && (n <=? 57) then Some (n - 48) else None.

Definition num2 (a b : ascii) : option Z :=
  match digit_val a, digit_val b with
  | Some x, Some y => Some (10 * x + y)
  | _, _ => None
  end.

Definition num4 (a b c d : ascii) : option Z :=
  match num2 a b, num2 c d with
  | Some x, Some y => Some (100 * x + y)
  | _, _ => None
  end.

(** The [invoices.due_date] column holds dates written [yyyy-MM-dd] (the
    invoice form stores [format(values.due_date, "yyyy-MM-dd")]); this is the
    only string form read here.  A string of another form, or one that
    names a day the month does not have, is taken for an invalid date;
    [new Date] reads some of them (a full timestamp, a day rolled over into
    the next month), and those are outside this model. *)
Definition parse_date_only (s : string) : option civil :=
  match s with
  | String y1 (String y2 (String y3 (String y4 (String s1
    (String m1 (String m2 (String s2 (String d1 (String d2 EmptyString)))))))))
    =>
      if Ascii.eqb s1 "-" && Ascii.eqb s2 "-" then
        match num4 y1 y2 y3 y4, num2 m1 m2, num2 d1 d2 with
        | Some y, Some m, Some d =>
            if (1 <=? m) && (m <=? 12) && (1 <=? d) && (d <=? days_in_month y m)
            then Some (mkCivil y m d)
            else None
        | _, _, _ => None
        end
      else None
  | _ => None
  end.

(** A [Date] object: its time value in milliseconds since the epoch, or
    [None] for an invalid date (time value NaN). *)
Definition Date : Type := option Z.

Definition utc_midnight (c : civil) : Z :=
  MakeDay (year c) (month c) (day c) * msPerDay.

(** [new Date(s)]: a date-only string is read as UTC midnight. *)
Definition Date_of_string (s : string) : Date :=
  option_map utc_midnight (parse_date_only s).

(** [parseISO(s)] of date-fns: a date-only string is read as midnight in the
    local time zone, [tz] minutes east of UTC. *)
Definition parseISO (tz : Z) (s : string) : Date :=
  option_map (fun c => utc_midnight c - tz * 60000) (parse_date_only s).

(** The local day number of a time value. *)
Definition local_day (tz : Z) (t : Z) : Z := (t + tz * 60000) / msPerDay.

Definition getFullYear (tz t : Z) : Z := YearFromDay (local_day tz t).
Definition getMonth1 (tz t : Z) : Z := MonthFromDay (local_day tz t).
Definition getDate (tz t : Z) : Z := DateFromDay (local_day tz t).

Definition month_name (m : Z) : string :=
  if m =? 1 then "January"
  else if m =? 2 then "February"
  else if m =? 3 then "March"
  else if m =? 4 then "April"
  else if m =? 5 then "May"
  else if m =? 6 then "June"
  else if m =? 7 then "July"
  else if m =? 8 then "August"
  else if m =? 9 then "September"
  else if m =? 10 then "October"
  else if m =? 11 then "November"
  else "December".

(** Years are printed for the common era; a year before it is printed as
    its distance from year one. *)
Definition era_year (y : Z) : Z := if 0 <? y then y else 1 - y.

(** [d.toLocaleDateString("en-US", {year: "numeric", month: "long",
    day: "numeric"})]. *)
Definition toLocaleDateString_long (tz : Z) (d : Date) : string :=
  match d with
  | None => "Invalid Date"
  | Some t =>
      month_name (getMonth1 tz t) ++ " " ++ Js.string_of_Z (getDate tz t)
      ++ ", " ++ Js.string_of_Z (era_year (getFullYear tz t))
  end.

(** [format(d, "MMMM d, yyyy")] of date-fns; it throws a RangeError on an
    invalid date. *)
Definition format_MMMM_d_yyyy (tz : Z) (d : Date) : option string :=
  match d with
  | None => None
  | Some t =>
      Some (month_name (getMonth1 tz t) ++ " " ++ Js.string_of_Z (getDate tz t)
            ++ ", " ++ Js.pad_zeros 4 (Js.string_of_Z (era_year (getFullYear tz t))))
  end.

(** [isPast(d)]: [d < Date.now()]; false on an invalid date. *)
Definition isPast (now : Z) (d : Date) : bool :=
  match d with
  | None => false
  | Some t => t <? now
  end.

End JsDate.

(** ** Data model: the rows of the store *)

Module ReminderStatus.
Inductive t : Type := pending | approved | sent | cancelled.
Definition eqb (a b : t) : bool :=
  match a, b with
  | pending, pending | approved, approved | sent, sent
  | cancelled, cancelled => true
  | _, _ => false
  end.
End ReminderStatus.

Module InvoiceStatus.
Inductive t : Type := draft | sent | partially_paid | paid | overdue.
Definition eqb (a b : t) : bool :=
  match a, b with
  | draft, draft | sent, sent | partially_paid, partially_paid
  | paid, paid | overdue, overdue => true
  | _, _ => false
  end.
End InvoiceStatus.

Record User : Type := mkUser {
  user_id : string;
  user_email : string;
  user_full_name : option string;
  user_company_name : option string
}.

Record Client : Type := mkClient {
  client_id : string;
  client_user_id : string;
  client_name : string;
  client_email : string
}.

Record Invoice : Type := mkInvoice {
  invoice_id : string;
  invoice_user_id : string;
  invoice_client_id : string;
  invoice_number : string;
  issue_date : string;
  due_date : string;
  amount : Q;
  currency : string;
  invoice_status : InvoiceStatus.t
}.

Record MessageTemplate : Type := mkTemplate {
  template_id : string;
  template_name : string;
  template_subject : string;
  template_body : string;
  severity_level : Z
}.

(** Time stamps ([scheduled_date], [sent_at]) are kept as time values. *)
Record Reminder : Type := mkReminder {
  reminder_id : string;
  reminder_invoice_id : string;
  reminder_template_id : string;
  scheduled_date : Z;
  reminder_status : ReminderStatus.t;
  sent_at : option Z
}.

(** An invoice with its embedded [client:clients( * )]. *)
Record InvoiceRow : Type := mkInvoiceRow {
  inv : Invoice;
  client : option Client
}.

(** A reminder with its embedded [invoice] and [template]. *)
Record DueReminder : Type := mkDue {
  rem : Reminder;
  invoice : option InvoiceRow;
  template : option MessageTemplate
}.

Record Database : Type := mkDb {
  reminders : list Reminder;
  invoices : list Invoice;
  clients : list Client;
  message_templates : list MessageTemplate;
  users : list User
}.

(** ** The environment of a run *)

Inductive js_error : Type := JsError (name message : string).

Inductive result (A : Type) : Type :=
| Ok (a : A)
| Thrown (e : js_error).
Arguments Ok {A} a.
Arguments Thrown {A} e.

(** The object given to [update] on the reminders table: the columns it
    names. *)
Record ReminderPatch : Type := mkPatch {
  patch_status : option ReminderStatus.t;
  patch_sent_at : option Z
}.

(** Requests made to the store. *)
Inductive request : Type :=
| SelectDueReminders (now : Z)
| SelectUser (id : string)
| UpdateReminder (id : string) (p : ReminderPatch)
| SelectInvoice (id user : string)
| SelectInvoices (user : string)
| UpdateInvoiceStatus (id : string) (st : InvoiceStatus.t).

(** The message handed to the mail provider. *)
Record MailMessage : Type := mkMail {
  mail_to : string;
  mail_from_email : string;
  mail_from_name : string;
  mail_subject : string;
  mail_html : string;
  mail_replyTo : string
}.

(** What the program does not control: the local time zone of the process
    ([tz], its offset in minutes east of UTC, taken as fixed), the successive
    readings of the clock ([clock k] is what the k-th [new Date()] or
    [Date.now()] of a run returns), the configuration variables, whether the
    store answers a request with an error, and whether the mail provider
    throws (with which message). *)
Record Env : Type := mkEnv {
  tz : Z;
  clock : nat -> Z;
  SENDGRID_API_KEY : option string;
  EMAIL_FROM : option string;
  API_SECRET_KEY : option string;
  store_fails : request -> bool;
  mail_send : MailMessage -> option string
}.

(** The state a run changes: the store, and how often the clock was read. *)
Record World : Type := mkWorld {
  db : Database;
  ticks : nat
}.

(** [new Date()]. *)
Definition new_Date (env : Env) (w : World) : Z * World :=
  (clock env (ticks w), mkWorld (db w) (S (ticks w))).

(** [a || d] on strings: the empty string and an absent value are falsy. *)
Definition js_or (a : option string) (d : string) : string :=
  match a with
  | Some s => if String.eqb s EmptyString then d else s
  | None => d
  end.

(** [a || undefined]. *)
Definition truthy (a : option string) : option string :=
  match a with
  | Some s => if String.eqb s EmptyString then None else Some s
  | None => None
  end.

Definition store_error : js_error := JsError "PostgrestError" "request failed".

(** ** The store client *)

Module Supabase.

Definition find_invoice (d : Database) (id : string) : option Invoice :=
  find (fun i => String.eqb (invoice_id i) id) (invoices d).

Definition find_client (d : Database) (id : string) : option Client :=
  find (fun c => String.eqb (client_id c) id) (clients d).

Definition find_template (d : Database) (id : string) : option MessageTemplate :=
  find (fun t => String.eqb (template_id t) id) (message_templates d).

Definition embed_client (d : Database) (i : Invoice) : InvoiceRow :=
  mkInvoiceRow i (find_client d (invoice_client_id i)).

Definition embed (d : Database) (r : Reminder) : DueReminder :=
  mkDue r
    (option_map (embed_client d) (find_invoice d (reminder_invoice_id r)))
    (find_template d (reminder_template_id r)).

(** [.eq("status", "pending").lte("scheduled_date", now)]. *)
Definition is_due (now : Z) (r : Reminder) : bool :=
  ReminderStatus.eqb (reminder_status r) ReminderStatus.pending
  && (scheduled_date r <=? now).

Definition select_due_reminders (env : Env) (now : Z) (w : World)
  : result (list DueReminder) :=
  if store_fails env (SelectDueReminders now) then Thrown store_error
  else Ok (map (embed (db w)) (filter (is_due now) (reminders (db w)))).

(** [.from("users").select("*").eq("id", id).single()]: the row when exactly
    one matches; the caller keeps only [data]. *)
Definition select_user (env : Env) (id : string) (w : World) : option User :=
  if store_fails env (SelectUser id) then None
  else
    match filter (fun u => String.eqb (user_id u) id) (users (db w)) with
    | [u] => Some u
    | _ => None
    end.

Definition apply_patch (p : ReminderPatch) (r : Reminder) : Reminder :=
  mkReminder (reminder_id r) (reminder_invoice_id r) (reminder_template_id r)
    (scheduled_date r)
    (match patch_status p with Some s => s | None => reminder_status r end)
    (match patch_sent_at p with Some t => Some t | None => sent_at r end).

Definition set_reminders (d : Database) (rs : list Reminder) : Database :=
  mkDb rs (invoices d) (clients d) (message_templates d) (users d).

Definition set_invoices (d : Database) (ivs : list Invoice) : Database :=
  mkDb (reminders d) ivs (clients d) (message_templates d) (users d).

(** [.from("reminders").update(p).eq("id", id)]; the boolean tells whether
    the store accepted the request. *)
Definition update_reminder (env : Env) (id : string) (p : ReminderPatch)
  (w : World) : bool * World :=
  if store_fails env (UpdateReminder id p) then (false, w)
  else
    (true,
     mkWorld
       (set_reminders (db w)
          (map (fun r => if String.eqb (reminder_id r) id
                         then apply_patch p r else r)
               (reminders (db w))))
       (ticks w)).

Definition with_status (i : Invoice) (st : InvoiceStatus.t) : Invoice :=
  mkInvoice (invoice_id i) (invoice_user_id i) (invoice_client_id i)
    (invoice_number i) (issue_date i) (due_date i) (amount i) (currency i) st.

(** [.from("invoices").update({ status }).eq("id", id)]. *)
Definition update_invoice_status (env : Env) (id : string)
  (st : InvoiceStatus.t) (w : World) : bool * World :=
  if store_fails env (UpdateInvoiceStatus id st) then (false, w)
  else
    (true,
     mkWorld
       (set_invoices (db w)
          (map (fun i => if String.eqb (invoice_id i) id
                         then with_status i st else i)
               (invoices (db w))))
       (ticks w)).

End Supabase.

(** ** Effects a run performs, as seen from outside *)

Record EmailContent : Type := mkContent {
  to : string;
  subject : string;
  body : string;
  fromName : option string;
  fromEmail : option string;
  replyTo : option string
}.

Record SendResult : Type := mkSendResult {
  success : bool;
  error : option string
}.

Inductive event : Type :=
| EvUpdateReminder (id : string) (p : ReminderPatch) (accepted : bool)
| EvUpdateInvoice (id : string) (st : InvoiceStatus.t) (accepted : bool)
| EvSelectUser (id : string)
| EvSendEmail (c : EmailContent) (r : SendResult)
| EvMailSend (m : MailMessage)
| EvConsoleError (text : string) (detail : option string).

Definition is_send (e : event) : bool :=
  match e with
  | EvSendEmail _ _ => true
  | _ => false
  end.

Definition is_reminder_update (e : event) : bool :=
  match e with
  | EvUpdateReminder _ _ _ => true
  | _ => false
  end.

Definition error_message (e : js_error) : string :=
  match e with JsError _ m => m end.

(** ** [src/lib/email.ts] *)

Module Email.

Definition sendEmail (env : Env) (content : EmailContent)
  : SendResult * list event :=
  match truthy (SENDGRID_API_KEY env) with
  | None =>
      let m := "SendGrid API key is not configured" in
      (mkSendResult false (Some m),
       [EvConsoleError "Email sending failed:" (Some m)])
  | Some _ =>
      let fromEmail_ :=
        js_or (fromEmail content)
          (js_or (EMAIL_FROM env) "noreply@invoicenudger.com") in
      let fromName_ := js_or (fromName content) "Invoice Nudger" in
      let replyTo_ := js_or (replyTo content) fromEmail_ in
      let msg :=
        mkMail (to content) fromEmail_ fromName_ (subject content)
          (body content) replyTo_ in
      match mail_send env msg with
      | None => (mkSendResult true None, [EvMailSend msg])
      | Some m =>
          (mkSendResult false (Some (js_or (Some m) "Failed to send email")),
           [EvMailSend msg; EvConsoleError "Email sending failed:" (Some m)])
      end
  end.

Record Formatted : Type := mkFormatted {
  f_subject : string;
  f_body : string
}.

Definition MissingContextError : js_error :=
  JsError "Error" "Missing required data for email template".

(** [Math.floor((today - dueDate) / msPerDay)]; [None] is NaN. *)
Definition daysOverdue (today : Z) (dueDate : JsDate.Date) : option Z :=
  option_map (fun d => (today - d) / JsDate.msPerDay) dueDate.

(** [String(daysOverdue > 0 ? daysOverdue : 0)]. *)
Definition days_overdue_text (n : option Z) : string :=
  Js.string_of_Z
    (match n with
     | Some k => if k >? 0 then k else 0
     | None => 0
     end).

Definition amount_text (i : Invoice) : string :=
  currency i ++ " " ++ Js.toFixed2 (amount i).

(** The [replacements] object, in the order of its entries. *)
Definition replacements (tz today : Z) (i : Invoice) (c : Client)
  : list (string * string) :=
  let dueDate := JsDate.Date_of_string (due_date i) in
  [ ("{invoice_number}", invoice_number i);
    ("{amount}", amount_text i);
    ("{due_date}", JsDate.toLocaleDateString_long tz dueDate);
    ("{days_overdue}", days_overdue_text (daysOverdue today dueDate));
    ("{client_name}", client_name c);
    ("{user_name}", EmptyString);
    ("{company_name}", EmptyString) ].

(** [Object.entries(replacements).forEach(...)] on [subject] and [body]. *)
Definition substitute (reps : list (string * string)) (sb : string * string)
  : string * string :=
  fold_left
    (fun acc kv =>
       (Js.replace_all (fst kv) (snd kv) (fst acc),
        Js.replace_all (fst kv) (snd kv) (snd acc)))
    reps sb.

(** The body of [formatEmailTemplate] after its guard, with [today] the
    reading of the clock. *)
Definition format_email (tz today : Z) (t : MessageTemplate) (i : Invoice)
  (c : Client) : Formatted :=
  let sb :=
    substitute (replacements tz today i c)
      (template_subject t, template_body t) in
  mkFormatted (fst sb) (Js.replace_all Js.newline "<br />" (snd sb)).

Definition formatEmailTemplate (env : Env) (template : option MessageTemplate)
  (invoice : option InvoiceRow) (w : World) : result Formatted * World :=
  match template, invoice with
  | Some t, Some ir =>
      match client ir with
      | Some c =>
          let (today, w1) := new_Date env w in
          (Ok (format_email (tz env) today t (inv ir) c), w1)
      | None => (Thrown MissingContextError, w)
      end
  | _, _ => (Thrown MissingContextError, w)
  end.

Definition cancel_patch : ReminderPatch :=
  mkPatch (Some ReminderStatus.cancelled) None.

Definition sent_patch (at_ : Z) : ReminderPatch :=
  mkPatch (Some ReminderStatus.sent) (Some at_).

Definition null_property (prop : string) : js_error :=
  JsError "TypeError" ("Cannot read properties of null (reading '" ++ prop ++ "')").

Definition log_reminder_error (r : DueReminder) (e : js_error) : event :=
  EvConsoleError ("Error processing reminder " ++ reminder_id (rem r) ++ ":")
    (Some (error_message e)).

(** The body of the loop over [dueReminders], with its own try/catch. *)
Definition process_reminder (env : Env) (r : DueReminder) (w : World)
  : World * list event :=
  match invoice r with
  | None => (w, [log_reminder_error r (null_property "status")])
  | Some ir =>
      if InvoiceStatus.eqb (invoice_status (inv ir)) InvoiceStatus.paid then
        let (ok, w1) :=
          Supabase.update_reminder env (reminder_id (rem r)) cancel_patch w in
        (w1, [EvUpdateReminder (reminder_id (rem r)) cancel_patch ok])
      else
        match formatEmailTemplate env (template r) (Some ir) w with
        | (Thrown e, w1) => (w1, [log_reminder_error r e])
        | (Ok formattedTemplate, w1) =>
            let user := Supabase.select_user env (invoice_user_id (inv ir)) w1 in
            match client ir with
            | None =>
                (w1, [EvSelectUser (invoice_user_id (inv ir));
                      log_reminder_error r (null_property "email")])
            | Some c =>
                let content :=
                  mkContent (client_email c)
                    (f_subject formattedTemplate) (f_body formattedTemplate)
                    (match user with
                     | Some u => truthy (user_full_name u)
                     | None => None
                     end)
                    None
                    (match user with
                     | Some u => truthy (Some (user_email u))
                     | None => None
                     end) in
                let (emailResult, sent_events) := sendEmail env content in
                let called :=
                  EvSelectUser (invoice_user_id (inv ir))
                  :: EvSendEmail content emailResult :: sent_events in
                if success emailResult then
                  let (at_, w2) := new_Date env w1 in
                  let (ok, w3) :=
                    Supabase.update_reminder env (reminder_id (rem r))
                      (sent_patch at_) w2 in
                  (w3, (called ++
                        [EvUpdateReminder (reminder_id (rem r)) (sent_patch at_) ok])%list)
                else
                  (w1, (called ++
                        [EvConsoleError
                           ("Failed to send reminder " ++ reminder_id (rem r) ++ ": ")%string
                           (error emailResult)])%list)
            end
        end
  end.

(** The loop; the effects are kept per reminder, under its id. *)
Fixpoint process_all (env : Env) (rs : list DueReminder) (w : World)
  : World * list (string * list event) :=
  match rs with
  | [] => (w, [])
  | r :: rest =>
      let (w1, evs) := process_reminder env r w in
      let (w2, journal) := process_all env rest w1 in
      (w2, (reminder_id (rem r), evs) :: journal)
  end.

(** How an async function ends. *)
Inductive completion : Type :=
| Resolved
| Rejected (e : js_error).

Record Run : Type := mkRun {
  final : World;
  ended : completion;
  fetched : list DueReminder;
  journal : list (string * list event);
  console : list event
}.

Definition processScheduledReminders (env : Env) (w : World) : Run :=
  let (now, w0) := new_Date env w in
  match Supabase.select_due_reminders env now w0 with
  | Thrown e =>
      mkRun w0 Resolved [] []
        [EvConsoleError "Error processing scheduled reminders:"
           (Some (error_message e))]
  | Ok dueReminders =>
      match dueReminders with
      | [] => mkRun w0 Resolved [] [] []
      | _ :: _ =>
          let (w1, j) := process_all env dueReminders w0 in
          mkRun w1 Resolved dueReminders j []
      end
  end.

End Email.

(** ** [src/app/api/reminders/process/route.ts] *)

Module Route.

Inductive Response : Type :=
| Json_success (status : Z)
| Json_error (message : string) (status : Z).

(** [secretKey && apiKey !== secretKey]. *)
Definition unauthorized (env : Env) (apiKey : option string) : bool :=
  match truthy (API_SECRET_KEY env), apiKey with
  | None, _ => false
  | Some k, Some a => negb (String.eqb a k)
  | Some _, None => true
  end.

(** [POST]; [apiKey] is the [x-api-key] header of the request. *)
Definition POST (env : Env) (apiKey : option string) (w : World)
  : Response * World * list (string * list event) :=
  if unauthorized env apiKey then (Json_error "Unauthorized" 401, w, [])
  else
    let run := Email.processScheduledReminders env w in
    match Email.ended run with
    | Email.Resolved => (Json_success 200, Email.final run, Email.journal run)
    | Email.Rejected _ =>
        (Json_error "Failed to process reminders" 500, Email.final run,
         Email.journal run)
    end.

End Route.

(** ** [src/components/reminders/reminder-scheduler.tsx] *)

Module Scheduler.

Definition replacements (tz today : Z) (i : Invoice) (c : Client)
  (due_text : string) : list (string * string) :=
  let dueDate := JsDate.parseISO tz (due_date i) in
  [ ("{invoice_number}", invoice_number i);
    ("{amount}", Email.amount_text i);
    ("{due_date}", due_text);
    ("{days_overdue}", Email.days_overdue_text (Email.daysOverdue today dueDate));
    ("{client_name}", client_name c);
    ("{user_name}", EmptyString);
    ("{company_name}", EmptyString) ].

(** [getFormattedPreview]; [invoice] is the component's query result and
    [today] the reading of the clock. *)
Definition getFormattedPreview (tz today : Z) (invoice : option InvoiceRow)
  (template : MessageTemplate) : result MessageTemplate :=
  match invoice with
  | None => Ok template
  | Some ir =>
      match client ir with
      | None => Ok template
      | Some c =>
          let dueDate := JsDate.parseISO tz (due_date (inv ir)) in
          match JsDate.format_MMMM_d_yyyy tz dueDate with
          | None => Thrown (JsError "RangeError" "Invalid time value")
          | Some due_text =>
              let sb :=
                Email.substitute (replacements tz today (inv ir) c due_text)
                  (template_subject template, template_body template) in
              Ok (mkTemplate (template_id template) (template_name template)
                    (fst sb) (snd sb) (severity_level template))
          end
      end
  end.

End Scheduler.

(** ** The status reconciler: the invoice queries of the components *)

Definition with_overdue (ir : InvoiceRow) : InvoiceRow :=
  mkInvoiceRow (Supabase.with_status (inv ir) InvoiceStatus.overdue) (client ir).

Definition row_status (ir : InvoiceRow) : InvoiceStatus.t :=
  invoice_status (inv ir).

(** [invoice.status === "sent" && isPast(parseISO(invoice.due_date))];
    [isPast] reads the clock, and only when the status is [sent]. *)
Definition sent_and_past (env : Env) (ir : InvoiceRow) (w : World)
  : bool * World :=
  if InvoiceStatus.eqb (row_status ir) InvoiceStatus.sent then
    let (t, w1) := new_Date env w in
    (JsDate.isPast t (JsDate.parseISO (tz env) (due_date (inv ir))), w1)
  else (false, w).

(** The [queryFn] of the invoice detail component. *)
Module InvoiceDetail.

Definition select_invoice (env : Env) (invoiceId userId : string) (w : World)
  : result InvoiceRow :=
  if store_fails env (SelectInvoice invoiceId userId) then Thrown store_error
  else
    match filter (fun i => String.eqb (invoice_id i) invoiceId
                           && String.eqb (invoice_user_id i) userId)
                 (invoices (db w)) with
    | [i] => Ok (Supabase.embed_client (db w) i)
    | _ => Thrown (JsError "PostgrestError" "not a single row")
    end.

Definition queryFn (env : Env) (invoiceId userId : string) (w : World)
  : result InvoiceRow * World * list event :=
  match select_invoice env invoiceId userId w with
  | Thrown e => (Thrown e, w, [])
  | Ok data =>
      let (overdue_now, w1) := sent_and_past env data w in
      if overdue_now then
        let (ok, w2) :=
          Supabase.update_invoice_status env invoiceId InvoiceStatus.overdue w1 in
        (Ok (if ok then with_overdue data else data), w2,
         [EvUpdateInvoice invoiceId InvoiceStatus.overdue ok])
      else (Ok data, w1, [])
  end.

End InvoiceDetail.

(** The [queryFn] of the invoice list component. *)
Module InvoiceList.

(** The rows of the user, in the order the store returns them. *)
Definition select_invoices (env : Env) (userId : string) (w : World)
  : result (list InvoiceRow) :=
  if store_fails env (SelectInvoices userId) then Thrown store_error
  else
    Ok (map (Supabase.embed_client (db w))
          (filter (fun i => String.eqb (invoice_user_id i) userId)
                  (invoices (db w)))).

(** [data.map(...)]: the override of the rows read. *)
Fixpoint mark_overdue (env : Env) (data : list InvoiceRow) (w : World)
  : list InvoiceRow * World :=
  match data with
  | [] => ([], w)
  | ir :: rest =>
      let (hit, w1) := sent_and_past env ir w in
      let (rest', w2) := mark_overdue env rest w1 in
      ((if hit then with_overdue ir else ir) :: rest', w2)
  end.

(** [updatedInvoices.filter((invoice, index) =>
      invoice.status !== data[index].status)]. *)
Definition changed (updated data : list InvoiceRow) : list InvoiceRow :=
  map fst
    (filter (fun ud => negb (InvoiceStatus.eqb (row_status (fst ud))
                                               (row_status (snd ud))))
            (combine updated data)).

(** [Promise.all(overdueInvoices.map(update))]: every request is made and
    its answer dropped. *)
Fixpoint persist_all (env : Env) (rows : list InvoiceRow) (w : World)
  : World * list event :=
  match rows with
  | [] => (w, [])
  | ir :: rest =>
      let (ok, w1) :=
        Supabase.update_invoice_status env (invoice_id (inv ir))
          InvoiceStatus.overdue w in
      let (w2, evs) := persist_all env rest w1 in
      (w2, EvUpdateInvoice (invoice_id (inv ir)) InvoiceStatus.overdue ok :: evs)
  end.

Definition queryFn (env : Env) (userId : string) (w : World)
  : result (list InvoiceRow) * World * list event :=
  match select_invoices env userId w with
  | Thrown e => (Thrown e, w, [])
  | Ok data =>
      let (_, w0) := new_Date env w in
      let (updatedInvoices, w1) := mark_overdue env data w0 in
      let overdueInvoices := changed updatedInvoices data in
      match overdueInvoices with
      | [] => (Ok updatedInvoices, w1, [])
      | _ :: _ =>
          let (w2, evs) := persist_all env overdueInvoices w1 in
          (Ok updatedInvoices, w2, evs)
      end
  end.

End InvoiceList.

(** ** The development trigger of [route.ts] *)

Module RouteDev.

(** [GET]; [NODE_ENV] is the variable of the process environment. *)
Definition GET (env : Env) (NODE_ENV : option string) (w : World)
  : Route.Response * World * list (string * list event) :=
  let development :=
    match NODE_ENV with
    | Some v => String.eqb v "development"
    | None => false
    end in
  if negb development then (Route.Json_error "Method not allowed" 405, w, [])
  else
    let run := Email.processScheduledReminders env w in
    match Email.ended run with
    | Email.Resolved =>
        (Route.Json_success 200, Email.final run, Email.journal run)
    | Email.Rejected _ =>
        (Route.Json_error "Failed to process reminders" 500,
         Email.final run, Email.journal run)
    end.

End RouteDev.

(** ** The invoice actions of the detail and list components *)

Module InvoiceActions.

(** The requests of the actions; [fails] tells which the store answers with
    an error. *)
Inductive action : Type :=
| SetStatus (invoiceId userId : string) (st : InvoiceStatus.t)
| DeleteReminders (invoiceId : string)
| DeleteInvoice (invoiceId userId : string).

(** [.from("invoices").update({ status }).eq("id", invoiceId)
      .eq("user_id", userId)], then [if (error) throw error]. *)
Definition set_status (fails : action -> bool) (invoiceId userId : string)
  (st : InvoiceStatus.t) (w : World) : result unit * World :=
  if fails (SetStatus invoiceId userId st) then (Thrown store_error, w)
  else
    (Ok tt,
     mkWorld
       (Supabase.set_invoices (db w)
          (map (fun i => if String.eqb (invoice_id i) invoiceId
                            && String.eqb (invoice_user_id i) userId
                         then Supabase.with_status i st else i)
               (invoices (db w))))
       (ticks w)).

(** The [mutationFn] of [markAsPaidMutation]. *)
Definition markAsPaid (fails : action -> bool) (invoiceId userId : string)
  (w : World) : result unit * World :=
  set_status fails invoiceId userId InvoiceStatus.paid w.

(** The [mutationFn] of [sendInvoiceMutation]. *)
Definition sendInvoice (fails : action -> bool) (invoiceId userId : string)
  (w : World) : result unit * World :=
  set_status fails invoiceId userId InvoiceStatus.sent w.

(** The [mutationFn] of [deleteInvoiceMutation]: the reminders of the
    invoice first, then the invoice of the user. *)
Definition deleteInvoice (fails : action -> bool) (invoiceId userId : string)
  (w : World) : result unit * World :=
  if fails (DeleteReminders invoiceId) then (Thrown store_error, w)
  else
    let w1 :=
      mkWorld
        (Supabase.set_reminders (db w)
           (filter (fun r => negb (String.eqb (reminder_invoice_id r) invoiceId))
                   (reminders (db w))))
        (ticks w) in
    if fails (DeleteInvoice invoiceId userId) then (Thrown store_error, w1)
    else
      (Ok tt,
       mkWorld
         (Supabase.set_invoices (db w1)
            (filter (fun i => negb (String.eqb (invoice_id i) invoiceId
                                    && String.eqb (invoice_user_id i) userId))
                    (invoices (db w1))))
         (ticks w1)).

End InvoiceActions.

(** * Vocabulary of the properties *)

(** ** The scenario of the specification *)

Definition scenario_template : MessageTemplate :=
  mkTemplate "t1" "scenario"
    "{client_name}, invoice {invoice_number} for {amount} was due {due_date} ({days_overdue} days overdue)"
    "Dear {client_name}, please settle invoice {invoice_number}." 1.

Definition scenario_invoice : Invoice :=
  mkInvoice "i1" "u1" "c1" "INV-001" "2024-12-01" "2025-01-01" (150 # 1) "USD"
    InvoiceStatus.sent.

Definition scenario_client : Client :=
  mkClient "c1" "u1" "Acme" "billing@acme.test".


(** 2025-01-10T00:00:00Z. *)
Definition jan_10_2025 : Z := 1736467200000.

Definition scenario_text : string :=
  "Acme, invoice INV-001 for USD 150.00 was due January 1, 2025 (9 days overdue)".

Definition scenario_row : InvoiceRow :=
  mkInvoiceRow scenario_invoice (Some scenario_client).

(** ** Texts, dates and substitution *)

Fixpoint avoids (x : ascii) (s : string) : bool :=
  match s with
  | EmptyString => true
  | String c s' => negb (Ascii.eqb c x) && avoids x s'
  end.

(** The number a text of decimal digits writes, after the digits [v]. *)
Fixpoint digits_value (s : string) (v : Z) : Z :=
  match s with
  | EmptyString => v
  | String c s' => digits_value s' (10 * v + (Z.of_nat (nat_of_ascii c) - 48))
  end.

(** A character that is no decimal digit. *)
Definition not_digit (x : ascii) : Prop :=
  forall d, 0 <= d < 10 -> Ascii.eqb (Js.digit_char d) x = false.

Definition valid_civil (c : JsDate.civil) : Prop :=
  0 <= JsDate.year c <= 9999 /\ 1 <= JsDate.month c <= 12
  /\ 1 <= JsDate.day c <= JsDate.days_in_month (JsDate.year c) (JsDate.month c).

Definition substitute1 (reps : list (string * string)) (s : string) : string :=
  fold_left (fun acc kv => Js.replace_all (fst kv) (snd kv) acc) reps s.


(** ** Runs of the processor and reads of the reconciler *)

Section Vocabulary.

Variable env : Env.

Definition upd (id : string) (p : ReminderPatch) (rs : list Reminder)
  : list Reminder :=
  map (fun r => if String.eqb (reminder_id r) id
                then Supabase.apply_patch p r else r) rs.

Definition rows_with (id : string) (rs : list Reminder) : list Reminder :=
  filter (fun r => String.eqb (reminder_id r) id) rs.

(** The row stored under an id. *)
Definition find_reminder (d : Database) (id : string) : option Reminder :=
  find (fun r => String.eqb (reminder_id r) id) (reminders d).

Definition sends (evs : list event) : nat :=
  List.length (filter is_send evs).

Definition due_id (d : DueReminder) : string := reminder_id (rem d).

Definition tick (w : World) : World := mkWorld (db w) (S (ticks w)).

Definition not_paid (ir : InvoiceRow) : Prop :=
  InvoiceStatus.eqb (invoice_status (inv ir)) InvoiceStatus.paid = false.

(** The ways through the body of the loop. *)
Inductive step : DueReminder -> World -> World -> list event -> Prop :=
| step_dangling d w :
    invoice d = None ->
    step d w w [Email.log_reminder_error d (Email.null_property "status")]
| step_cancel d w ir ok w' :
    invoice d = Some ir ->
    invoice_status (inv ir) = InvoiceStatus.paid ->
    Supabase.update_reminder env (due_id d) Email.cancel_patch w = (ok, w') ->
    step d w w' [EvUpdateReminder (due_id d) Email.cancel_patch ok]
| step_unrendered d w ir :
    invoice d = Some ir -> not_paid ir ->
    template d = None \/ client ir = None ->
    step d w w [Email.log_reminder_error d Email.MissingContextError]
| step_sent d w ir t c content res sev ok w' :
    invoice d = Some ir -> not_paid ir ->
    template d = Some t -> client ir = Some c ->
    to content = client_email c ->
    Email.sendEmail env content = (res, sev) ->
    success res = true ->
    Supabase.update_reminder env (due_id d)
      (Email.sent_patch (clock env (S (ticks w)))) (tick (tick w)) = (ok, w') ->
    step d w w'
      (EvSelectUser (invoice_user_id (inv ir)) :: EvSendEmail content res
         :: sev
         ++ [EvUpdateReminder (due_id d)
               (Email.sent_patch (clock env (S (ticks w)))) ok])
| step_send_failed d w ir t c content res sev :
    invoice d = Some ir -> not_paid ir ->
    template d = Some t -> client ir = Some c ->
    to content = client_email c ->
    Email.sendEmail env content = (res, sev) ->
    success res = false ->
    step d w (tick w)
      (EvSelectUser (invoice_user_id (inv ir)) :: EvSendEmail content res
         :: sev
         ++ [EvConsoleError
               ("Failed to send reminder " ++ due_id d ++ ": ")%string
               (error res)]).

(** Two stores that differ at most in their reminders. *)
Definition same_but_reminders (a b : Database) : Prop :=
  invoices a = invoices b /\ clients a = clients b
  /\ message_templates a = message_templates b /\ users a = users b.

(** The rows the query returns: the pending reminders scheduled up to [now],
    each with its invoice, client and template. *)
Definition due_rows (now : Z) (d : Database) : list DueReminder :=
  map (Supabase.embed d) (filter (Supabase.is_due now) (reminders d)).

Definition start_time (w : World) : Z := clock env (ticks w).

Definition query_ok (w : World) : Prop :=
  store_fails env (SelectDueReminders (start_time w)) = false.

Definition unique_ids (w : World) : Prop :=
  NoDup (map reminder_id (reminders (db w))).


Definition row_id (ir : InvoiceRow) : string := invoice_id (inv ir).

(** The due date lies before every reading of the clock. *)
Definition past_due (ir : InvoiceRow) : Prop :=
  forall k : nat,
    JsDate.isPast (clock env k)
      (JsDate.parseISO (tz env) (due_date (inv ir))) = true.

Definition reconcilable (ir : InvoiceRow) : Prop :=
  row_status ir = InvoiceStatus.sent /\ past_due ir.

(** The requests of an event list that set the invoice [id] to overdue. *)
Definition overdue_updates (id : string) (evs : list event) : nat :=
  List.length
    (filter (fun e => match e with
                      | EvUpdateInvoice id' InvoiceStatus.overdue _ =>
                          String.eqb id' id
                      | _ => false
                      end) evs).

End Vocabulary.

(** ** A batch: one payable, one paid, one later, one already sent, one
    without template *)

Definition paid_invoice : Invoice :=
  mkInvoice "i2" "u1" "c1" "INV-002" "2024-12-01" "2025-01-02" (80 # 1) "USD"
    InvoiceStatus.paid.

Definition r_unpaid : Reminder :=
  mkReminder "r1" "i1" "t1" (jan_10_2025 - 1000) ReminderStatus.pending None.

Definition r_paid : Reminder :=
  mkReminder "r2" "i2" "t1" (jan_10_2025 - 2000) ReminderStatus.pending None.

Definition r_later : Reminder :=
  mkReminder "r3" "i1" "t1" (jan_10_2025 + 604800000) ReminderStatus.pending
    None.

Definition r_done : Reminder :=
  mkReminder "r4" "i1" "t1" (jan_10_2025 - 604800000) ReminderStatus.sent
    (Some (jan_10_2025 - 604800000)).

Definition r_untemplated : Reminder :=
  mkReminder "r5" "i1" "gone" (jan_10_2025 - 3000) ReminderStatus.pending None.

Definition owner : User :=
  mkUser "u1" "owner@example.test" (Some "Olu Owner") None.

Definition db0 : Database :=
  mkDb [r_unpaid; r_paid; r_later; r_done; r_untemplated]
    [scenario_invoice; paid_invoice] [scenario_client] [scenario_template]
    [owner].

Definition world0 : World := mkWorld db0 0.

(** A clock that advances by a second between two readings. *)
Definition ticking (k : nat) : Z := jan_10_2025 + 1000 * Z.of_nat k.

Definition env_ok : Env :=
  mkEnv 0 ticking (Some "SG.key") None None (fun _ => false) (fun _ => None).

Definition env_mail_down : Env :=
  mkEnv 0 ticking (Some "SG.key") None None (fun _ => false)
    (fun _ => Some "Service Unavailable").

Definition env_store_down : Env :=
  mkEnv 0 ticking (Some "SG.key") None None
    (fun q => match q with SelectDueReminders _ => true | _ => false end)
    (fun _ => None).

Definition env_writes_refused : Env :=
  mkEnv 0 ticking (Some "SG.key") None None
    (fun q => match q with UpdateInvoiceStatus _ _ => true | _ => false end)
    (fun _ => None).

Definition entry_of (id : string) (j : list (string * list event))
  : list event :=
  match find (fun e => String.eqb (fst e) id) j with
  | Some e => snd e
  | None => []
  end.

Definition delivered_entry : list event :=
  Eval vm_compute in
    entry_of "r1" (Email.journal (Email.processScheduledReminders env_ok world0)).

(** ** Further vocabulary: texts of dates and of amounts *)

(** A calendar date in the long form of the en-US locale. *)
Definition date_text (d : JsDate.civil) : string :=
  JsDate.month_name (JsDate.month d) ++ " " ++ Js.string_of_Z (JsDate.day d)
  ++ ", " ++ Js.string_of_Z (JsDate.year d).

Definition line_feed : ascii := ascii_of_nat 10.

(** The number the {days_overdue} entry of a replacement table writes. *)
Definition days_written (reps : list (string * string)) : Z :=
  match find (fun kv => String.eqb (fst kv) "{days_overdue}") reps with
  | Some kv => digits_value (snd kv) 0
  | None => 0
  end.

(** ** Further vocabulary: what a run does *)

Definition is_mail_send (e : event) : bool :=
  match e with
  | EvMailSend _ => true
  | _ => false
  end.

(** Marks a reminder as sent. *)
Definition is_sent_update (e : event) : bool :=
  match e with
  | EvUpdateReminder _ p _ =>
      match patch_status p with
      | Some ReminderStatus.sent => true
      | _ => false
      end
  | _ => false
  end.

(** A fetched reminder for which an email can be made: its invoice is there
    and not paid, and the template and the client are there. *)
Definition deliverable (d : DueReminder) : bool :=
  match invoice d with
  | Some ir =>
      negb (InvoiceStatus.eqb (invoice_status (inv ir)) InvoiceStatus.paid)
      && match template d with Some _ => true | None => false end
      && match client ir with Some _ => true | None => false end
  | None => false
  end.

(** The transport calls of a whole journal. *)
Definition total_sends (j : list (string * list event)) : nat :=
  list_sum (map (fun entry => sends (snd entry)) j).

(** What identifies and schedules a reminder. *)
Definition key_fields (r : Reminder) : string * string * string * Z :=
  (reminder_id r, reminder_invoice_id r, reminder_template_id r,
   scheduled_date r).

(** What an invoice is, its status apart. *)
Definition invoice_core (i : Invoice)
  : string * string * string * string * string * string * Q * string :=
  (invoice_id i, invoice_user_id i, invoice_client_id i, invoice_number i,
   issue_date i, due_date i, amount i, currency i).

(** The due rows a run handles before the one with identifier [id]. *)
Fixpoint earlier (id : string) (rs : list DueReminder) : list DueReminder :=
  match rs with
  | [] => []
  | d :: rest =>
      if String.eqb (due_id d) id then [] else d :: earlier id rest
  end.

(** The state of a run started in [w] when the pass of the loop for the
    reminder [id] begins: the clock has been read for the query and the
    passes for the earlier rows have been made. *)
Definition pass_start (env : Env) (w : World) (id : string) : World :=
  fst (Email.process_all env
         (earlier id (due_rows (start_time env w) (db w))) (tick w)).

(** The email of a reminder, as the loop hands it to [sendEmail]: rendered
    from the template with the reading [today] of the clock, addressed to
    the client, in the name of the user of the invoice. *)
Definition reminder_email (env : Env) (d : Database) (t : MessageTemplate)
  (iv : Invoice) (cl : Client) (today : Z) : EmailContent :=
  let formattedTemplate := Email.format_email (tz env) today t iv cl in
  let user := Supabase.select_user env (invoice_user_id iv) (mkWorld d 0) in
  mkContent (client_email cl)
    (Email.f_subject formattedTemplate) (Email.f_body formattedTemplate)
    (match user with
     | Some u => truthy (user_full_name u)
     | None => None
     end)
    None
    (match user with
     | Some u => truthy (Some (user_email u))
     | None => None
     end).

(** The invoices with identifier [id] are stored as overdue. *)
Definition stored_overdue (id : string) (w : World) : Prop :=
  forall i, In i (invoices (db w)) -> invoice_id i = id ->
            invoice_status i = InvoiceStatus.overdue.

Definition plain_content : EmailContent :=
  mkContent "billing@acme.test" "Reminder" "Please pay." None None None.

Definition plain_message : MailMessage :=
  mkMail "billing@acme.test" "noreply@invoicenudger.com" "Invoice Nudger"
    "Reminder" "Please pay." "noreply@invoicenudger.com".

Definition env_no_key : Env :=
  mkEnv 0 ticking None None None (fun _ => false) (fun _ => None).



(** * Properties *)

(** ** Strings *)

Section StringFacts.

Lemma append_assoc_str (a b c : string) : ((a ++ b) ++ c = a ++ (b ++ c))%string.
Proof. induction a as [|x a IH]; simpl; [reflexivity | now rewrite IH]. Qed.

Lemma append_nil_r (a : string) : (a ++ EmptyString)%string = a.
Proof. induction a as [|x a IH]; simpl; [reflexivity | now rewrite IH]. Qed.

Lemma avoids_app x a b :
  avoids x (a ++ b) = avoids x a && avoids x b.
Proof.
  induction a as [|c a IH]; simpl; [reflexivity|].
  rewrite IH. now rewrite andb_assoc.
Qed.

Lemma digit_char_cases d :
  0 <= d < 10 ->
  In (Js.digit_char d) ["0"; "1"; "2"; "3"; "4"; "5"; "6"; "7"; "8"; "9"]%char.
Proof.
  intros H.
  assert (C : d = 0 \/ d = 1 \/ d = 2 \/ d = 3 \/ d = 4 \/ d = 5 \/ d = 6
              \/ d = 7 \/ d = 8 \/ d = 9) by lia.
  repeat (destruct C as [C | C]; [subst d; simpl; tauto|]).
  subst d; simpl; tauto.
Qed.

Lemma not_digit_dollar : not_digit "$".
Proof.
  intros d H. pose proof (digit_char_cases d H) as C. simpl in C.
  repeat (destruct C as [C | C]; [rewrite <- C; reflexivity|]). contradiction.
Qed.

Lemma not_digit_brace : not_digit "{".
Proof.
  intros d H. pose proof (digit_char_cases d H) as C. simpl in C.
  repeat (destruct C as [C | C]; [rewrite <- C; reflexivity|]). contradiction.
Qed.


Lemma not_digit_newline : not_digit (ascii_of_nat 10).
Proof.
  intros d H. pose proof (digit_char_cases d H) as C. simpl in C.
  repeat (destruct C as [C | C]; [rewrite <- C; reflexivity|]). contradiction.
Qed.

Lemma avoids_digits_fuel x (Hx : not_digit x) fuel :
  forall n acc, avoids x acc = true ->
                avoids x (Js.digits_fuel fuel n acc) = true.
Proof.
  induction fuel as [|f IH]; intros n acc Hacc; cbn [Js.digits_fuel];
    [exact Hacc|].
  assert (Hd : avoids x (String (Js.digit_char (n mod 10)) acc) = true).
  { cbn [avoids]. rewrite Hx, Hacc; [reflexivity|].
    apply Z.mod_pos_bound. lia. }
  destruct (n <? 10); [exact Hd | now apply IH].
Qed.

Lemma digit_char_value d :
  0 <= d < 10 -> Z.of_nat (nat_of_ascii (Js.digit_char d)) - 48 = d.
Proof.
  intros H.
  assert (C : d = 0 \/ d = 1 \/ d = 2 \/ d = 3 \/ d = 4 \/ d = 5 \/ d = 6
              \/ d = 7 \/ d = 8 \/ d = 9) by lia.
  repeat (destruct C as [C | C]; [subst d; reflexivity|]).
  subst d; reflexivity.
Qed.

Lemma digits_value_app a b v :
  digits_value (a ++ b) v = digits_value b (digits_value a v).
Proof.
  revert v. induction a as [|c a IH]; intros v; [reflexivity|].
  cbn [append digits_value]. apply IH.
Qed.

Lemma digits_fuel_acc fuel :
  forall n acc,
    Js.digits_fuel fuel n acc
    = (Js.digits_fuel fuel n EmptyString ++ acc)%string.
Proof.
  induction fuel as [|f IH]; intros n acc; cbn [Js.digits_fuel];
    [reflexivity|].
  destruct (n <? 10); [reflexivity|].
  rewrite (IH (n / 10) (String _ acc)), (IH (n / 10) (String _ EmptyString)).
  now rewrite append_assoc_str.
Qed.

Lemma digits_fuel_value fuel :
  forall n, 0 <= n < 10 ^ Z.of_nat fuel ->
            digits_value (Js.digits_fuel fuel n EmptyString) 0 = n.
Proof.
  induction fuel as [|f IH]; intros n Hn.
  - cbn in Hn. assert (n = 0) by lia. subst n. reflexivity.
  - cbn [Js.digits_fuel].
    assert (Hd : 0 <= n mod 10 < 10) by (apply Z.mod_pos_bound; lia).
    destruct (n <? 10) eqn:E.
    + apply Z.ltb_lt in E. cbn [digits_value].
      rewrite (digit_char_value _ Hd). rewrite Z.mod_small by lia. lia.
    + apply Z.ltb_ge in E. rewrite digits_fuel_acc, digits_value_app.
      rewrite IH.
      * cbn [digits_value]. rewrite (digit_char_value _ Hd).
        Z.div_mod_to_equations. lia.
      * rewrite Nat2Z.inj_succ, Z.pow_succ_r in Hn by lia.
        Z.div_mod_to_equations. lia.
Qed.

(** [string_of_Z] writes its argument in decimal. *)
Lemma string_of_Z_value n :
  0 <= n -> digits_value (Js.string_of_Z n) 0 = n.
Proof.
  intros Hn. unfold Js.string_of_Z. apply digits_fuel_value.
  split; [exact Hn|].
  destruct (Z.eq_dec n 0) as [-> | Hne]; [reflexivity|].
  rewrite Nat2Z.inj_succ, Z2Nat.id by apply Z.log2_nonneg.
  pose proof (Z.log2_spec n ltac:(lia)) as [_ Hlt].
  assert (Hpow : 2 ^ Z.succ (Z.log2 n) <= 10 ^ Z.succ (Z.log2 n)).
  { apply Z.pow_le_mono_l. lia. }
  lia.
Qed.

Lemma avoids_string_of_Z x (Hx : not_digit x) n :
  avoids x (Js.string_of_Z n) = true.
Proof. unfold Js.string_of_Z. now apply avoids_digits_fuel. Qed.

Lemma get_substitution_plain matched before after repl :
  avoids "$" repl = true ->
  Js.get_substitution matched before after repl = repl.
Proof.
  induction repl as [|a t IH]; simpl; [reflexivity|].
  intros H. apply andb_prop in H. destruct H as [Ha Ht].
  apply negb_true_iff in Ha. rewrite Ha. now rewrite IH.
Qed.

Lemma prefix_brace_false k c s :
  Ascii.eqb c "{" = false ->
  Js.starts_with (String "{" k) (String c s) = false.
Proof.
  intros H. cbn [Js.starts_with]. now rewrite Ascii.eqb_sym, H.
Qed.

(** A text without opening brace holds no placeholder. *)
Lemma replace_from_avoids k repl s :
  avoids "{" s = true ->
  forall before, Js.replace_from (String "{" k) repl O before s = s.
Proof.
  induction s as [|c s IH]; intros H before; [reflexivity|].
  simpl in H. apply andb_prop in H. destruct H as [Hc Hs].
  apply negb_true_iff in Hc.
  cbn [Js.replace_from]. rewrite (prefix_brace_false k c s Hc).
  now rewrite IH.
Qed.

Lemma replace_from_app_avoids k repl pre s :
  avoids "{" pre = true ->
  forall before,
    Js.replace_from (String "{" k) repl O before (pre ++ s)
    = (pre ++ Js.replace_from (String "{" k) repl O (before ++ pre) s)%string.
Proof.
  induction pre as [|c pre IH]; intros H before.
  - simpl. now rewrite append_nil_r.
  - simpl in H. apply andb_prop in H. destruct H as [Hc Hs].
    apply negb_true_iff in Hc.
    change (String c pre ++ s)%string with (String c (pre ++ s)%string).
    cbn [Js.replace_from]. rewrite (prefix_brace_false k c _ Hc).
    rewrite (IH Hs). rewrite append_assoc_str. reflexivity.
Qed.

Lemma replace_all_avoids k repl s :
  avoids "{" s = true -> Js.replace_all (String "{" k) repl s = s.
Proof. intros H. unfold Js.replace_all. now apply replace_from_avoids. Qed.

End StringFacts.

(** ** The calendar *)

Section Calendar.

Import JsDate.

Lemma DayFromYear_step y :
  DayFromYear (y + 1) = DayFromYear y + DaysInYear y.
Proof.
  unfold DaysInYear, InLeapYear, DayFromYear.
  destruct (y mod 4 =? 0) eqn:E4; destruct (y mod 100 =? 0) eqn:E100;
    destruct (y mod 400 =? 0) eqn:E400; cbn [andb orb negb];
    rewrite ?Z.eqb_eq, ?Z.eqb_neq in *;
    Z.div_mod_to_equations; lia.
Qed.

Lemma DayFromYear_mono a b : a <= b -> DayFromYear a <= DayFromYear b.
Proof. intros H. unfold DayFromYear. Z.div_mod_to_equations. lia. Qed.

Lemma YearFromDay_spec n :
  DayFromYear (YearFromDay n) <= n < DayFromYear (YearFromDay n + 1).
Proof.
  unfold YearFromDay.
  set (e := 1970 + 400 * n / 146097).
  destruct (DayFromYear (e + 1) <=? n) eqn:E1;
    [|destruct (DayFromYear e <=? n) eqn:E2].
  - apply Z.leb_le in E1. split; [exact E1|].
    subst e. unfold DayFromYear in *. Z.div_mod_to_equations. lia.
  - apply Z.leb_le in E2. apply Z.leb_gt in E1. lia.
  - apply Z.leb_gt in E2. replace (e - 1 + 1) with e by lia. split; [|lia].
    subst e. unfold DayFromYear in *. Z.div_mod_to_equations. lia.
Qed.

(** The year of a day number is the one whose days contain it. *)
Lemma YearFromDay_unique n y :
  DayFromYear y <= n < DayFromYear (y + 1) -> YearFromDay n = y.
Proof.
  intros H. pose proof (YearFromDay_spec n) as S.
  destruct (Z.lt_trichotomy (YearFromDay n) y) as [L | [E | G]];
    [exfalso | exact E | exfalso].
  - pose proof (DayFromYear_mono (YearFromDay n + 1) y ltac:(lia)). lia.
  - pose proof (DayFromYear_mono (y + 1) (YearFromDay n) ltac:(lia)). lia.
Qed.

Lemma days_before_month_bound y m d :
  1 <= m <= 12 -> 1 <= d <= days_in_month y m ->
  0 <= days_before_month (InLeapYear y) m + d - 1 < DaysInYear y.
Proof.
  intros Hm Hd. unfold DaysInYear, days_in_month, days_before_month in *.
  assert (C : m = 1 \/ m = 2 \/ m = 3 \/ m = 4 \/ m = 5 \/ m = 6 \/ m = 7
              \/ m = 8 \/ m = 9 \/ m = 10 \/ m = 11 \/ m = 12) by lia.
  revert Hd. destruct (InLeapYear y); intros Hd;
    repeat (destruct C as [C | C];
            [subst m;
             cbv [Z.eqb Z.leb Z.compare Pos.compare Pos.compare_cont Pos.eqb orb]
               in *; lia|]);
    subst m;
    cbv [Z.eqb Z.leb Z.compare Pos.compare Pos.compare_cont Pos.eqb orb] in *;
    lia.
Qed.

Lemma YearFromDay_MakeDay y m d :
  1 <= m <= 12 -> 1 <= d <= days_in_month y m ->
  YearFromDay (MakeDay y m d) = y.
Proof.
  intros Hm Hd. apply YearFromDay_unique.
  pose proof (days_before_month_bound y m d Hm Hd) as B.
  rewrite DayFromYear_step. unfold MakeDay. lia.
Qed.

Lemma digit_val_bound c n : digit_val c = Some n -> 0 <= n <= 9.
Proof.
  unfold digit_val. cbv zeta. destruct (_ && _) eqn:E; [|discriminate].
  intros H. injection H as <-. apply andb_prop in E. destruct E as [E1 E2].
  apply Z.leb_le in E1. apply Z.leb_le in E2. lia.
Qed.

Lemma num2_bound a b n : num2 a b = Some n -> 0 <= n <= 99.
Proof.
  unfold num2.
  destruct (digit_val a) as [x|] eqn:A; [|discriminate].
  destruct (digit_val b) as [y|] eqn:B; [|discriminate].
  intros H. assert (E : n = 10 * x + y) by congruence. subst n.
  apply digit_val_bound in A. apply digit_val_bound in B. lia.
Qed.

Lemma num4_bound a b c d n : num4 a b c d = Some n -> 0 <= n <= 9999.
Proof.
  unfold num4.
  destruct (num2 a b) as [x|] eqn:A; [|discriminate].
  destruct (num2 c d) as [y|] eqn:B; [|discriminate].
  intros H. assert (E : n = 100 * x + y) by congruence. subst n.
  apply num2_bound in A. apply num2_bound in B. lia.
Qed.

Lemma parse_date_only_valid s c :
  parse_date_only s = Some c -> valid_civil c.
Proof.
  unfold parse_date_only.
  repeat (destruct s as [|? s]; [discriminate|]).
  destruct s; [|discriminate].
  destruct (_ && _); [|discriminate].
  destruct (num4 _ _ _ _) as [y|] eqn:Y; [|discriminate].
  destruct (num2 _ _) as [m|] eqn:M; [|discriminate].
  destruct (num2 a7 a8) as [d|] eqn:D; [|discriminate].
  destruct (_ && _) eqn:V; [|discriminate].
  intros H. injection H as <-. unfold valid_civil. cbn [year month day].
  apply num4_bound in Y.
  repeat (apply andb_prop in V; destruct V as [V ?]).
  rewrite ?Z.leb_le in *. lia.
Qed.

(** In UTC the year shown for a parsed date is the year written. *)
Lemma getFullYear_utc c :
  valid_civil c -> getFullYear 0 (utc_midnight c) = year c.
Proof.
  intros (_ & Hm & Hd). unfold getFullYear, local_day, utc_midnight.
  replace ((MakeDay (year c) (month c) (day c) * msPerDay + 0 * 60000)
           / msPerDay)
    with (MakeDay (year c) (month c) (day c))
    by (unfold msPerDay; Z.div_mod_to_equations; lia).
  now apply YearFromDay_MakeDay.
Qed.

Lemma length_digits_fuel fuel :
  forall n acc,
    (String.length acc <= String.length (Js.digits_fuel fuel n acc))%nat.
Proof.
  induction fuel as [|f IH]; intros n acc; cbn [Js.digits_fuel]; [lia|].
  destruct (n <? 10).
  - cbn [String.length]. lia.
  - etransitivity; [|apply IH]. cbn [String.length]. lia.
Qed.

Lemma length_string_of_Z_1000 n :
  1000 <= n -> (4 <= String.length (Js.string_of_Z n))%nat.
Proof.
  intros H. unfold Js.string_of_Z.
  assert (L : 9 <= Z.log2 n).
  { change 9 with (Z.log2 1000). apply Z.log2_le_mono. exact H. }
  destruct (Z.to_nat (Z.log2 n)) as [|[|[|k]]] eqn:E; try lia.
  cbn [Js.digits_fuel].
  assert (H1 : (n <? 10) = false) by (apply Z.ltb_ge; lia). rewrite H1.
  assert (H2 : (n / 10 <? 10) = false)
    by (apply Z.ltb_ge; Z.div_mod_to_equations; lia). rewrite H2.
  assert (H3 : (n / 10 / 10 <? 10) = false)
    by (apply Z.ltb_ge; Z.div_mod_to_equations; lia). rewrite H3.
  destruct (n / 10 / 10 / 10 <? 10).
  - cbn [String.length]. lia.
  - etransitivity; [|apply length_digits_fuel]. cbn [String.length]. lia.
Qed.

Lemma pad_zeros_4_year n :
  1000 <= n -> Js.pad_zeros 4 (Js.string_of_Z n) = Js.string_of_Z n.
Proof.
  intros H. unfold Js.pad_zeros.
  pose proof (length_string_of_Z_1000 n H) as L.
  replace (4 - String.length (Js.string_of_Z n))%nat with O by lia.
  reflexivity.
Qed.

End Calendar.

(** ** The template renderer *)

Section Renderer.

Import JsDate.

(** Subject and body are substituted independently of each other. *)
Lemma substitute_split reps :
  forall s b,
    Email.substitute reps (s, b) = (substitute1 reps s, substitute1 reps b).
Proof.
  induction reps as [|kv reps IH]; intros s b; [reflexivity|].
  unfold Email.substitute, substitute1 in *. cbn [fold_left fst snd].
  apply IH.
Qed.






Lemma days_overdue_text_max today t :
  Email.days_overdue_text (Email.daysOverdue today (Some t))
  = Js.string_of_Z (Z.max 0 ((today - t) / msPerDay)).
Proof.
  unfold Email.days_overdue_text, Email.daysOverdue. cbn [option_map].
  destruct ((today - t) / msPerDay >? 0) eqn:E; f_equal.
  - apply Z.gtb_lt in E. lia.
  - rewrite Z.gtb_ltb in E. apply Z.ltb_ge in E. lia.
Qed.



(** C6 (code defect): in a process five hours west of UTC the due date of
    the scenario, read as UTC midnight by [new Date] and printed in local
    time by [toLocaleDateString], comes out as the day before: the rendered
    text is not the one of the specification. *)
Theorem scenario_west_of_utc :
  Email.f_subject
    (Email.format_email (-300) jan_10_2025 scenario_template scenario_invoice
       scenario_client)
  = "Acme, invoice INV-001 for USD 150.00 was due December 31, 2024 (9 days overdue)"
  /\ Email.f_subject
       (Email.format_email (-300) jan_10_2025 scenario_template
          scenario_invoice scenario_client)
     <> scenario_text.
Proof.
  assert (E : Email.f_subject
                (Email.format_email (-300) jan_10_2025 scenario_template
                   scenario_invoice scenario_client)
              = "Acme, invoice INV-001 for USD 150.00 was due December 31, 2024 (9 days overdue)")
    by (vm_compute; reflexivity).
  split; [exact E|]. rewrite E. unfold scenario_text. discriminate.
Qed.

(** Where the scenario renders as specified: at every instant of 2025-01-10
    (UTC), in a process whose local time zone is UTC or east of it. *)
Lemma scenario_renders_east_of_utc :
  forall tzone today : Z,
    0 <= tzone < 1440 ->
    jan_10_2025 <= today < jan_10_2025 + msPerDay ->
    Email.f_subject
      (Email.format_email tzone today scenario_template scenario_invoice
         scenario_client)
    = scenario_text.
Proof.
  intros tzone today Hz Hnow.
  assert (Hd : Date_of_string (due_date scenario_invoice)
               = Some 1735689600000) by (vm_compute; reflexivity).
  assert (Hl : local_day tzone 1735689600000 = 20089)
    by (unfold local_day, msPerDay; Z.div_mod_to_equations; lia).
  assert (Hn : Email.daysOverdue today (Some 1735689600000) = Some 9).
  { unfold Email.daysOverdue, jan_10_2025, msPerDay in *. cbn [option_map].
    f_equal. Z.div_mod_to_equations. lia. }
  unfold Email.format_email, Email.replacements. cbv zeta.
  rewrite Hd, Hn.
  unfold toLocaleDateString_long, getMonth1, getDate, getFullYear.
  rewrite Hl. vm_compute. reflexivity.
Qed.

Lemma scenario_renders_in_india :
  Email.f_subject
    (Email.format_email 330 (jan_10_2025 + 3600000) scenario_template
       scenario_invoice scenario_client)
  = scenario_text.
Proof.
  apply (scenario_renders_east_of_utc 330 (jan_10_2025 + 3600000)).
  - lia.
  - unfold jan_10_2025, msPerDay. lia.
Defined.

(** C10 (code defect, the one of C6): west of UTC the preview, which reads
    the due date with [parseISO] and prints it with [format], shows the date
    as written and counts the days from local midnight, while the email
    shows the day before and counts from UTC midnight: the subjects
    differ. *)
Theorem preview_differs_west_of_utc :
  exists p,
    Scheduler.getFormattedPreview (-300) jan_10_2025 (Some scenario_row)
      scenario_template = Ok p
    /\ template_subject p
       = "Acme, invoice INV-001 for USD 150.00 was due January 1, 2025 (8 days overdue)"
    /\ Email.f_subject
         (Email.format_email (-300) jan_10_2025 scenario_template
            scenario_invoice scenario_client)
       = "Acme, invoice INV-001 for USD 150.00 was due December 31, 2024 (9 days overdue)"
    /\ template_subject p
       <> Email.f_subject
            (Email.format_email (-300) jan_10_2025 scenario_template
               scenario_invoice scenario_client).
Proof.
  eexists. split; [vm_compute; reflexivity|].
  assert (E : Email.f_subject
                (Email.format_email (-300) jan_10_2025 scenario_template
                   scenario_invoice scenario_client)
              = "Acme, invoice INV-001 for USD 150.00 was due December 31, 2024 (9 days overdue)")
    by (vm_compute; reflexivity).
  split; [reflexivity|]. split; [exact E|].
  rewrite E. cbn [template_subject]. discriminate.
Qed.

(** Where the two formatters agree: in a process whose local time zone is
    UTC, for an invoice with its client and a due date written yyyy-MM-dd
    with a year from 1000 on, the preview and the email formatter, evaluated
    at the same clock reading, give the same subject, and the email body is
    the preview body with every newline replaced by the line-break markup. *)
Lemma preview_agrees_in_utc :
  forall (today : Z) (t : MessageTemplate) (ir : InvoiceRow) (c : Client)
         (d : civil),
    client ir = Some c ->
    parse_date_only (due_date (inv ir)) = Some d ->
    1000 <= year d ->
    exists p,
      Scheduler.getFormattedPreview 0 today (Some ir) t = Ok p
      /\ template_subject p
         = Email.f_subject (Email.format_email 0 today t (inv ir) c)
      /\ Email.f_body (Email.format_email 0 today t (inv ir) c)
         = Js.replace_all Js.newline "<br />" (template_body p).
Proof.
  intros today t ir c d Hc Hparse Hyear.
  pose proof (parse_date_only_valid _ _ Hparse) as Hvalid.
  assert (Hp : parseISO 0 (due_date (inv ir)) = Some (utc_midnight d)).
  { unfold parseISO. rewrite Hparse. cbn [option_map]. f_equal. lia. }
  assert (Hd : Date_of_string (due_date (inv ir)) = Some (utc_midnight d))
    by (unfold Date_of_string; now rewrite Hparse).
  assert (Hfmt : format_MMMM_d_yyyy 0 (Some (utc_midnight d))
                 = Some (toLocaleDateString_long 0 (Some (utc_midnight d)))).
  { unfold format_MMMM_d_yyyy, toLocaleDateString_long.
    rewrite (getFullYear_utc d Hvalid).
    assert (Hera : era_year (year d) = year d).
    { unfold era_year. destruct (0 <? year d) eqn:E; [reflexivity|].
      apply Z.ltb_ge in E. lia. }
    rewrite Hera, (pad_zeros_4_year _ Hyear). reflexivity. }
  unfold Scheduler.getFormattedPreview. rewrite Hc, Hp, Hfmt.
  eexists. split; [reflexivity|].
  unfold Email.format_email, Scheduler.replacements, Email.replacements.
  cbv zeta. rewrite Hp, Hd.
  cbn [template_subject template_body Email.f_subject Email.f_body].
  split; reflexivity.
Qed.

Lemma preview_agrees_on_scenario :
  exists p,
    Scheduler.getFormattedPreview 0 jan_10_2025 (Some scenario_row)
      scenario_template = Ok p
    /\ template_subject p
       = Email.f_subject
           (Email.format_email 0 jan_10_2025 scenario_template
              scenario_invoice scenario_client)
    /\ Email.f_body
         (Email.format_email 0 jan_10_2025 scenario_template
            scenario_invoice scenario_client)
       = Js.replace_all Js.newline "<br />" (template_body p).
Proof.
  apply (preview_agrees_in_utc jan_10_2025 scenario_template scenario_row
           scenario_client (mkCivil 2025 1 1)).
  - reflexivity.
  - reflexivity.
  - cbn [year]. lia.
Defined.

End Renderer.

(** ** The reminder processor *)

Section Processor.

Variable env : Env.

Lemma rows_with_upd_same id p rs :
  rows_with id (upd id p rs) = map (Supabase.apply_patch p) (rows_with id rs).
Proof.
  induction rs as [|r rs IH]; [reflexivity|].
  unfold rows_with, upd in *. cbn [map filter].
  destruct (String.eqb (reminder_id r) id) eqn:E.
  - cbn [Supabase.apply_patch reminder_id]. rewrite E. cbn [map].
    now rewrite IH.
  - rewrite E. exact IH.
Qed.

Lemma rows_with_upd_other id id' p rs :
  id <> id' -> rows_with id (upd id' p rs) = rows_with id rs.
Proof.
  intros Hne. induction rs as [|r rs IH]; [reflexivity|].
  unfold rows_with, upd in *. cbn [map filter].
  destruct (String.eqb (reminder_id r) id') eqn:E'.
  - cbn [Supabase.apply_patch reminder_id].
    apply String.eqb_eq in E'.
    assert (E : String.eqb (reminder_id r) id = false)
      by (apply String.eqb_neq; congruence).
    rewrite E. exact IH.
  - destruct (String.eqb (reminder_id r) id); [now rewrite IH | exact IH].
Qed.

Lemma upd_nth_other id p rs i x :
  nth_error rs i = Some x -> reminder_id x <> id ->
  nth_error (upd id p rs) i = Some x.
Proof.
  intros Hn Hne. unfold upd.
  rewrite nth_error_map, Hn. cbn [option_map].
  apply String.eqb_neq in Hne. now rewrite Hne.
Qed.

Lemma find_head_filter {A} (f : A -> bool) l : find f l = hd_error (filter f l).
Proof.
  induction l as [|a l IH]; [reflexivity|]. cbn [find filter].
  destruct (f a); [reflexivity | exact IH].
Qed.

Lemma NoDup_map_inj {A B} (f : A -> B) l a b :
  NoDup (map f l) -> In a l -> In b l -> f a = f b -> a = b.
Proof.
  induction l as [|x l IH]; intros Hnd Ha Hb E; [contradiction|].
  cbn [map] in Hnd. inversion Hnd as [|? ? Hnot Hnd']; subst.
  destruct Ha as [<- | Ha], Hb as [<- | Hb]; [reflexivity | | | now apply IH].
  - exfalso. apply Hnot. rewrite E. now apply in_map.
  - exfalso. apply Hnot. rewrite <- E. now apply in_map.
Qed.

Lemma NoDup_map_filter {A B} (f : A -> B) (p : A -> bool) l :
  NoDup (map f l) -> NoDup (map f (filter p l)).
Proof.
  induction l as [|x l IH]; intros Hnd; [exact Hnd|].
  cbn [map] in Hnd. inversion Hnd as [|? ? Hnot Hnd']; subst.
  cbn [filter]. destruct (p x); [|now apply IH].
  cbn [map]. constructor; [|now apply IH].
  intros Hin. apply Hnot. apply in_map_iff in Hin.
  destruct Hin as (y & Ey & Hy). apply filter_In in Hy.
  apply in_map_iff. exists y. tauto.
Qed.

(** Under unique ids the rows stored under the id of [r] are [r] alone. *)
Lemma rows_with_unique rs r :
  NoDup (map reminder_id rs) -> In r rs -> rows_with (reminder_id r) rs = [r].
Proof.
  induction rs as [|x rs IH]; intros Hnd Hin; [contradiction|].
  cbn [map] in Hnd. inversion Hnd as [|? ? Hnot Hnd']; subst.
  unfold rows_with in *. cbn [filter].
  destruct Hin as [-> | Hin].
  - rewrite String.eqb_refl. f_equal.
    destruct (filter _ rs) as [|y ys] eqn:F; [reflexivity|].
    exfalso. apply Hnot.
    assert (Hy : In y (filter (fun r0 => String.eqb (reminder_id r0)
                                          (reminder_id r)) rs))
      by (rewrite F; now left).
    apply filter_In in Hy. destruct Hy as [Hy E]. apply String.eqb_eq in E.
    rewrite <- E. now apply in_map.
  - assert (E : String.eqb (reminder_id x) (reminder_id r) = false).
    { apply String.eqb_neq. intros E. apply Hnot. rewrite E. now apply in_map. }
    rewrite E. now apply IH.
Qed.

Lemma update_reminder_accepted id p w :
  store_fails env (UpdateReminder id p) = false ->
  Supabase.update_reminder env id p w
  = (true,
     mkWorld (Supabase.set_reminders (db w) (upd id p (reminders (db w))))
       (ticks w)).
Proof. intros H. unfold Supabase.update_reminder. now rewrite H. Qed.

Lemma sendEmail_no_send content :
  filter is_send (snd (Email.sendEmail env content)) = [].
Proof.
  unfold Email.sendEmail.
  destruct (truthy (SENDGRID_API_KEY env)); [|reflexivity].
  destruct (mail_send env _); reflexivity.
Qed.

Lemma process_reminder_step d w :
  step env d w (fst (Email.process_reminder env d w))
    (snd (Email.process_reminder env d w)).
Proof.
  unfold Email.process_reminder.
  destruct (invoice d) as [ir|] eqn:Hi; [|now apply step_dangling].
  destruct (InvoiceStatus.eqb (invoice_status (inv ir)) InvoiceStatus.paid)
    eqn:Hpaid.
  - destruct (Supabase.update_reminder env (reminder_id (rem d))
                Email.cancel_patch w) as [ok w1] eqn:U.
    cbn [fst snd]. eapply step_cancel; eauto.
    destruct (invoice_status (inv ir)); try discriminate Hpaid; reflexivity.
  - unfold Email.formatEmailTemplate.
    destruct (template d) as [t|] eqn:Ht;
      [|cbn [fst snd]; eapply step_unrendered; eauto].
    destruct (client ir) as [c|] eqn:Hc;
      [|cbn [fst snd]; eapply step_unrendered; eauto].
    cbn [new_Date].
    match goal with
    | |- context [Email.sendEmail env ?k] =>
        destruct (Email.sendEmail env k) as [res sev] eqn:S
    end.
    destruct (success res) eqn:Hs.
    + match goal with
      | |- context [Supabase.update_reminder env ?i ?p ?w0] =>
          destruct (Supabase.update_reminder env i p w0) as [ok w3] eqn:U
      end.
      cbn [fst snd]. eapply step_sent; eauto.
    + cbn [fst snd]. eapply step_send_failed; eauto.
Qed.

Lemma update_reminder_cases id p w ok w' :
  Supabase.update_reminder env id p w = (ok, w') ->
  ticks w' = ticks w
  /\ same_but_reminders (db w') (db w)
  /\ ((ok = false /\ reminders (db w') = reminders (db w))
      \/ (ok = true /\ store_fails env (UpdateReminder id p) = false
          /\ reminders (db w') = upd id p (reminders (db w)))).
Proof.
  unfold Supabase.update_reminder, same_but_reminders.
  destruct (store_fails env (UpdateReminder id p)); intros H;
    injection H as <- <-; cbn; tauto.
Qed.

Lemma in_app_single {A} (x y : A) l : In x (l ++ [y]) -> In x l \/ x = y.
Proof.
  intros H. apply in_app_or in H. destruct H as [H | [H | []]]; auto.
Qed.

Lemma sendEmail_events content res sev e :
  Email.sendEmail env content = (res, sev) -> In e sev ->
  is_send e = false /\ is_reminder_update e = false.
Proof.
  unfold Email.sendEmail.
  destruct (truthy (SENDGRID_API_KEY env)).
  - destruct (mail_send env _); intros H; injection H as <- <-;
      cbn [In]; intros Hin; intuition (subst; reflexivity).
  - intros H; injection H as <- <-.
    cbn [In]; intros Hin; intuition (subst; reflexivity).
Qed.

(** What one pass through the body may change. *)
Lemma step_frame d w w' evs :
  step env d w w' evs ->
  (ticks w <= ticks w')%nat
  /\ same_but_reminders (db w') (db w)
  /\ (reminders (db w') = reminders (db w)
      \/ exists p, reminders (db w') = upd (due_id d) p (reminders (db w)))
  /\ (forall id p ok, In (EvUpdateReminder id p ok) evs -> id = due_id d).
Proof.
  assert (R : forall a, same_but_reminders a a)
    by (intros a; unfold same_but_reminders; tauto).
  intros H. destruct H.
  - repeat split; auto. intros id p ok [E | []]. discriminate E.
  - apply update_reminder_cases in H1. destruct H1 as (T & S & C).
    repeat split; try apply S; try lia.
    + destruct C as [(_ & C) | (_ & _ & C)]; eauto.
    + intros id p ok' [E | []]. now injection E as <- _ _.
  - repeat split; auto. intros id p ok [E | []]. discriminate E.
  - apply update_reminder_cases in H6. destruct H6 as (T & S & C).
    cbn [tick ticks db] in *.
    repeat split; try apply S; try lia.
    + destruct C as [(_ & C) | (_ & _ & C)]; eauto.
    + intros id p ok' [E | [E | Hin]]; try discriminate E.
      apply in_app_single in Hin. destruct Hin as [Hin | E].
      * apply (sendEmail_events _ _ _ _ H4) in Hin.
        destruct Hin as [_ Hin]. discriminate Hin.
      * now injection E as <- _ _.
  - cbn [tick ticks db]. repeat split; auto.
    intros id p ok' [E | [E | Hin]]; try discriminate E.
    apply in_app_single in Hin. destruct Hin as [Hin | E].
    + apply (sendEmail_events _ _ _ _ H4) in Hin.
      destruct Hin as [_ Hin]. discriminate Hin.
    + discriminate E.
Qed.

Lemma same_but_reminders_trans a b c :
  same_but_reminders a b -> same_but_reminders b c -> same_but_reminders a c.
Proof. unfold same_but_reminders. intuition congruence. Qed.

Lemma process_all_cons d rs w :
  Email.process_all env (d :: rs) w
  = (fst (Email.process_all env rs (fst (Email.process_reminder env d w))),
     (due_id d, snd (Email.process_reminder env d w))
     :: snd (Email.process_all env rs (fst (Email.process_reminder env d w)))).
Proof.
  cbn [Email.process_all].
  destruct (Email.process_reminder env d w) as [w1 evs]. cbn [fst snd].
  destruct (Email.process_all env rs w1) as [w2 j]. reflexivity.
Qed.

(** The loop touches only the rows of the reminders it was given. *)
Lemma process_all_frame rs :
  forall w,
    let w' := fst (Email.process_all env rs w) in
    let j := snd (Email.process_all env rs w) in
    (ticks w <= ticks w')%nat
    /\ same_but_reminders (db w') (db w)
    /\ map fst j = map due_id rs
    /\ (forall id, ~ In id (map due_id rs) ->
                   rows_with id (reminders (db w'))
                   = rows_with id (reminders (db w)))
    /\ (forall i x, nth_error (reminders (db w)) i = Some x ->
                    ~ In (reminder_id x) (map due_id rs) ->
                    nth_error (reminders (db w')) i = Some x)
    /\ (forall id evs id' p ok,
           In (id, evs) j -> In (EvUpdateReminder id' p ok) evs ->
           id' = id /\ In id (map due_id rs)).
Proof.
  induction rs as [|d rs IH]; intros w.
  - cbn. unfold same_but_reminders. repeat split; auto; try tauto.
  - rewrite process_all_cons. cbn [fst snd map].
    pose proof (process_reminder_step d w) as St.
    apply step_frame in St. destruct St as (T1 & S1 & R1 & U1).
    specialize (IH (fst (Email.process_reminder env d w))).
    cbv zeta in IH. destruct IH as (T2 & S2 & M2 & W2 & N2 & U2).
    split; [lia|]. split; [eapply same_but_reminders_trans; eauto|].
    split; [now rewrite M2|].
    split; [|split].
    + intros id Hid.
      assert (Hne : id <> due_id d) by (intros E; apply Hid; now left).
      assert (Hrest : ~ In id (map due_id rs))
        by (intros E; apply Hid; now right).
      assert (E1 : rows_with id (reminders (db (fst (Email.process_reminder env d w))))
                   = rows_with id (reminders (db w))).
      { destruct R1 as [-> | (p & ->)]; [reflexivity|].
        now apply rows_with_upd_other. }
      now rewrite (W2 id Hrest).
    + intros i x Hn Hid. apply N2.
      * destruct R1 as [-> | (p & ->)]; [exact Hn|].
        apply upd_nth_other; [exact Hn|].
        intros E. apply Hid. left. now rewrite E.
      * intros E. apply Hid. now right.
    + intros id evs id' p ok [E | Hin] Hev.
      * injection E as <- <-. split; [now apply (U1 id' p ok) | now left].
      * destruct (U2 id evs id' p ok Hin Hev) as [-> Hid].
        split; [reflexivity | now right].
Qed.

(** Under unique ids, the pass made for a reminder of the batch: it starts
    from a world where the rows of that id are still as the loop found them,
    its effects are the entry of the journal under that id, and no later
    pass touches those rows. *)
Lemma process_all_locate rs :
  forall w d,
    In d rs -> NoDup (map due_id rs) ->
    exists w1 w2 evs,
      step env d w1 w2 evs
      /\ In (due_id d, evs) (snd (Email.process_all env rs w))
      /\ (forall evs', In (due_id d, evs') (snd (Email.process_all env rs w)) ->
                       evs' = evs)
      /\ rows_with (due_id d) (reminders (db w1))
         = rows_with (due_id d) (reminders (db w))
      /\ rows_with (due_id d) (reminders (db (fst (Email.process_all env rs w))))
         = rows_with (due_id d) (reminders (db w2))
      /\ (ticks w <= ticks w1)%nat.
Proof.
  induction rs as [|x rs IH]; intros w d Hin Hnd; [contradiction|].
  cbn [map] in Hnd. inversion Hnd as [|? ? Hnot Hnd']; subst.
  rewrite process_all_cons. cbn [fst snd].
  pose proof (process_reminder_step x w) as St.
  destruct Hin as [-> | Hin].
  - pose proof (process_all_frame rs (fst (Email.process_reminder env d w)))
      as F.
    cbv zeta in F. destruct F as (_ & _ & M & W & _ & _).
    exists w, (fst (Email.process_reminder env d w)),
      (snd (Email.process_reminder env d w)).
    split; [exact St|]. split; [now left|]. split; [|split; [|split]].
    + intros evs' [E | Hj]; [now injection E as <-|].
      exfalso. apply Hnot. rewrite <- M.
      change (due_id d) with (fst (due_id d, evs')). now apply in_map.
    + reflexivity.
    + now apply W.
    + lia.
  - assert (Hne : due_id d <> due_id x).
    { intros E. apply Hnot. rewrite <- E. now apply in_map. }
    destruct (IH (fst (Email.process_reminder env x w)) d Hin Hnd')
      as (w1 & w2 & evs & S & J & U & B & A & T).
    apply step_frame in St. destruct St as (T1 & _ & R1 & _).
    exists w1, w2, evs.
    split; [exact S|]. split; [now right|]. split; [|split; [|split]].
    + intros evs' [E | Hj]; [|now apply U].
      exfalso. apply Hne. now injection E.
    + rewrite B. destruct R1 as [-> | (p & ->)]; [reflexivity|].
      now apply rows_with_upd_other.
    + exact A.
    + lia.
Qed.

(** A run whose query succeeds is the loop over the due rows. *)
Lemma run_unfold w :
  query_ok env w ->
  let run := Email.processScheduledReminders env w in
  let loop := Email.process_all env (due_rows (start_time env w) (db w)) (tick w) in
  Email.final run = fst loop /\ Email.journal run = snd loop
  /\ Email.fetched run = due_rows (start_time env w) (db w)
  /\ Email.ended run = Email.Resolved.
Proof.
  unfold query_ok, start_time. intros Hq.
  unfold Email.processScheduledReminders, Supabase.select_due_reminders.
  cbn [new_Date]. rewrite Hq. unfold due_rows.
  cbn [db]. fold (tick w).
  destruct (map (Supabase.embed (db w))
              (filter (Supabase.is_due (clock env (ticks w)))
                 (reminders (db w)))) as [|d ds] eqn:E.
  - cbn. tauto.
  - destruct (Email.process_all env (d :: ds) (tick w)) as [w1 j] eqn:P.
    cbn. tauto.
Qed.

Lemma due_rows_ids now d :
  map due_id (due_rows now d)
  = map reminder_id (filter (Supabase.is_due now) (reminders d)).
Proof. unfold due_rows. rewrite map_map. reflexivity. Qed.

Lemma due_rows_nodup now d :
  NoDup (map reminder_id (reminders d)) -> NoDup (map due_id (due_rows now d)).
Proof. intros H. rewrite due_rows_ids. now apply NoDup_map_filter. Qed.

Lemma due_rows_in now d r :
  In r (reminders d) -> Supabase.is_due now r = true ->
  In (Supabase.embed d r) (due_rows now d).
Proof.
  intros Hin Hdue. unfold due_rows. apply in_map. apply filter_In. tauto.
Qed.

(** The pass of a run made for a stored reminder that is due. *)
Lemma run_locate w r :
  unique_ids w -> query_ok env w ->
  In r (reminders (db w)) -> Supabase.is_due (start_time env w) r = true ->
  let run := Email.processScheduledReminders env w in
  exists w1 w2 evs,
    step env (Supabase.embed (db w) r) w1 w2 evs
    /\ In (reminder_id r, evs) (Email.journal run)
    /\ (forall evs', In (reminder_id r, evs') (Email.journal run) -> evs' = evs)
    /\ rows_with (reminder_id r) (reminders (db w1)) = [r]
    /\ rows_with (reminder_id r) (reminders (db (Email.final run)))
       = rows_with (reminder_id r) (reminders (db w2))
    /\ (ticks w < ticks w1)%nat.
Proof.
  intros Hnd Hq Hin Hdue run.
  destruct (run_unfold w Hq) as (Hf & Hj & _ & _).
  fold run in Hf, Hj. rewrite Hf, Hj.
  destruct (process_all_locate (due_rows (start_time env w) (db w)) (tick w)
              (Supabase.embed (db w) r)
              (due_rows_in _ _ _ Hin Hdue)
              (due_rows_nodup _ _ Hnd))
    as (w1 & w2 & evs & S & J & U & B & A & T).
  exists w1, w2, evs.
  change (due_id (Supabase.embed (db w) r)) with (reminder_id r) in *.
  cbn [tick db ticks] in *.
  split; [exact S|]. split; [exact J|]. split; [exact U|].
  split; [|split; [exact A | lia]].
  rewrite B. now apply rows_with_unique.
Qed.

Lemma find_reminder_rows d id r :
  rows_with id (reminders d) = [r] -> find_reminder d id = Some r.
Proof.
  intros H. unfold find_reminder. rewrite find_head_filter.
  unfold rows_with in H. now rewrite H.
Qed.

Lemma rows_with_in id rs r : rows_with id rs = [r] -> In r rs.
Proof.
  intros H. assert (Hin : In r (rows_with id rs)) by (rewrite H; now left).
  unfold rows_with in Hin. apply filter_In in Hin. tauto.
Qed.

Lemma embed_invoice d r iv :
  Supabase.find_invoice d (reminder_invoice_id r) = Some iv ->
  invoice (Supabase.embed d r) = Some (Supabase.embed_client d iv).
Proof. intros H. unfold Supabase.embed. cbn [invoice]. now rewrite H. Qed.

Lemma paid_not_not_paid ir :
  invoice_status (inv ir) = InvoiceStatus.paid -> not_paid ir -> False.
Proof. unfold not_paid. intros ->. discriminate. Qed.

Lemma sends_of_delivery content res sev last :
  Email.sendEmail env content = (res, sev) -> is_send last = false ->
  forall u, is_send u = false ->
  sends (u :: EvSendEmail content res :: sev ++ [last]) = 1%nat.
Proof.
  intros S Hl u Hu. unfold sends. cbn [filter]. rewrite Hu. cbn [is_send].
  rewrite filter_app.
  pose proof (sendEmail_no_send content) as N. rewrite S in N. cbn [snd] in N.
  rewrite N. cbn [filter app]. rewrite Hl. reflexivity.
Qed.

(** C1: a due reminder whose invoice is paid ends the run cancelled, with its
    sent_at left as it was (unset for a reminder never sent), and the effects
    recorded for it hold its one update and no call of the email transport.
    The reminder ids are the keys of the table and the store accepts the
    query and the update. *)
Theorem paid_invoice_cancels_reminder :
  forall (w : World) (r : Reminder) (iv : Invoice),
    unique_ids w -> query_ok env w ->
    In r (reminders (db w)) -> Supabase.is_due (start_time env w) r = true ->
    Supabase.find_invoice (db w) (reminder_invoice_id r) = Some iv ->
    invoice_status iv = InvoiceStatus.paid ->
    store_fails env (UpdateReminder (reminder_id r) Email.cancel_patch) = false ->
    let run := Email.processScheduledReminders env w in
    exists r',
      find_reminder (db (Email.final run)) (reminder_id r) = Some r'
      /\ reminder_status r' = ReminderStatus.cancelled
      /\ sent_at r' = sent_at r
      /\ In (reminder_id r,
             [EvUpdateReminder (reminder_id r) Email.cancel_patch true])
            (Email.journal run)
      /\ (forall evs, In (reminder_id r, evs) (Email.journal run) ->
                      sends evs = 0%nat).
Proof.
  intros w r iv Hnd Hq Hin Hdue Hinv Hpaid Hstore run.
  destruct (run_locate w r Hnd Hq Hin Hdue)
    as (w1 & w2 & evs & S & J & U & B & A & T).
  fold run in J, U, A.
  pose proof (embed_invoice _ _ _ Hinv) as Hi.
  inversion S as [ d0 w0 Hn
                 | d0 w0 ir ok w' Hir Hst Hup
                 | d0 w0 ir Hir Hnp _
                 | d0 w0 ir t c content res sev ok w' Hir Hnp
                 | d0 w0 ir t c content res sev Hir Hnp ]; subst;
    rewrite Hi in *; try discriminate;
    try (injection Hir as <-; exfalso;
         apply (paid_not_not_paid (Supabase.embed_client (db w) iv)); assumption).
  change (due_id (Supabase.embed (db w) r)) with (reminder_id r) in *.
  rewrite (update_reminder_accepted _ _ _ Hstore) in Hup.
  injection Hup as <- <-.
  exists (Supabase.apply_patch Email.cancel_patch r).
  split; [|split; [|split; [|split]]]; try reflexivity.
  - apply find_reminder_rows. rewrite A. cbn [db Supabase.set_reminders reminders].
    rewrite rows_with_upd_same, B. reflexivity.
  - exact J.
  - intros evs' Hj. rewrite (U evs' Hj). reflexivity.
Qed.

Lemma send_event_of_delivery content res sev u last c0 res0 :
  Email.sendEmail env content = (res, sev) ->
  is_send u = false -> is_send last = false ->
  In (EvSendEmail c0 res0) (u :: EvSendEmail content res :: sev ++ [last]) ->
  res0 = res.
Proof.
  intros S Hu Hl [E | [E | Hin]].
  - rewrite E in Hu. discriminate Hu.
  - now injection E.
  - apply in_app_single in Hin. destruct Hin as [Hin | E].
    + apply (sendEmail_events _ _ _ _ S) in Hin. destruct Hin as [Hin _].
      discriminate Hin.
    + rewrite <- E in Hl. discriminate Hl.
Qed.

(** The pass of the loop made for a row of the batch: it starts in the
    state the earlier rows have left, on the row as it is stored, its effects
    are the entry of the journal under the id of the row, and no later pass
    touches the row. *)
Lemma process_all_at rs :
  forall w d,
    In d rs -> NoDup (map due_id rs) ->
    let w1 := fst (Email.process_all env (earlier (due_id d) rs) w) in
    let pass := Email.process_reminder env d w1 in
    In (due_id d, snd pass) (snd (Email.process_all env rs w))
    /\ (forall evs', In (due_id d, evs') (snd (Email.process_all env rs w)) ->
                     evs' = snd pass)
    /\ rows_with (due_id d) (reminders (db w1))
       = rows_with (due_id d) (reminders (db w))
    /\ rows_with (due_id d) (reminders (db (fst (Email.process_all env rs w))))
       = rows_with (due_id d) (reminders (db (fst pass)))
    /\ (ticks w <= ticks w1)%nat
    /\ same_but_reminders (db w1) (db w).
Proof.
  induction rs as [|x rs IH]; intros w d Hin Hnd; [contradiction|].
  cbn [map] in Hnd. inversion Hnd as [|? ? Hnot Hnd']; subst.
  rewrite process_all_cons. cbn [fst snd earlier].
  destruct Hin as [-> | Hin].
  - rewrite String.eqb_refl. cbn [Email.process_all fst].
    pose proof (process_all_frame rs (fst (Email.process_reminder env d w)))
      as F.
    cbv zeta in F. destruct F as (_ & _ & M & W & _ & _).
    split; [now left|]. split; [|split; [|split; [|split]]].
    + intros evs' [E | Hj]; [now injection E as <-|].
      exfalso. apply Hnot. rewrite <- M.
      change (due_id d) with (fst (due_id d, evs')). now apply in_map.
    + reflexivity.
    + now apply W.
    + lia.
    + unfold same_but_reminders. tauto.
  - assert (Hne : due_id x <> due_id d).
    { intros E. apply Hnot. rewrite E. now apply in_map. }
    apply String.eqb_neq in Hne. rewrite Hne. rewrite process_all_cons.
    cbn [fst]. apply String.eqb_neq in Hne.
    destruct (IH (fst (Email.process_reminder env x w)) d Hin Hnd')
      as (J & U & B & A & T & Sm).
    pose proof (process_reminder_step x w) as St.
    apply step_frame in St. destruct St as (T1 & S1 & R1 & _).
    split; [now right|]. split; [|split; [|split; [|split]]].
    + intros evs' [E | Hj]; [|now apply U].
      exfalso. apply Hne. now injection E.
    + rewrite B. destruct R1 as [-> | (q & ->)]; [reflexivity|].
      apply rows_with_upd_other. intros E. now apply Hne.
    + exact A.
    + lia.
    + exact (same_but_reminders_trans _ _ _ Sm S1).
Qed.

(** The pass of a run made for a stored reminder that is due. *)
Lemma run_at w r :
  unique_ids w -> query_ok env w ->
  In r (reminders (db w)) -> Supabase.is_due (start_time env w) r = true ->
  let run := Email.processScheduledReminders env w in
  let w1 := pass_start env w (reminder_id r) in
  let pass := Email.process_reminder env (Supabase.embed (db w) r) w1 in
  In (reminder_id r, snd pass) (Email.journal run)
  /\ (forall evs', In (reminder_id r, evs') (Email.journal run) ->
                   evs' = snd pass)
  /\ rows_with (reminder_id r) (reminders (db w1)) = [r]
  /\ rows_with (reminder_id r) (reminders (db (Email.final run)))
     = rows_with (reminder_id r) (reminders (db (fst pass)))
  /\ (ticks w < ticks w1)%nat
  /\ same_but_reminders (db w1) (db w).
Proof.
  intros Hnd Hq Hin Hdue run w1 pass.
  destruct (run_unfold w Hq) as (Hf & Hj & _ & _).
  fold run in Hf, Hj. rewrite Hf, Hj.
  destruct (process_all_at (due_rows (start_time env w) (db w)) (tick w)
              (Supabase.embed (db w) r)
              (due_rows_in _ _ _ Hin Hdue)
              (due_rows_nodup _ _ Hnd))
    as (J & U & B & A & T & Sm).
  change (due_id (Supabase.embed (db w) r)) with (reminder_id r) in *.
  fold (pass_start env w (reminder_id r)) in J, U, B, A, T, Sm.
  fold w1 in J, U, B, A, T, Sm. fold pass in J, U, A.
  cbn [tick db ticks] in *.
  split; [exact J|]. split; [exact U|].
  split; [|split; [exact A | split; [lia | exact Sm]]].
  rewrite B. now apply rows_with_unique.
Qed.

(** The pass for a reminder whose invoice is not paid and whose template and
    client are there: the clock is read for the renderer, the user is looked
    up, the email is handed to the transport; on a success the clock is read
    again for the stamp and the update is issued, on a failure the error is
    logged. *)
Lemma pass_of_deliverable w w1 r iv t cl :
  Supabase.find_invoice (db w) (reminder_invoice_id r) = Some iv ->
  invoice_status iv <> InvoiceStatus.paid ->
  Supabase.find_template (db w) (reminder_template_id r) = Some t ->
  Supabase.find_client (db w) (invoice_client_id iv) = Some cl ->
  users (db w1) = users (db w) ->
  let c := reminder_email env (db w) t iv cl (clock env (ticks w1)) in
  let res := fst (Email.sendEmail env c) in
  let called :=
    EvSelectUser (invoice_user_id iv) :: EvSendEmail c res
      :: snd (Email.sendEmail env c) in
  let stamp := clock env (S (ticks w1)) in
  let update :=
    Supabase.update_reminder env (reminder_id r) (Email.sent_patch stamp)
      (tick (tick w1)) in
  Email.process_reminder env (Supabase.embed (db w) r) w1
  = if success res
    then (snd update,
          (called ++ [EvUpdateReminder (reminder_id r)
                        (Email.sent_patch stamp) (fst update)])%list)
    else (tick w1,
          (called ++ [EvConsoleError
                        ("Failed to send reminder " ++ reminder_id r ++ ": ")
                        (error res)])%list).
Proof.
  intros Hiv Hnp Ht Hcl Hu c res called stamp update.
  assert (Hpaid : InvoiceStatus.eqb (invoice_status iv) InvoiceStatus.paid
                  = false)
    by (destruct (invoice_status iv); try reflexivity; now contradiction Hnp).
  unfold Email.process_reminder, Supabase.embed.
  cbn [invoice template rem]. rewrite Hiv, Ht. cbn [option_map].
  unfold Supabase.embed_client at 1. cbn [inv]. rewrite Hpaid.
  unfold Email.formatEmailTemplate, Supabase.embed_client.
  cbn [client inv]. rewrite Hcl. cbn [new_Date].
  assert (Hsel : Supabase.select_user env (invoice_user_id iv)
                   (mkWorld (db w1) (S (ticks w1)))
                 = Supabase.select_user env (invoice_user_id iv)
                     (mkWorld (db w) 0)).
  { unfold Supabase.select_user. cbn [db]. now rewrite Hu. }
  rewrite Hsel. fold (reminder_email env (db w) t iv cl (clock env (ticks w1))).
  fold c.
  destruct (Email.sendEmail env c) as [res0 sev] eqn:Hse.
  subst res called. cbn [fst snd].
  destruct (success res0).
  - subst update stamp. unfold tick. cbn [db ticks].
    destruct (Supabase.update_reminder env (reminder_id r) _ _) as [ok w3].
    reflexivity.
  - reflexivity.
Qed.

Lemma sends_of_call c last :
  is_send last = false ->
  forall u, is_send u = false ->
  sends (u :: EvSendEmail c (fst (Email.sendEmail env c))
           :: snd (Email.sendEmail env c) ++ [last]) = 1%nat.
Proof.
  intros Hl u Hu.
  apply (sends_of_delivery c (fst (Email.sendEmail env c))
           (snd (Email.sendEmail env c)) last); auto.
  now destruct (Email.sendEmail env c).
Qed.


(** C3: when the transport call made for a due reminder fails, the row of
    the reminder is left exactly as it was (still pending, sent_at
    untouched), the failure is logged, and a following run started at or
    after this one's time fetches the reminder again.  The failure does not
    stop the loop: every due reminder of the batch, also one that comes
    after the failing one, has its pass made on its stored row, the effects
    of that pass are its entry in the journal and its outcome stands at the
    end of the run; in particular a due reminder whose invoice is paid is
    cancelled.  The reminder ids are the keys of the table and the store
    accepts the query. *)
Theorem failed_delivery_leaves_pending :
  forall (w : World) (r : Reminder) (iv : Invoice) (t : MessageTemplate)
         (cl : Client),
    unique_ids w -> query_ok env w ->
    In r (reminders (db w)) -> Supabase.is_due (start_time env w) r = true ->
    Supabase.find_invoice (db w) (reminder_invoice_id r) = Some iv ->
    invoice_status iv <> InvoiceStatus.paid ->
    Supabase.find_template (db w) (reminder_template_id r) = Some t ->
    Supabase.find_client (db w) (invoice_client_id iv) = Some cl ->
    let run := Email.processScheduledReminders env w in
    let w1 := pass_start env w (reminder_id r) in
    let c := reminder_email env (db w) t iv cl (clock env (ticks w1)) in
    success (fst (Email.sendEmail env c)) = false ->
    let evs :=
      (EvSelectUser (invoice_user_id iv)
       :: EvSendEmail c (fst (Email.sendEmail env c))
       :: snd (Email.sendEmail env c)
       ++ [EvConsoleError
             ("Failed to send reminder " ++ reminder_id r ++ ": ")
             (error (fst (Email.sendEmail env c)))])%list
    in
    find_reminder (db (Email.final run)) (reminder_id r) = Some r
    /\ reminder_status r = ReminderStatus.pending
    /\ (query_ok env (Email.final run) ->
        start_time env w <= start_time env (Email.final run) ->
        In (Supabase.embed (db (Email.final run)) r)
           (Email.fetched
              (Email.processScheduledReminders env (Email.final run))))
    /\ In (reminder_id r, evs) (Email.journal run)
    /\ (forall evs', In (reminder_id r, evs') (Email.journal run) ->
                     evs' = evs)
    /\ sends evs = 1%nat
    /\ map fst (Email.journal run)
       = map reminder_id
           (filter (Supabase.is_due (start_time env w)) (reminders (db w)))
    /\ (forall r2,
           In r2 (reminders (db w)) ->
           Supabase.is_due (start_time env w) r2 = true ->
           let w2 := pass_start env w (reminder_id r2) in
           let pass :=
             Email.process_reminder env (Supabase.embed (db w) r2) w2 in
           rows_with (reminder_id r2) (reminders (db w2)) = [r2]
           /\ In (reminder_id r2, snd pass) (Email.journal run)
           /\ rows_with (reminder_id r2) (reminders (db (Email.final run)))
              = rows_with (reminder_id r2) (reminders (db (fst pass))))
    /\ (forall r2 iv2,
           In r2 (reminders (db w)) ->
           Supabase.is_due (start_time env w) r2 = true ->
           Supabase.find_invoice (db w) (reminder_invoice_id r2) = Some iv2 ->
           invoice_status iv2 = InvoiceStatus.paid ->
           store_fails env
             (UpdateReminder (reminder_id r2) Email.cancel_patch) = false ->
           find_reminder (db (Email.final run)) (reminder_id r2)
           = Some (Supabase.apply_patch Email.cancel_patch r2)
           /\ In (reminder_id r2,
                  [EvUpdateReminder (reminder_id r2) Email.cancel_patch true])
                 (Email.journal run)).
Proof.
  intros w r iv t cl Hnd Hq Hin Hdue Hiv Hnp Ht Hcl run w1 c Hfail evs.
  destruct (run_at w r Hnd Hq Hin Hdue) as (J & U & B & A & T & Sm).
  fold run in J, U, A. fold w1 in J, U, B, A, T, Sm.
  assert (Hu : users (db w1) = users (db w)) by apply Sm.
  pose proof (pass_of_deliverable w w1 r iv t cl Hiv Hnp Ht Hcl Hu) as P.
  cbv zeta in P. fold c in P. rewrite Hfail in P. fold evs in P.
  rewrite P in J, U, A. cbn [fst snd tick db] in J, U, A.
  rewrite B in A.
  assert (Hpending : reminder_status r = ReminderStatus.pending).
  { unfold Supabase.is_due in Hdue. apply andb_prop in Hdue.
    destruct Hdue as [Hs _]. destruct (reminder_status r);
      try discriminate Hs; reflexivity. }
  assert (Hjournal : map fst (Email.journal run)
                     = map reminder_id
                         (filter (Supabase.is_due (start_time env w))
                            (reminders (db w)))).
  { destruct (run_unfold w Hq) as (_ & Hj & _ & _). fold run in Hj.
    rewrite Hj.
    pose proof (process_all_frame (due_rows (start_time env w) (db w)) (tick w))
      as F. cbv zeta in F. destruct F as (_ & _ & M & _).
    rewrite M. apply due_rows_ids. }
  split; [now apply find_reminder_rows|]. split; [exact Hpending|].
  split; [|split; [exact J|split; [exact U|split; [|split;
    [exact Hjournal|split]]]]].
  - intros Hq' Hlater.
    destruct (run_unfold (Email.final run) Hq') as (_ & _ & Hf & _).
    rewrite Hf. apply due_rows_in.
    + now apply (rows_with_in (reminder_id r)).
    + unfold Supabase.is_due in *. apply andb_prop in Hdue.
      destruct Hdue as [Hs' Hd]. rewrite Hs'. cbn [andb].
      apply Z.leb_le in Hd. apply Z.leb_le. lia.
  - subst evs. now apply sends_of_call.
  - intros r2 Hin2 Hdue2 w2 pass.
    destruct (run_at w r2 Hnd Hq Hin2 Hdue2) as (J2 & _ & B2 & A2 & _ & _).
    fold run in J2, A2. fold w2 in J2, B2, A2. fold pass in J2, A2.
    split; [exact B2|]. split; [exact J2 | exact A2].
  - intros r2 iv2 Hin2 Hdue2 Hiv2 Hpaid2 Hstore2.
    destruct (run_at w r2 Hnd Hq Hin2 Hdue2) as (J2 & _ & B2 & A2 & _ & _).
    fold run in J2, A2.
    assert (P2 : Email.process_reminder env (Supabase.embed (db w) r2)
                   (pass_start env w (reminder_id r2))
                 = (mkWorld
                      (Supabase.set_reminders
                         (db (pass_start env w (reminder_id r2)))
                         (upd (reminder_id r2) Email.cancel_patch
                            (reminders
                               (db (pass_start env w (reminder_id r2))))))
                      (ticks (pass_start env w (reminder_id r2))),
                    [EvUpdateReminder (reminder_id r2) Email.cancel_patch
                       true])).
    { unfold Email.process_reminder.
      rewrite (embed_invoice _ _ _ Hiv2).
      unfold Supabase.embed_client at 1. cbn [inv]. rewrite Hpaid2.
      cbn [InvoiceStatus.eqb].
      change (reminder_id (rem (Supabase.embed (db w) r2)))
        with (reminder_id r2).
      now rewrite (update_reminder_accepted _ _ _ Hstore2). }
    rewrite P2 in J2, A2. cbn [fst snd] in J2, A2.
    split; [|exact J2].
    apply find_reminder_rows. rewrite A2.
    cbn [db Supabase.set_reminders reminders].
    rewrite rows_with_upd_same, B2. reflexivity.
Qed.


(** A run whose query fails does nothing, and still resolves. *)
Lemma query_failure_swallowed w :
  store_fails env (SelectDueReminders (start_time env w)) = true ->
  let run := Email.processScheduledReminders env w in
  db (Email.final run) = db w /\ Email.journal run = []
  /\ Email.fetched run = [] /\ Email.ended run = Email.Resolved.
Proof.
  unfold start_time. intros Hq.
  unfold Email.processScheduledReminders, Supabase.select_due_reminders.
  cbn [new_Date]. rewrite Hq. cbn. tauto.
Qed.


(** C9: the rows a run fetches are stored reminders that are pending and
    scheduled up to its time; every reminder update it issues names the id
    of such a row; and, the ids being the keys of the table, every row that
    is not pending or is scheduled later is in the table after the run as it
    was before, at its place. *)
Theorem only_due_reminders_touched :
  forall w : World,
    unique_ids w ->
    let run := Email.processScheduledReminders env w in
    (forall d, In d (Email.fetched run) ->
               In (rem d) (reminders (db w))
               /\ Supabase.is_due (start_time env w) (rem d) = true)
    /\ (forall id evs id' p ok,
           In (id, evs) (Email.journal run) ->
           In (EvUpdateReminder id' p ok) evs ->
           exists r, In r (reminders (db w)) /\ reminder_id r = id'
                     /\ Supabase.is_due (start_time env w) r = true)
    /\ (forall i x,
           nth_error (reminders (db w)) i = Some x ->
           Supabase.is_due (start_time env w) x = false ->
           nth_error (reminders (db (Email.final run))) i = Some x).
Proof.
  intros w Hnd run.
  destruct (store_fails env (SelectDueReminders (start_time env w))) eqn:Hq.
  - destruct (query_failure_swallowed w Hq) as (Hdb & Hj & Hf & _).
    fold run in Hdb, Hj, Hf. rewrite Hdb, Hj, Hf.
    split; [intros d []|]. split; [intros id evs id' p ok []|].
    intros i x Hn _. exact Hn.
  - destruct (run_unfold w Hq) as (Hf & Hj & Hfe & _).
    fold run in Hf, Hj, Hfe. rewrite Hf, Hj, Hfe.
    pose proof (process_all_frame (due_rows (start_time env w) (db w)) (tick w))
      as F. cbv zeta in F. destruct F as (_ & _ & M & _ & N & Up).
    rewrite due_rows_ids in *.
    assert (Hids : forall id,
               In id (map reminder_id
                        (filter (Supabase.is_due (start_time env w))
                           (reminders (db w)))) ->
               exists r, In r (reminders (db w)) /\ reminder_id r = id
                         /\ Supabase.is_due (start_time env w) r = true).
    { intros id Hid. apply in_map_iff in Hid. destruct Hid as (r & E & Hr).
      apply filter_In in Hr. exists r. tauto. }
    split; [|split].
    + intros d Hd. unfold due_rows in Hd. apply in_map_iff in Hd.
      destruct Hd as (r & <- & Hr). apply filter_In in Hr. exact Hr.
    + intros id evs id' p ok Hin Hev.
      destruct (Up id evs id' p ok Hin Hev) as [-> Hid]. now apply Hids.
    + intros i x Hn Hnot. apply N; [exact Hn|].
      intros Hid. apply Hids in Hid. destruct Hid as (r & Hr & E & Hdue).
      assert (r = x).
      { apply (NoDup_map_inj reminder_id (reminders (db w))); auto.
        now apply nth_error_In with i. }
      subst r. rewrite Hdue in Hnot. discriminate Hnot.
Qed.

End Processor.

Lemma world0_unique_ids : unique_ids world0.
Proof.
  unfold unique_ids. cbn.
  repeat constructor; cbn; intuition discriminate.
Defined.

Lemma paid_invoice_cancels_reminder_witness :
  let run := Email.processScheduledReminders env_ok world0 in
  exists r',
    find_reminder (db (Email.final run)) (reminder_id r_paid) = Some r'
    /\ reminder_status r' = ReminderStatus.cancelled
    /\ sent_at r' = sent_at r_paid
    /\ In (reminder_id r_paid,
           [EvUpdateReminder (reminder_id r_paid) Email.cancel_patch true])
          (Email.journal run)
    /\ (forall evs, In (reminder_id r_paid, evs) (Email.journal run) ->
                    sends evs = 0%nat).
Proof.
  apply (paid_invoice_cancels_reminder env_ok world0 r_paid paid_invoice).
  - exact world0_unique_ids.
  - reflexivity.
  - cbn. tauto.
  - reflexivity.
  - reflexivity.
  - reflexivity.
  - reflexivity.
Defined.



Lemma failed_delivery_leaves_pending_witness :
  let run := Email.processScheduledReminders env_mail_down world0 in
  find_reminder (db (Email.final run)) "r1" = Some r_unpaid
  /\ find_reminder (db (Email.final run)) "r2"
     = Some (Supabase.apply_patch Email.cancel_patch r_paid).
Proof.
  pose proof (failed_delivery_leaves_pending env_mail_down world0 r_unpaid
                scenario_invoice scenario_template scenario_client
                world0_unique_ids eq_refl (or_introl eq_refl) eq_refl
                eq_refl)
    as H.
  cbv zeta in H.
  destruct H as (H1 & _ & _ & _ & _ & _ & _ & _ & H9).
  - discriminate.
  - reflexivity.
  - reflexivity.
  - vm_compute. reflexivity.
  - split; [exact H1|].
    exact (proj1 (H9 r_paid paid_invoice (or_intror (or_introl eq_refl))
                    eq_refl eq_refl eq_refl eq_refl)).
Defined.



Lemma only_due_reminders_touched_witness :
  let run := Email.processScheduledReminders env_ok world0 in
  (forall d, In d (Email.fetched run) ->
             In (rem d) (reminders (db world0))
             /\ Supabase.is_due (start_time env_ok world0) (rem d) = true)
  /\ (forall id evs id' p ok,
         In (id, evs) (Email.journal run) ->
         In (EvUpdateReminder id' p ok) evs ->
         exists r, In r (reminders (db world0)) /\ reminder_id r = id'
                   /\ Supabase.is_due (start_time env_ok world0) r = true)
  /\ (forall i x,
         nth_error (reminders (db world0)) i = Some x ->
         Supabase.is_due (start_time env_ok world0) x = false ->
         nth_error (reminders (db (Email.final run))) i = Some x).
Proof.
  apply (only_due_reminders_touched env_ok world0).
  exact world0_unique_ids.
Defined.

(** ** The trigger *)

Section Trigger.

Variable env : Env.

(** The failure branch of the route is never taken. *)
Lemma POST_never_reports_failure apiKey w :
  forall m, fst (fst (Route.POST env apiKey w)) <> Route.Json_error m 500.
Proof.
  intros m. unfold Route.POST.
  destruct (Route.unauthorized env apiKey); cbn [fst]; [discriminate|].
  assert (E : Email.ended (Email.processScheduledReminders env w)
              = Email.Resolved).
  { unfold Email.processScheduledReminders. cbn [new_Date].
    destruct (Supabase.select_due_reminders env _ _) as [[|d ds]|e];
      try reflexivity.
    destruct (Email.process_all env (d :: ds) _). reflexivity. }
  rewrite E. cbn [fst]. discriminate.
Qed.

(** C4 (code defect): when the query for the due reminders fails, no
    reminder is processed and the store is left as it was, but the error
    goes no further than the log of [processScheduledReminders]: the run
    resolves and the route answers with success. *)
Theorem failed_query_reports_success :
  forall (w : World) (apiKey : option string),
    store_fails env (SelectDueReminders (start_time env w)) = true ->
    Route.unauthorized env apiKey = false ->
    let run := Email.processScheduledReminders env w in
    Email.journal run = [] /\ db (Email.final run) = db w
    /\ Email.ended run = Email.Resolved
    /\ (exists m, Email.console run
                  = [EvConsoleError "Error processing scheduled reminders:" m])
    /\ fst (fst (Route.POST env apiKey w)) = Route.Json_success 200.
Proof.
  intros w apiKey Hq Hauth run.
  destruct (query_failure_swallowed env w Hq) as (Hdb & Hj & _ & He).
  fold run in Hdb, Hj, He.
  split; [exact Hj|]. split; [exact Hdb|]. split; [exact He|]. split.
  - unfold run, Email.processScheduledReminders,
      Supabase.select_due_reminders, start_time in *.
    cbn [new_Date]. rewrite Hq. cbn. eauto.
  - unfold Route.POST. rewrite Hauth. fold run. rewrite He. reflexivity.
Qed.

End Trigger.

Lemma failed_query_reports_success_witness :
  let run := Email.processScheduledReminders env_store_down world0 in
  Email.journal run = [] /\ db (Email.final run) = db world0
  /\ Email.ended run = Email.Resolved
  /\ (exists m, Email.console run
                = [EvConsoleError "Error processing scheduled reminders:" m])
  /\ fst (fst (Route.POST env_store_down None world0)) = Route.Json_success 200.
Proof.
  apply (failed_query_reports_success env_store_down world0 None).
  - reflexivity.
  - reflexivity.
Defined.

(** ** The status reconciler *)

Section Reconciler.

Variable env : Env.

Lemma sent_and_past_reconcilable ir w :
  reconcilable env ir -> fst (sent_and_past env ir w) = true.
Proof.
  intros [Hs Hp]. unfold sent_and_past. unfold row_status in *. rewrite Hs.
  cbn [InvoiceStatus.eqb new_Date fst]. apply Hp.
Qed.

Lemma sent_and_past_sent ir w :
  fst (sent_and_past env ir w) = true -> row_status ir = InvoiceStatus.sent.
Proof.
  unfold sent_and_past.
  destruct (row_status ir) eqn:E; cbn [InvoiceStatus.eqb fst];
    try discriminate; reflexivity.
Qed.

Lemma mark_overdue_cons ir rest w :
  InvoiceList.mark_overdue env (ir :: rest) w
  = ((if fst (sent_and_past env ir w) then with_overdue ir else ir)
     :: fst (InvoiceList.mark_overdue env rest (snd (sent_and_past env ir w))),
     snd (InvoiceList.mark_overdue env rest (snd (sent_and_past env ir w)))).
Proof.
  cbn [InvoiceList.mark_overdue].
  destruct (sent_and_past env ir w) as [hit w1]. cbn [fst snd].
  destruct (InvoiceList.mark_overdue env rest w1). reflexivity.
Qed.

Lemma changed_cons u d us ds :
  InvoiceList.changed (u :: us) (d :: ds)
  = if negb (InvoiceStatus.eqb (row_status u) (row_status d))
    then u :: InvoiceList.changed us ds
    else InvoiceList.changed us ds.
Proof.
  unfold InvoiceList.changed. cbn [combine filter fst snd].
  destruct (negb _); reflexivity.
Qed.

(** The override of the rows read, and the rows picked for an update. *)
Lemma mark_overdue_spec data :
  forall w,
    let updated := fst (InvoiceList.mark_overdue env data w) in
    List.length updated = List.length data
    /\ (forall i ir, nth_error data i = Some ir -> reconcilable env ir ->
                     nth_error updated i = Some (with_overdue ir))
    /\ (forall ir, In ir data -> reconcilable env ir ->
                   In (row_id ir)
                      (map row_id (InvoiceList.changed updated data)))
    /\ (forall id,
           (count_occ string_dec (map row_id (InvoiceList.changed updated data)) id
            <= count_occ string_dec (map row_id data) id)%nat).
Proof.
  induction data as [|d data IH]; intros w.
  - cbn [InvoiceList.mark_overdue fst]. split; [reflexivity|].
    split; [intros [|i] ir H; discriminate H|].
    split; [intros ir []|]. intros id. reflexivity.
  - rewrite mark_overdue_cons. cbn [fst].
    specialize (IH (snd (sent_and_past env d w))). cbv zeta in IH.
    destruct IH as (L & N & I & C).
    rewrite changed_cons.
    destruct (fst (sent_and_past env d w)) eqn:Hit.
    + pose proof (sent_and_past_sent d w Hit) as Hs.
      assert (E : negb (InvoiceStatus.eqb (row_status (with_overdue d))
                                          (row_status d)) = true)
        by (rewrite Hs; reflexivity).
      rewrite E. cbn [List.length map].
      split; [now rewrite L|]. split; [|split].
      * intros [|i] ir Hn Hr; cbn [nth_error] in *.
        -- now injection Hn as <-.
        -- now apply N.
      * intros ir [<- | Hin] Hr; [now left|]. right. now apply I.
      * intros id. cbn [count_occ].
        change (row_id (with_overdue d)) with (row_id d).
        specialize (C id). destruct (string_dec (row_id d) id); lia.
    + assert (E : negb (InvoiceStatus.eqb (row_status d) (row_status d))
                  = false)
        by (destruct (row_status d); reflexivity).
      rewrite E. cbn [List.length map].
      split; [now rewrite L|]. split; [|split].
      * intros [|i] ir Hn Hr; cbn [nth_error] in *.
        -- injection Hn as <-.
           rewrite (sent_and_past_reconcilable d w Hr) in Hit. discriminate.
        -- now apply N.
      * intros ir [<- | Hin] Hr; [|now apply I].
        rewrite (sent_and_past_reconcilable d w Hr) in Hit. discriminate.
      * intros id. cbn [count_occ]. specialize (C id).
        destruct (string_dec (row_id d) id); lia.
Qed.

Lemma persist_all_cons ir rest w :
  InvoiceList.persist_all env (ir :: rest) w
  = (fst (InvoiceList.persist_all env rest
            (snd (Supabase.update_invoice_status env (row_id ir)
                    InvoiceStatus.overdue w))),
     EvUpdateInvoice (row_id ir) InvoiceStatus.overdue
       (fst (Supabase.update_invoice_status env (row_id ir)
               InvoiceStatus.overdue w))
     :: snd (InvoiceList.persist_all env rest
               (snd (Supabase.update_invoice_status env (row_id ir)
                       InvoiceStatus.overdue w)))).
Proof.
  cbn [InvoiceList.persist_all]. fold (row_id ir).
  destruct (Supabase.update_invoice_status env (row_id ir)
              InvoiceStatus.overdue w) as [ok w1].
  cbn [fst snd]. destruct (InvoiceList.persist_all env rest w1). reflexivity.
Qed.

(** One request per row picked. *)
Lemma persist_all_updates rows id :
  forall w,
    overdue_updates id (snd (InvoiceList.persist_all env rows w))
    = count_occ string_dec (map row_id rows) id.
Proof.
  induction rows as [|ir rows IH]; intros w; [reflexivity|].
  rewrite persist_all_cons. cbn [snd map count_occ].
  unfold overdue_updates in *. cbn [filter].
  destruct (string_dec (row_id ir) id) as [E | E].
  - apply String.eqb_eq in E. rewrite E. cbn [List.length]. now rewrite IH.
  - apply String.eqb_neq in E. rewrite E. apply IH.
Qed.

Lemma select_invoices_ids userId w data :
  NoDup (map invoice_id (invoices (db w))) ->
  InvoiceList.select_invoices env userId w = Ok data ->
  NoDup (map row_id data).
Proof.
  intros Hnd. unfold InvoiceList.select_invoices.
  destruct (store_fails env (SelectInvoices userId)); [discriminate|].
  intros H. injection H as <-. rewrite map_map.
  change (fun x => row_id (Supabase.embed_client (db w) x)) with invoice_id.
  now apply NoDup_map_filter.
Qed.

Lemma list_queryFn_unfold userId w data :
  InvoiceList.select_invoices env userId w = Ok data ->
  let marked := InvoiceList.mark_overdue env data (tick w) in
  InvoiceList.queryFn env userId w
  = (Ok (fst marked),
     fst (InvoiceList.persist_all env
            (InvoiceList.changed (fst marked) data) (snd marked)),
     snd (InvoiceList.persist_all env
            (InvoiceList.changed (fst marked) data) (snd marked))).
Proof.
  intros Hsel. unfold InvoiceList.queryFn. rewrite Hsel. cbn [new_Date].
  fold (tick w).
  destruct (InvoiceList.mark_overdue env data (tick w)) as [updated w1].
  cbn [fst snd].
  destruct (InvoiceList.changed updated data) as [|c cs] eqn:E; [reflexivity|].
  destruct (InvoiceList.persist_all env (c :: cs) w1). reflexivity.
Qed.

(** C5 (amended): for an invoice read with status sent and a due date in the
    past, both reads request exactly one update of the invoice to overdue
    and neither fails when the store refuses it.  The list read returns the
    invoice with status overdue whether or not the update was accepted; the
    single-invoice read returns it with status overdue when the update was
    accepted, and with the stored status sent when it was refused. *)
Theorem reconciler_override_and_single_update :
  (forall (userId : string) (w : World) (data : list InvoiceRow),
      NoDup (map invoice_id (invoices (db w))) ->
      InvoiceList.select_invoices env userId w = Ok data ->
      exists updated,
        fst (fst (InvoiceList.queryFn env userId w)) = Ok updated
        /\ List.length updated = List.length data
        /\ forall i ir,
            nth_error data i = Some ir -> reconcilable env ir ->
            nth_error updated i = Some (with_overdue ir)
            /\ row_status (with_overdue ir) = InvoiceStatus.overdue
            /\ overdue_updates (row_id ir)
                 (snd (InvoiceList.queryFn env userId w)) = 1%nat)
  /\ (forall (invoiceId userId : string) (w : World) (data : InvoiceRow),
         InvoiceDetail.select_invoice env invoiceId userId w = Ok data ->
         reconcilable env data ->
         let accepted :=
           negb (store_fails env
                   (UpdateInvoiceStatus invoiceId InvoiceStatus.overdue)) in
         fst (fst (InvoiceDetail.queryFn env invoiceId userId w))
         = Ok (if accepted then with_overdue data else data)
         /\ snd (InvoiceDetail.queryFn env invoiceId userId w)
            = [EvUpdateInvoice invoiceId InvoiceStatus.overdue accepted]).
Proof.
  split.
  - intros userId w data Hnd Hsel.
    rewrite (list_queryFn_unfold userId w data Hsel). cbn [fst snd].
    pose proof (mark_overdue_spec data (tick w)) as M. cbv zeta in M.
    destruct M as (L & N & I & C).
    eexists. split; [reflexivity|]. split; [exact L|].
    intros i ir Hn Hr. split; [now apply N|]. split; [reflexivity|].
    rewrite persist_all_updates.
    pose proof (select_invoices_ids userId w data Hnd Hsel) as Hids.
    assert (Hin : In ir data) by (now apply nth_error_In with i).
    pose proof (I ir Hin Hr) as Hpicked.
    apply (count_occ_In string_dec) in Hpicked.
    pose proof (proj1 (NoDup_count_occ string_dec (map row_id data)) Hids
                  (row_id ir)) as Hone.
    specialize (C (row_id ir)). lia.
  - intros invoiceId userId w data Hsel Hr accepted.
    unfold InvoiceDetail.queryFn. rewrite Hsel.
    pose proof (sent_and_past_reconcilable data w Hr) as Hit.
    destruct (sent_and_past env data w) as [hit w1]. cbn [fst] in Hit.
    subst hit. unfold Supabase.update_invoice_status. subst accepted.
    destruct (store_fails env
                (UpdateInvoiceStatus invoiceId InvoiceStatus.overdue));
      cbn; split; reflexivity.
Qed.

End Reconciler.

(** C5 (as stated, fails): when the store refuses the update, the
    single-invoice read returns the invoice, sent and past due, with its
    stored status. *)
Lemma detail_read_keeps_sent_when_update_fails :
  exists data w',
    InvoiceDetail.queryFn env_writes_refused "i1" "u1" world0
    = (Ok data, w', [EvUpdateInvoice "i1" InvoiceStatus.overdue false])
    /\ row_status data = InvoiceStatus.sent
    /\ reconcilable env_writes_refused scenario_row.
Proof.
  eexists. eexists. split; [vm_compute; reflexivity|].
  split; [reflexivity|]. split; [reflexivity|].
  intros k. unfold env_writes_refused, ticking, jan_10_2025. cbn [clock tz].
  change (JsDate.parseISO 0 (due_date (inv scenario_row)))
    with (Some 1735689600000).
  cbn [JsDate.isPast]. apply Z.ltb_lt. lia.
Qed.

Lemma scenario_row_reconcilable e :
  clock e = ticking -> tz e = 0 -> reconcilable e scenario_row.
Proof.
  intros Hc Hz. split; [reflexivity|].
  intros k. rewrite Hc, Hz. unfold ticking, jan_10_2025.
  change (JsDate.parseISO 0 (due_date (inv scenario_row)))
    with (Some 1735689600000).
  cbn [JsDate.isPast]. apply Z.ltb_lt. lia.
Defined.

Lemma reconciler_override_and_single_update_witness :
  (exists updated,
      fst (fst (InvoiceList.queryFn env_writes_refused "u1" world0))
      = Ok updated
      /\ nth_error updated 0 = Some (with_overdue scenario_row)
      /\ overdue_updates "i1"
           (snd (InvoiceList.queryFn env_writes_refused "u1" world0)) = 1%nat)
  /\ fst (fst (InvoiceDetail.queryFn env_ok "i1" "u1" world0))
     = Ok (with_overdue scenario_row).
Proof.
  split.
  - destruct (proj1 (reconciler_override_and_single_update env_writes_refused)
                "u1" world0
                [scenario_row; mkInvoiceRow paid_invoice (Some scenario_client)])
      as (updated & Hu & _ & Hrows).
    + cbn. repeat constructor; cbn; intuition discriminate.
    + reflexivity.
    + exists updated. split; [exact Hu|].
      destruct (Hrows 0%nat scenario_row eq_refl
                  (scenario_row_reconcilable env_writes_refused
                     eq_refl eq_refl))
        as (H1 & _ & H3).
      split; [exact H1 | exact H3].
  - apply (proj2 (reconciler_override_and_single_update env_ok)
             "i1" "u1" world0 scenario_row eq_refl
             (scenario_row_reconcilable env_ok eq_refl eq_refl)).
Defined.

(** * Further properties of the code *)

(** ** The renderer on every input *)

Section RendererMore.

Import JsDate.

Ltac walk :=
  cbn [append Js.replace_from Js.starts_with Js.drop Ascii.eqb Bool.eqb andb
         String.length Nat.sub].

(** A placeholder that is not the one at hand leaves the text alone. *)
Ltac skip_step :=
  match goal with
  | |- context [Js.replace_all ?K ?R (?P ++ ?T ++ ?Q)%string] =>
      let H := fresh "Hskip" in
      assert (H : Js.replace_all K R (P ++ T ++ Q) = (P ++ T ++ Q)%string)
        by (unfold Js.replace_all;
            rewrite replace_from_app_avoids by assumption;
            f_equal; walk;
            rewrite replace_from_avoids by assumption; reflexivity);
      rewrite H; clear H
  end.

(** The placeholder at hand is replaced by the expansion of its value. *)
Ltac hit_step :=
  match goal with
  | |- context [Js.replace_all ?K ?R (?P ++ ?K ++ ?Q)%string] =>
      let H := fresh "Hhit" in
      assert (H : Js.replace_all K R (P ++ K ++ Q)
                  = (P ++ Js.get_substitution K P Q R ++ Q)%string)
        by (unfold Js.replace_all;
            rewrite replace_from_app_avoids by assumption;
            f_equal; walk;
            rewrite replace_from_avoids by assumption; reflexivity);
      rewrite H; clear H
  end.

Lemma get_substitution_app_plain matched before after a r :
  avoids "$" a = true ->
  Js.get_substitution matched before after (a ++ r)
  = (a ++ Js.get_substitution matched before after r)%string.
Proof.
  induction a as [|x a IH]; intros H; [reflexivity|].
  cbn [avoids] in H. apply andb_prop in H. destruct H as [Hx Ha].
  apply negb_true_iff in Hx.
  change (String x a ++ r)%string with (String x (a ++ r)%string).
  cbn [Js.get_substitution]. rewrite Hx. cbn [append]. now rewrite IH.
Qed.

Lemma substitute_parts reps t :
  fst (Email.substitute reps (template_subject t, template_body t))
  = substitute1 reps (template_subject t)
  /\ snd (Email.substitute reps (template_subject t, template_body t))
     = substitute1 reps (template_body t).
Proof. rewrite substitute_split. split; reflexivity. Qed.

(** X1: a subject without opening brace is sent as it is, and a body
    without opening brace is sent with its line breaks turned into markup
    and nothing else changed, whatever the invoice, the client, the time and
    the time zone. *)
Theorem text_without_placeholder_passes_through :
  forall (tzone today : Z) (t : MessageTemplate) (i : Invoice) (c : Client),
    (avoids "{" (template_subject t) = true ->
     Email.f_subject (Email.format_email tzone today t i c)
     = template_subject t)
    /\ (avoids "{" (template_body t) = true ->
        Email.f_body (Email.format_email tzone today t i c)
        = Js.replace_all Js.newline "<br />" (template_body t)).
Proof.
  intros tzone today t i c. unfold Email.format_email.
  destruct (substitute_parts (Email.replacements tzone today i c) t)
    as [Hs Hb].
  cbn [Email.f_subject Email.f_body]. rewrite Hs, Hb.
  unfold Email.replacements, substitute1. cbn [fold_left fst snd].
  split; intros H; now rewrite !(replace_all_avoids _ _ _ H).
Qed.

Lemma text_without_placeholder_passes_through_witness :
  Email.f_subject
    (Email.format_email 0 jan_10_2025
       (mkTemplate "t3" "plain" "Payment reminder" "Thank you." 1)
       scenario_invoice scenario_client)
  = "Payment reminder".
Proof.
  apply (proj1 (text_without_placeholder_passes_through 0 jan_10_2025
                  (mkTemplate "t3" "plain" "Payment reminder" "Thank you." 1)
                  scenario_invoice scenario_client)).
  reflexivity.
Defined.

Lemma replace_newline_avoids s :
  forall before,
    avoids line_feed
      (Js.replace_from Js.newline "<br />" O before s) = true.
Proof.
  induction s as [|c s IH]; intros before; [reflexivity|].
  unfold Js.newline in *. cbn [Js.replace_from Js.starts_with String.length
                                 Nat.sub].
  fold line_feed.
  destruct (Ascii.eqb line_feed c) eqn:E; cbn [andb].
  - cbn [Js.get_substitution Ascii.eqb Bool.eqb append avoids negb andb].
    apply IH.
  - cbn [avoids]. rewrite Ascii.eqb_sym, E. cbn [negb andb]. apply IH.
Qed.

(** X2: the body handed to the transport never holds a line feed: every one
    of the template, and every one brought in by a value, has become the
    line-break markup. *)
Theorem rendered_body_has_no_line_feed :
  forall (tzone today : Z) (t : MessageTemplate) (i : Invoice) (c : Client),
    avoids line_feed (Email.f_body (Email.format_email tzone today t i c))
    = true.
Proof.
  intros. unfold Email.format_email. cbn [Email.f_body].
  unfold Js.replace_all. apply replace_newline_avoids.
Qed.

(** X3: the reserved placeholders [{user_name}] and [{company_name}] are
    taken out of the text: plain text around one of them renders as that
    text alone. *)
Theorem reserved_placeholders_render_empty :
  forall (tzone today : Z) (t : MessageTemplate) (i : Invoice) (c : Client)
         (pre post : string),
    avoids "{" pre = true -> avoids "{" post = true ->
    (template_subject t = (pre ++ "{user_name}" ++ post)%string ->
     Email.f_subject (Email.format_email tzone today t i c)
     = (pre ++ post)%string)
    /\ (template_subject t = (pre ++ "{company_name}" ++ post)%string ->
        Email.f_subject (Email.format_email tzone today t i c)
        = (pre ++ post)%string).
Proof.
  intros tzone today t i c pre post Hpre Hpost.
  assert (Hfree : avoids "{" (pre ++ post) = true)
    by (now rewrite avoids_app, Hpre, Hpost).
  unfold Email.format_email.
  destruct (substitute_parts (Email.replacements tzone today i c) t)
    as [Hs _].
  cbn [Email.f_subject]. rewrite Hs.
  unfold Email.replacements, substitute1. cbn [fold_left fst snd].
  split; intros ->.
  - do 5 skip_step. hit_step. cbn [Js.get_substitution append].
    now rewrite (replace_all_avoids _ _ _ Hfree).
  - do 6 skip_step. hit_step. cbn [Js.get_substitution append].
    reflexivity.
Qed.

Lemma reserved_placeholders_render_empty_witness :
  Email.f_subject
    (Email.format_email 0 jan_10_2025
       (mkTemplate "t4" "signed" "Regards, {user_name}." "Thank you." 1)
       scenario_invoice scenario_client)
  = "Regards, .".
Proof.
  apply (proj1 (reserved_placeholders_render_empty 0 jan_10_2025
                  (mkTemplate "t4" "signed" "Regards, {user_name}."
                     "Thank you." 1)
                  scenario_invoice scenario_client "Regards, " "."
                  eq_refl eq_refl)).
  reflexivity.
Defined.

(** X4: the client name is read as a replacement pattern, not as plain
    text.  A name without dollar sign or opening brace is put in place of
    [{client_name}] as it is; in a name holding [$&] that part becomes the
    placeholder itself, and a doubled dollar sign comes out single. *)
Theorem client_name_is_a_replacement_pattern :
  forall (tzone today : Z) (t : MessageTemplate) (i : Invoice) (c : Client)
         (pre post a b : string),
    template_subject t = (pre ++ "{client_name}" ++ post)%string ->
    avoids "{" pre = true -> avoids "{" post = true ->
    avoids "$" a = true -> avoids "{" a = true ->
    avoids "$" b = true -> avoids "{" b = true ->
    (client_name c = a ->
     Email.f_subject (Email.format_email tzone today t i c)
     = (pre ++ a ++ post)%string)
    /\ (client_name c = (a ++ "$&" ++ b)%string ->
        Email.f_subject (Email.format_email tzone today t i c)
        = (pre ++ a ++ "{client_name}" ++ b ++ post)%string)
    /\ (client_name c = (a ++ "$$" ++ b)%string ->
        Email.f_subject (Email.format_email tzone today t i c)
        = (pre ++ a ++ "$" ++ b ++ post)%string).
Proof.
  intros tzone today t i c pre post a b Hsubj Hpre Hpost Ha Ha' Hb Hb'.
  unfold Email.format_email.
  destruct (substitute_parts (Email.replacements tzone today i c) t)
    as [Hs _].
  cbn [Email.f_subject]. rewrite Hs, Hsubj.
  unfold Email.replacements, substitute1. cbn [fold_left fst snd].
  do 4 skip_step. hit_step.
  split; [|split]; intros ->.
  - rewrite (get_substitution_plain _ _ _ a Ha).
    assert (Hfree : avoids "{" (pre ++ a ++ post) = true)
      by (now rewrite !avoids_app, Hpre, Ha', Hpost).
    now rewrite !(replace_all_avoids _ _ _ Hfree).
  - rewrite get_substitution_app_plain by assumption.
    change ("$&" ++ b)%string with (String "$" (String "&" b)).
    cbn [Js.get_substitution Ascii.eqb Bool.eqb].
    rewrite (get_substitution_plain _ _ _ b Hb).
    assert (Hl : avoids "{" (pre ++ a) = true)
      by (now rewrite avoids_app, Hpre, Ha').
    assert (Hr : avoids "{" (b ++ post) = true)
      by (now rewrite avoids_app, Hb', Hpost).
    replace (pre ++ (a ++ "{client_name}" ++ b) ++ post)%string
      with ((pre ++ a) ++ "{client_name}" ++ (b ++ post))%string
      by (now rewrite !append_assoc_str).
    do 2 skip_step. now rewrite !append_assoc_str.
  - rewrite get_substitution_app_plain by assumption.
    change ("$$" ++ b)%string with (String "$" (String "$" b)).
    cbn [Js.get_substitution Ascii.eqb Bool.eqb].
    rewrite (get_substitution_plain _ _ _ b Hb).
    assert (Hfree : avoids "{" (pre ++ (a ++ String "$" b) ++ post) = true).
    { rewrite !avoids_app. cbn [avoids Ascii.eqb Bool.eqb negb andb].
      now rewrite Hpre, Ha', Hb', Hpost. }
    rewrite !(replace_all_avoids _ _ _ Hfree).
    now rewrite !append_assoc_str.
Qed.

Lemma client_name_is_a_replacement_pattern_witness :
  Email.f_subject
    (Email.format_email 0 jan_10_2025
       (mkTemplate "t5" "hello" "Dear {client_name}," "Thank you." 1)
       scenario_invoice (mkClient "c2" "u1" "Cash$$Carry" "pay@cc.test"))
  = "Dear Cash$Carry,".
Proof.
  apply (proj2 (proj2
           (client_name_is_a_replacement_pattern 0 jan_10_2025
              (mkTemplate "t5" "hello" "Dear {client_name}," "Thank you." 1)
              scenario_invoice (mkClient "c2" "u1" "Cash$$Carry" "pay@cc.test")
              "Dear " "," "Cash" "Carry"
              eq_refl eq_refl eq_refl eq_refl eq_refl eq_refl eq_refl))).
  reflexivity.
Defined.

Ltac fix_month_table :=
  repeat match goal with
         | |- context [days_before_month ?l ?k] =>
             let v := eval vm_compute in (days_before_month l k) in
             change (days_before_month l k) with v
         end.

Ltac decide_tests :=
  repeat match goal with
         | |- context [?a <? ?b] => destruct (Z.ltb_spec a b); try lia
         end.

(** The month and the day of the month of a day number built from a date
    are those of the date. *)
Lemma MonthFromDay_MakeDay y m d :
  1 <= m <= 12 -> 1 <= d <= days_in_month y m ->
  MonthFromDay (MakeDay y m d) = m.
Proof.
  intros Hm Hd. unfold MonthFromDay.
  rewrite (YearFromDay_MakeDay y m d Hm Hd). cbv zeta.
  replace (MakeDay y m d - DayFromYear y)
    with (days_before_month (InLeapYear y) m + d - 1)
    by (unfold MakeDay; lia).
  unfold days_in_month in Hd.
  assert (C : m = 1 \/ m = 2 \/ m = 3 \/ m = 4 \/ m = 5 \/ m = 6 \/ m = 7
              \/ m = 8 \/ m = 9 \/ m = 10 \/ m = 11 \/ m = 12) by lia.
  destruct (InLeapYear y);
    repeat (destruct C as [C | C];
            [subst m; cbv [Z.eqb Pos.eqb orb] in Hd; fix_month_table;
             decide_tests; reflexivity|]);
    subst m; cbv [Z.eqb Pos.eqb orb] in Hd; fix_month_table;
    decide_tests; reflexivity.
Qed.

Lemma DateFromDay_MakeDay y m d :
  1 <= m <= 12 -> 1 <= d <= days_in_month y m ->
  DateFromDay (MakeDay y m d) = d.
Proof.
  intros Hm Hd. unfold DateFromDay.
  rewrite (MonthFromDay_MakeDay y m d Hm Hd),
    (YearFromDay_MakeDay y m d Hm Hd).
  cbv zeta. unfold MakeDay. lia.
Qed.

Lemma local_day_of_local_midnight tzone c :
  local_day tzone (utc_midnight c - tzone * 60000)
  = MakeDay (year c) (month c) (day c).
Proof.
  unfold local_day, utc_midnight, msPerDay.
  replace (MakeDay (year c) (month c) (day c) * 86400000 - tzone * 60000
           + tzone * 60000)
    with (MakeDay (year c) (month c) (day c) * 86400000) by lia.
  apply Z.div_mul. lia.
Qed.

Lemma local_day_east tzone c :
  0 <= tzone < 1440 ->
  local_day tzone (utc_midnight c) = MakeDay (year c) (month c) (day c).
Proof.
  intros H. unfold local_day, utc_midnight, msPerDay.
  Z.div_mod_to_equations. lia.
Qed.

Lemma local_day_west tzone c :
  -1440 <= tzone < 0 ->
  local_day tzone (utc_midnight c)
  = MakeDay (year c) (month c) (day c) - 1.
Proof.
  intros H. unfold local_day, utc_midnight, msPerDay.
  Z.div_mod_to_equations. lia.
Qed.

Lemma era_year_common y : 1 <= y -> era_year y = y.
Proof.
  intros H. unfold era_year. destruct (Z.ltb_spec 0 y); [reflexivity | lia].
Qed.

Lemma avoids_month_name x m :
  In x ["$"; "{"]%char -> avoids x (month_name m) = true.
Proof.
  intros [<- | [<- | []]]; unfold month_name;
    repeat (destruct (_ =? _); [reflexivity|]); reflexivity.
Qed.

Lemma avoids_date_text x d :
  In x ["$"; "{"]%char -> avoids x (date_text d) = true.
Proof.
  intros Hx. unfold date_text.
  assert (Hd : not_digit x)
    by (destruct Hx as [<- | [<- | []]];
        [apply not_digit_dollar | apply not_digit_brace]).
  rewrite !avoids_app, (avoids_month_name x _ Hx),
    !(avoids_string_of_Z x Hd).
  destruct Hx as [<- | [<- | []]]; reflexivity.
Qed.

(** The long text of a time value whose local day is that of a date. *)
Lemma long_text_of_local_day tzone t c :
  1 <= month c <= 12 -> 1 <= day c <= days_in_month (year c) (month c) ->
  1 <= year c ->
  local_day tzone t = MakeDay (year c) (month c) (day c) ->
  toLocaleDateString_long tzone (Some t) = date_text c.
Proof.
  intros Hm Hd Hy Hl.
  unfold toLocaleDateString_long, getMonth1, getDate, getFullYear, date_text.
  rewrite Hl, (MonthFromDay_MakeDay _ _ _ Hm Hd),
    (DateFromDay_MakeDay _ _ _ Hm Hd), (YearFromDay_MakeDay _ _ _ Hm Hd),
    (era_year_common _ Hy).
  reflexivity.
Qed.

(** X5: the preview shows the due date as it is written, in every time
    zone: for a due date yyyy-MM-dd with a year from 1000 on, plain text
    around [{due_date}] renders with the month name, the day and the year of
    that date. *)
Theorem preview_shows_due_date_as_written :
  forall (tzone today : Z) (t : MessageTemplate) (ir : InvoiceRow)
         (c : Client) (d : civil) (pre post : string),
    client ir = Some c ->
    parse_date_only (due_date (inv ir)) = Some d ->
    1000 <= year d ->
    template_subject t = (pre ++ "{due_date}" ++ post)%string ->
    avoids "{" pre = true -> avoids "{" post = true ->
    exists p,
      Scheduler.getFormattedPreview tzone today (Some ir) t = Ok p
      /\ template_subject p = (pre ++ date_text d ++ post)%string.
Proof.
  intros tzone today t ir c d pre post Hc Hparse Hyear Hsubj Hpre Hpost.
  destruct (parse_date_only_valid _ _ Hparse) as (_ & Hm & Hd).
  assert (Hfmt : format_MMMM_d_yyyy tzone (parseISO tzone (due_date (inv ir)))
                 = Some (date_text d)).
  { unfold parseISO. rewrite Hparse. cbn [option_map].
    unfold format_MMMM_d_yyyy, getMonth1, getDate, getFullYear, date_text.
    rewrite local_day_of_local_midnight,
      (MonthFromDay_MakeDay _ _ _ Hm Hd), (DateFromDay_MakeDay _ _ _ Hm Hd),
      (YearFromDay_MakeDay _ _ _ Hm Hd),
      (era_year_common (year d) ltac:(lia)),
      (pad_zeros_4_year _ Hyear).
    reflexivity. }
  unfold Scheduler.getFormattedPreview. rewrite Hc, Hfmt.
  eexists. split; [reflexivity|].
  cbn [template_subject]. rewrite substitute_split. cbn [fst].
  rewrite Hsubj. unfold Scheduler.replacements, substitute1.
  cbn [fold_left fst snd].
  do 2 skip_step. hit_step.
  rewrite (get_substitution_plain _ _ _ _
             (avoids_date_text "$" d ltac:(cbn; tauto))).
  assert (Hfree : avoids "{" (pre ++ date_text d ++ post) = true).
  { rewrite !avoids_app, Hpre, Hpost,
      (avoids_date_text "{" d ltac:(cbn; tauto)). reflexivity. }
  now rewrite !(replace_all_avoids _ _ _ Hfree).
Qed.

Lemma preview_shows_due_date_as_written_witness :
  exists p,
    Scheduler.getFormattedPreview (-480) jan_10_2025 (Some scenario_row)
      (mkTemplate "t6" "due" "Due on {due_date}." "Thank you." 1) = Ok p
    /\ template_subject p = "Due on January 1, 2025.".
Proof.
  apply (preview_shows_due_date_as_written (-480) jan_10_2025
           (mkTemplate "t6" "due" "Due on {due_date}." "Thank you." 1)
           scenario_row scenario_client (mkCivil 2025 1 1) "Due on " ".").
  - reflexivity.
  - reflexivity.
  - cbn [year]. lia.
  - reflexivity.
  - reflexivity.
  - reflexivity.
Defined.

(** X6: the email shows the due date as it is written when the process
    runs at or east of UTC (by less than a day), and the day before when it
    runs west of UTC: for a due date yyyy-MM-dd of the common era, plain
    text around [{due_date}] renders with that date, respectively (for a day
    of the month from 2 on) with the previous day of the same month. *)
Theorem email_due_date_depends_on_zone :
  forall (tzone today : Z) (t : MessageTemplate) (i : Invoice) (c : Client)
         (d : civil) (pre post : string),
    parse_date_only (due_date i) = Some d ->
    1 <= year d ->
    template_subject t = (pre ++ "{due_date}" ++ post)%string ->
    avoids "{" pre = true -> avoids "{" post = true ->
    (0 <= tzone < 1440 ->
     Email.f_subject (Email.format_email tzone today t i c)
     = (pre ++ date_text d ++ post)%string)
    /\ (-1440 <= tzone < 0 -> 2 <= day d ->
        Email.f_subject (Email.format_email tzone today t i c)
        = (pre ++ date_text (mkCivil (year d) (month d) (day d - 1))
           ++ post)%string).
Proof.
  intros tzone today t i c d pre post Hparse Hyear Hsubj Hpre Hpost.
  destruct (parse_date_only_valid _ _ Hparse) as (_ & Hm & Hd).
  assert (Hdate : Date_of_string (due_date i) = Some (utc_midnight d))
    by (unfold Date_of_string; now rewrite Hparse).
  assert (Hrender :
            forall shown : civil,
              toLocaleDateString_long tzone (Some (utc_midnight d))
              = date_text shown ->
              Email.f_subject (Email.format_email tzone today t i c)
              = (pre ++ date_text shown ++ post)%string).
  { intros shown Hshown. unfold Email.format_email.
    rewrite substitute_split. cbn [fst Email.f_subject].
    rewrite Hsubj. unfold Email.replacements, substitute1. cbv zeta.
    rewrite Hdate, Hshown. cbn [fold_left fst snd].
    do 2 skip_step. hit_step.
    rewrite (get_substitution_plain _ _ _ _
               (avoids_date_text "$" shown ltac:(cbn; tauto))).
    assert (Hfree : avoids "{" (pre ++ date_text shown ++ post) = true).
    { rewrite !avoids_app, Hpre, Hpost,
        (avoids_date_text "{" shown ltac:(cbn; tauto)). reflexivity. }
    now rewrite !(replace_all_avoids _ _ _ Hfree). }
  split.
  - intros Hz. apply Hrender.
    apply long_text_of_local_day; auto. now apply local_day_east.
  - intros Hz Hday. apply Hrender.
    apply long_text_of_local_day; cbn [year month day]; try lia.
    rewrite (local_day_west _ _ Hz). unfold MakeDay. lia.
Qed.

Lemma email_due_date_depends_on_zone_witness :
  Email.f_subject
    (Email.format_email (-480) jan_10_2025
       (mkTemplate "t6" "due" "Due on {due_date}." "Thank you." 1)
       (mkInvoice "i3" "u1" "c1" "INV-003" "2025-01-01" "2025-02-15" (10 # 1)
          "USD" InvoiceStatus.sent)
       scenario_client)
  = "Due on February 14, 2025.".
Proof.
  apply (proj2 (email_due_date_depends_on_zone (-480) jan_10_2025
                  (mkTemplate "t6" "due" "Due on {due_date}." "Thank you." 1)
                  (mkInvoice "i3" "u1" "c1" "INV-003" "2025-01-01"
                     "2025-02-15" (10 # 1) "USD" InvoiceStatus.sent)
                  scenario_client (mkCivil 2025 2 15) "Due on " "."
                  eq_refl ltac:(cbn [year]; lia) eq_refl eq_refl eq_refl)).
  - lia.
  - cbn [day]. lia.
Defined.

Lemma days_written_email tzone today i c d :
  parse_date_only (due_date i) = Some d ->
  days_written (Email.replacements tzone today i c)
  = Z.max 0 ((today - utc_midnight d) / msPerDay).
Proof.
  intros Hparse. unfold days_written, Email.replacements. cbv zeta.
  cbn [find fst snd String.eqb Ascii.eqb Bool.eqb].
  unfold Date_of_string. rewrite Hparse. cbn [option_map].
  rewrite days_overdue_text_max. apply string_of_Z_value. lia.
Qed.

Lemma days_written_preview tzone today i c d due_text :
  parse_date_only (due_date i) = Some d ->
  days_written (Scheduler.replacements tzone today i c due_text)
  = Z.max 0 ((today - (utc_midnight d - tzone * 60000)) / msPerDay).
Proof.
  intros Hparse. unfold days_written, Scheduler.replacements. cbv zeta.
  cbn [find fst snd String.eqb Ascii.eqb Bool.eqb].
  unfold parseISO. rewrite Hparse. cbn [option_map].
  rewrite days_overdue_text_max. apply string_of_Z_value. lia.
Qed.

(** X7: for the same invoice and the same instant, the number of days
    overdue written by the preview and the one written by the email differ
    by at most one; the preview, which counts from local midnight, never
    shows fewer days east of UTC and never more west of it, and the two are
    equal in UTC. *)
Theorem preview_and_email_days_differ_by_at_most_one :
  forall (tzone today : Z) (i : Invoice) (c : Client) (d : civil)
         (due_text : string),
    parse_date_only (due_date i) = Some d ->
    -1440 <= tzone <= 1440 ->
    let shown := days_written (Scheduler.replacements tzone today i c due_text) in
    let sent := days_written (Email.replacements tzone today i c) in
    -1 <= shown - sent <= 1
    /\ (0 <= tzone -> sent <= shown)
    /\ (tzone <= 0 -> shown <= sent)
    /\ (tzone = 0 -> shown = sent).
Proof.
  intros tzone today i c d due_text Hparse Hz shown sent.
  subst shown sent.
  rewrite (days_written_preview _ _ _ _ d _ Hparse),
    (days_written_email _ _ _ _ d Hparse).
  unfold msPerDay.
  repeat split; intros; Z.div_mod_to_equations; lia.
Qed.

Lemma preview_and_email_days_differ_by_at_most_one_witness :
  let shown :=
    days_written
      (Scheduler.replacements (-300) jan_10_2025 scenario_invoice
         scenario_client "January 1, 2025") in
  let sent :=
    days_written
      (Email.replacements (-300) jan_10_2025 scenario_invoice
         scenario_client) in
  -1 <= shown - sent <= 1
  /\ (0 <= -300 -> sent <= shown)
  /\ (-300 <= 0 -> shown <= sent)
  /\ (-300 = 0 -> shown = sent).
Proof.
  apply (preview_and_email_days_differ_by_at_most_one (-300) jan_10_2025
           scenario_invoice scenario_client (mkCivil 2025 1 1)
           "January 1, 2025").
  - reflexivity.
  - lia.
Defined.

Lemma two_digit_text_all :
  forallb
    (fun k =>
       (String.length (Js.pad_zeros 2 (Js.string_of_Z (Z.of_nat k))) =? 2)%nat
       && (digits_value (Js.pad_zeros 2 (Js.string_of_Z (Z.of_nat k))) 0
           =? Z.of_nat k))
    (seq 0 100) = true.
Proof. vm_compute. reflexivity. Qed.

Lemma two_digit_text m :
  0 <= m < 100 ->
  String.length (Js.pad_zeros 2 (Js.string_of_Z m)) = 2%nat
  /\ digits_value (Js.pad_zeros 2 (Js.string_of_Z m)) 0 = m.
Proof.
  intros H.
  pose proof (proj1 (forallb_forall _ _) two_digit_text_all (Z.to_nat m))
    as A.
  cbv beta in A. rewrite Z2Nat.id in A by lia.
  assert (Hin : In (Z.to_nat m) (seq 0 100)) by (apply in_seq; lia).
  apply A in Hin. apply andb_prop in Hin. destruct Hin as [L V].
  apply Nat.eqb_eq in L. apply Z.eqb_eq in V. tauto.
Qed.

(** X8: for an amount from zero up to, and not including, 10^21 (from
    where [toFixed] turns to the exponent notation), the [{amount}] entry
    is the currency, a space and the amount rounded to the nearest
    hundredth (a half rounds up), written with its whole part, a point and
    exactly two decimals. *)
Theorem amount_text_has_two_decimals :
  forall i : Invoice,
    0 <= Qnum (amount i) ->
    Qnum (amount i) < 10 ^ 21 * Z.pos (Qden (amount i)) ->
    let n := Js.round_half_up_hundredths (amount i) in
    2 * Z.pos (Qden (amount i)) * n - Z.pos (Qden (amount i))
    <= 200 * Qnum (amount i)
    < 2 * Z.pos (Qden (amount i)) * n + Z.pos (Qden (amount i))
    /\ exists whole frac,
        Email.amount_text i = (currency i ++ " " ++ whole ++ "." ++ frac)%string
        /\ digits_value whole 0 = n / 100
        /\ String.length frac = 2%nat
        /\ digits_value frac 0 = n mod 100.
Proof.
  intros i Hpos _ n.
  assert (Hn : 0 <= n).
  { subst n. unfold Js.round_half_up_hundredths.
    apply Z.div_pos; lia. }
  split.
  - subst n. unfold Js.round_half_up_hundredths.
    Z.div_mod_to_equations. nia.
  - exists (Js.string_of_Z (n / 100)),
      (Js.pad_zeros 2 (Js.string_of_Z (n mod 100))).
    assert (Hm : 0 <= n mod 100 < 100) by (apply Z.mod_pos_bound; lia).
    destruct (two_digit_text _ Hm) as [L V].
    split; [|split; [|split]]; auto.
    + unfold Email.amount_text, Js.toFixed2.
      destruct (Z.ltb_spec (Qnum (amount i)) 0); [lia|]. reflexivity.
    + apply string_of_Z_value. apply Z.div_pos; lia.
Qed.

Lemma amount_text_has_two_decimals_witness :
  exists whole frac,
    Email.amount_text scenario_invoice
    = (currency scenario_invoice ++ " " ++ whole ++ "." ++ frac)%string
    /\ digits_value whole 0 = 150
    /\ String.length frac = 2%nat
    /\ digits_value frac 0 = 0.
Proof.
  destruct (amount_text_has_two_decimals scenario_invoice) as [_ H].
  - cbn. lia.
  - vm_compute. reflexivity.
  - exact H.
Defined.

End RendererMore.

(** ** The email transport *)

Section Transport.

Variable env : Env.

Lemma js_or_nonempty a d : d <> EmptyString -> js_or a d <> EmptyString.
Proof.
  intros Hd. unfold js_or. destruct a as [v|]; [|exact Hd].
  destruct (String.eqb v EmptyString) eqn:E; [exact Hd|].
  now apply String.eqb_neq.
Qed.

(** X9: [sendEmail] always comes back with a result.  It reports success
    exactly when the key is configured and the one call of the mail provider
    did not throw; a success carries no error, a failure always carries a
    non-empty error text, and without a key the provider is not called. *)
Theorem sendEmail_reports_every_outcome :
  forall (content : EmailContent),
    let res := fst (Email.sendEmail env content) in
    let evs := snd (Email.sendEmail env content) in
    (success res = true <->
     truthy (SENDGRID_API_KEY env) <> None
     /\ exists msg, evs = [EvMailSend msg] /\ mail_send env msg = None)
    /\ (success res = true -> error res = None)
    /\ (success res = false ->
        exists m, error res = Some m /\ m <> EmptyString)
    /\ (truthy (SENDGRID_API_KEY env) = None -> filter is_mail_send evs = [])
    /\ (List.length (filter is_mail_send evs) <= 1)%nat.
Proof.
  intros content res evs. subst res evs. unfold Email.sendEmail.
  destruct (truthy (SENDGRID_API_KEY env)) as [k|] eqn:K.
  - match goal with
    | |- context [mail_send env ?m] =>
        destruct (mail_send env m) as [e|] eqn:M
    end; cbn [fst snd success error filter is_mail_send List.length].
    + repeat split; try discriminate; try lia.
      * intros (_ & msg & E & Hn). injection E as <-. congruence.
      * intros _. eexists. split; [reflexivity|].
        apply js_or_nonempty. discriminate.
    + repeat split; try discriminate; try reflexivity; try lia.
      eexists. split; [reflexivity | exact M].
  - cbn [fst snd success error filter is_mail_send List.length].
    repeat split; try discriminate; try reflexivity; try lia.
    + intros (Hk & _). now contradiction Hk.
    + intros _. eexists. split; [reflexivity | discriminate].
Qed.

(** X10: the message handed to the mail provider carries the recipient,
    subject and body of the call and always a non-empty sender address,
    sender name and reply-to address.  A non-empty sender address, sender
    name or reply-to given in the call is the one used; a missing sender
    address is the configured one, or else the built-in one, a missing
    sender name is the built-in one, and a missing reply-to is the sender
    address used. *)
Theorem sendEmail_fills_in_the_sender :
  forall (content : EmailContent) (msg : MailMessage),
    In (EvMailSend msg) (snd (Email.sendEmail env content)) ->
    (mail_to msg = to content /\ mail_subject msg = subject content
     /\ mail_html msg = body content)
    /\ (mail_from_email msg <> EmptyString
        /\ mail_from_name msg <> EmptyString
        /\ mail_replyTo msg <> EmptyString)
    /\ (truthy (fromEmail content) = None ->
        mail_from_email msg
        = js_or (EMAIL_FROM env) "noreply@invoicenudger.com")
    /\ (truthy (fromName content) = None ->
        mail_from_name msg = "Invoice Nudger")
    /\ (truthy (replyTo content) = None ->
        mail_replyTo msg = mail_from_email msg)
    /\ (forall v, replyTo content = Some v -> v <> EmptyString ->
                  mail_replyTo msg = v)
    /\ (forall v, fromEmail content = Some v -> v <> EmptyString ->
                  mail_from_email msg = v)
    /\ (forall v, fromName content = Some v -> v <> EmptyString ->
                  mail_from_name msg = v).
Proof.
  intros content msg Hin.
  assert (Hor : forall a d, truthy a = None -> js_or a d = d).
  { intros a d. unfold truthy, js_or. destruct a as [v|]; [|reflexivity].
    destruct (String.eqb v EmptyString); [reflexivity | discriminate]. }
  assert (Hv : forall v d, v <> EmptyString -> js_or (Some v) d = v).
  { intros v d Hne. unfold js_or. apply String.eqb_neq in Hne.
    now rewrite Hne. }
  unfold Email.sendEmail in Hin.
  destruct (truthy (SENDGRID_API_KEY env)) as [k|];
    [|cbn [snd In] in Hin; destruct Hin as [E | []]; discriminate E].
  match type of Hin with
  | context [mail_send env ?m] =>
      assert (E : msg = m)
        by (destruct (mail_send env m); cbn [snd In] in Hin;
            intuition congruence)
  end.
  subst msg. cbn [mail_to mail_subject mail_html mail_from_email
                    mail_from_name mail_replyTo].
  assert (Hfrom : js_or (fromEmail content)
                    (js_or (EMAIL_FROM env) "noreply@invoicenudger.com")
                  <> EmptyString)
    by (apply js_or_nonempty, js_or_nonempty; discriminate).
  split; [tauto|]. split; [|split; [|split; [|split; [|split; [|split]]]]].
  - split; [exact Hfrom|].
    split; [apply js_or_nonempty; discriminate|].
    now apply js_or_nonempty.
  - intros H. now rewrite (Hor _ _ H).
  - intros H. now rewrite (Hor _ _ H).
  - intros H. now rewrite (Hor _ _ H).
  - intros v -> Hne. now apply Hv.
  - intros v -> Hne. now apply Hv.
  - intros v -> Hne. now apply Hv.
Qed.

End Transport.

Lemma sendEmail_fills_in_the_sender_witness :
  mail_from_email plain_message <> EmptyString
  /\ mail_replyTo plain_message = mail_from_email plain_message.
Proof.
  pose proof (sendEmail_fills_in_the_sender env_ok plain_content
                plain_message (or_introl eq_refl))
    as (_ & (H1 & _) & _ & _ & H5 & _).
  split; [exact H1 | apply H5; reflexivity].
Defined.

(** ** Whole runs of the processor *)

Section ProcessorMore.

Variable env : Env.

Lemma step_sends d w w' evs :
  step env d w w' evs -> sends evs = if deliverable d then 1%nat else 0%nat.
Proof.
  intros St. unfold deliverable.
  destruct St as [ d w Hn
                 | d w ir ok w' Hir Hst Hup
                 | d w ir Hir Hnp Hmiss
                 | d w ir t c content res sev ok w' Hir Hnp Ht Hc Hto Hse Hs Hup
                 | d w ir t c content res sev Hir Hnp Ht Hc Hto Hse Hs ].
  - rewrite Hn. reflexivity.
  - rewrite Hir, Hst. reflexivity.
  - rewrite Hir. unfold not_paid in Hnp. rewrite Hnp.
    destruct Hmiss as [-> | ->]; cbn [negb andb]; [reflexivity|].
    destruct (template d); reflexivity.
  - rewrite Hir, Ht, Hc. unfold not_paid in Hnp. rewrite Hnp.
    cbn [negb andb]. now apply (sends_of_delivery env _ _ _ _ Hse).
  - rewrite Hir, Ht, Hc. unfold not_paid in Hnp. rewrite Hnp.
    cbn [negb andb]. now apply (sends_of_delivery env _ _ _ _ Hse).
Qed.

Lemma process_all_sends rs :
  forall w,
    total_sends (snd (Email.process_all env rs w))
    = List.length (filter deliverable rs).
Proof.
  induction rs as [|d rs IH]; intros w; [reflexivity|].
  rewrite process_all_cons. cbn [snd filter].
  change (total_sends
            ((due_id d, snd (Email.process_reminder env d w))
             :: snd (Email.process_all env rs
                       (fst (Email.process_reminder env d w)))))
    with (sends (snd (Email.process_reminder env d w))
          + total_sends
              (snd (Email.process_all env rs
                      (fst (Email.process_reminder env d w)))))%nat.
  rewrite (step_sends _ _ _ _ (process_reminder_step env d w)), IH.
  destruct (deliverable d); reflexivity.
Qed.

(** X11: a run whose query succeeds calls the email transport once for
    every fetched reminder whose invoice is present and not paid and whose
    template and client are present, and for no other: the number of
    transport calls of the run is the number of those reminders. *)
Theorem one_transport_call_per_deliverable_reminder :
  forall w : World,
    query_ok env w ->
    let run := Email.processScheduledReminders env w in
    total_sends (Email.journal run)
    = List.length (filter deliverable (due_rows (start_time env w) (db w)))
    /\ forall id evs, In (id, evs) (Email.journal run) -> (sends evs <= 1)%nat.
Proof.
  intros w Hq run.
  destruct (run_unfold env w Hq) as (_ & Hj & _ & _). fold run in Hj.
  rewrite Hj. clear Hj. split; [apply process_all_sends|].
  generalize (tick w).
  induction (due_rows (start_time env w) (db w)) as [|d rs IH];
    intros w0 id evs Hin; [contradiction|].
  rewrite process_all_cons in Hin. cbn [snd] in Hin.
  destruct Hin as [E | Hin]; [|exact (IH _ id evs Hin)].
  injection E as _ <-.
  rewrite (step_sends _ _ _ _ (process_reminder_step env d w0)).
  destruct (deliverable d); lia.
Qed.

Lemma upd_key_fields id p rs :
  map key_fields (upd id p rs) = map key_fields rs.
Proof.
  unfold upd. rewrite map_map. apply map_ext. intros r.
  destruct (String.eqb (reminder_id r) id); reflexivity.
Qed.

Lemma process_all_key_fields rs :
  forall w,
    map key_fields (reminders (db (fst (Email.process_all env rs w))))
    = map key_fields (reminders (db w)).
Proof.
  induction rs as [|d rs IH]; intros w; [reflexivity|].
  rewrite process_all_cons. cbn [fst]. rewrite IH.
  destruct (step_frame env _ _ _ _ (process_reminder_step env d w))
    as (_ & _ & [-> | (p & ->)] & _); [reflexivity|].
  apply upd_key_fields.
Qed.

Lemma key_fields_ids rs :
  map reminder_id rs = map (fun k => fst (fst (fst k))) (map key_fields rs).
Proof. rewrite map_map. reflexivity. Qed.

(** X12: whatever happens in it, a run changes nothing but the status and
    the sent_at of reminders: the other tables are as before, the reminders
    table keeps its rows in place with their id, invoice, template and
    scheduled date, and ids that were unique stay unique. *)
Theorem run_changes_only_status_and_sent_at :
  forall w : World,
    let run := Email.processScheduledReminders env w in
    same_but_reminders (db (Email.final run)) (db w)
    /\ map key_fields (reminders (db (Email.final run)))
       = map key_fields (reminders (db w))
    /\ (unique_ids w -> unique_ids (Email.final run)).
Proof.
  intros w run.
  assert (H : same_but_reminders (db (Email.final run)) (db w)
              /\ map key_fields (reminders (db (Email.final run)))
                 = map key_fields (reminders (db w))).
  { destruct (store_fails env (SelectDueReminders (start_time env w))) eqn:Hq.
    - destruct (query_failure_swallowed env w Hq) as (Hdb & _).
      fold run in Hdb. rewrite Hdb. unfold same_but_reminders. tauto.
    - destruct (run_unfold env w Hq) as (Hf & _). fold run in Hf.
      rewrite Hf. split.
      + now destruct (process_all_frame env
                        (due_rows (start_time env w) (db w)) (tick w))
          as (_ & S & _).
      + exact (process_all_key_fields _ (tick w)). }
  destruct H as [H1 H2]. split; [exact H1|]. split; [exact H2|].
  unfold unique_ids. now rewrite !key_fields_ids, H2.
Qed.

Lemma fetched_are_due w d :
  In d (Email.fetched (Email.processScheduledReminders env w)) ->
  In (rem d) (reminders (db w))
  /\ Supabase.is_due (start_time env w) (rem d) = true.
Proof.
  destruct (store_fails env (SelectDueReminders (start_time env w))) eqn:Hq.
  - destruct (query_failure_swallowed env w Hq) as (_ & _ & -> & _).
    contradiction.
  - destruct (run_unfold env w Hq) as (_ & _ & -> & _).
    unfold due_rows. intros Hin. apply in_map_iff in Hin.
    destruct Hin as (r & <- & Hr). apply filter_In in Hr. exact Hr.
Qed.

Lemma journal_entries_are_steps rs :
  forall w id evs,
    In (id, evs) (snd (Email.process_all env rs w)) ->
    exists d w1 w2, In d rs /\ id = due_id d /\ step env d w1 w2 evs.
Proof.
  induction rs as [|d rs IH]; intros w id evs Hin; [contradiction|].
  rewrite process_all_cons in Hin. cbn [snd] in Hin.
  destruct Hin as [E | Hin].
  - injection E as <- <-. exists d, w, (fst (Email.process_reminder env d w)).
    split; [now left|]. split; [reflexivity|]. apply process_reminder_step.
  - destruct (IH _ id evs Hin) as (d' & w1 & w2 & Hd & E & St).
    exists d', w1, w2. split; [now right | tauto].
Qed.

Lemma run_entries_are_steps w id evs :
  In (id, evs) (Email.journal (Email.processScheduledReminders env w)) ->
  exists d w1 w2, id = due_id d /\ step env d w1 w2 evs.
Proof.
  destruct (store_fails env (SelectDueReminders (start_time env w))) eqn:Hq.
  - destruct (query_failure_swallowed env w Hq) as (_ & -> & _).
    contradiction.
  - destruct (run_unfold env w Hq) as (_ & -> & _). intros Hin.
    destruct (journal_entries_are_steps _ _ _ _ Hin)
      as (d & w1 & w2 & _ & E & St).
    now exists d, w1, w2.
Qed.

Lemma due_is_pending now r :
  Supabase.is_due now r = true -> reminder_status r = ReminderStatus.pending.
Proof.
  unfold Supabase.is_due. intros H. apply andb_prop in H.
  destruct H as [Hs _]. destruct (reminder_status r);
    try discriminate Hs; reflexivity.
Qed.


(** What a run leaves under the id of a stored reminder. *)
Lemma final_row w r :
  unique_ids w -> In r (reminders (db w)) ->
  let run := Email.processScheduledReminders env w in
  rows_with (reminder_id r) (reminders (db (Email.final run))) = [r]
  \/ (Supabase.is_due (start_time env w) r = true
      /\ (rows_with (reminder_id r) (reminders (db (Email.final run)))
          = [Supabase.apply_patch Email.cancel_patch r]
          \/ exists k,
              (ticks w < k)%nat
              /\ rows_with (reminder_id r) (reminders (db (Email.final run)))
                 = [Supabase.apply_patch
                      (Email.sent_patch (clock env k)) r])).
Proof.
  intros Hnd Hin run.
  destruct (store_fails env (SelectDueReminders (start_time env w))) eqn:Hq.
  { destruct (query_failure_swallowed env w Hq) as (Hdb & _).
    fold run in Hdb. rewrite Hdb. left. now apply rows_with_unique. }
  destruct (Supabase.is_due (start_time env w) r) eqn:Hdue.
  - destruct (run_locate env w r Hnd Hq Hin Hdue)
      as (w1 & w2 & evs & St & _ & _ & B & A & T).
    fold run in A. rewrite A.
    inversion St as [ d0 w0 Hn
                    | d0 w0 ir ok w' Hir Hst Hup
                    | d0 w0 ir Hir Hnp _
                    | d0 w0 ir t c1 content res1 sev ok w' Hir Hnp Ht Hc Hto
                        Hse Hs Hup
                    | d0 w0 ir t c1 content res1 sev Hir Hnp Ht Hc Hto Hse Hs ];
      subst.
    + now left.
    + apply update_reminder_cases in Hup.
      destruct Hup as (_ & _ & [(_ & ->) | (_ & _ & ->)]); [now left|].
      right. split; [reflexivity|]. left.
      change (due_id (Supabase.embed (db w) r)) with (reminder_id r).
      now rewrite rows_with_upd_same, B.
    + now left.
    + apply update_reminder_cases in Hup. cbn [tick db] in Hup.
      destruct Hup as (_ & _ & [(_ & ->) | (_ & _ & ->)]); [now left|].
      right. split; [reflexivity|]. right. exists (S (ticks w1)).
      split; [lia|].
      change (due_id (Supabase.embed (db w) r)) with (reminder_id r).
      now rewrite rows_with_upd_same, B.
    + now left.
  - left. destruct (run_unfold env w Hq) as (Hf & _). fold run in Hf.
    rewrite Hf.
    pose proof (process_all_frame env (due_rows (start_time env w) (db w))
                  (tick w)) as F.
    cbv zeta in F. destruct F as (_ & _ & _ & W & _).
    rewrite W.
    + now apply rows_with_unique.
    + rewrite due_rows_ids. intros Hid. apply in_map_iff in Hid.
      destruct Hid as (x & E & Hx). apply filter_In in Hx.
      destruct Hx as [Hx Hxd].
      assert (x = r)
        by (apply (NoDup_map_inj reminder_id (reminders (db w))); auto).
      subst x. rewrite Hxd in Hdue. discriminate.
Qed.

(** X13: a run moves a reminder at most once and only forward: afterwards
    the row stored under its id is the row as it was, or, for a reminder
    that was pending and due, that row cancelled, or that row marked sent
    and stamped with a reading of the clock taken during the run.  A
    reminder that is not pending (approved, sent, cancelled) is never
    changed.  The reminder ids are the keys of the table. *)
Theorem a_run_moves_a_reminder_at_most_once :
  forall (w : World) (r : Reminder),
    unique_ids w -> In r (reminders (db w)) ->
    let run := Email.processScheduledReminders env w in
    exists r',
      find_reminder (db (Email.final run)) (reminder_id r) = Some r'
      /\ (r' = r
          \/ (Supabase.is_due (start_time env w) r = true
              /\ (r' = Supabase.apply_patch Email.cancel_patch r
                  \/ exists k, (ticks w < k)%nat
                               /\ r' = Supabase.apply_patch
                                         (Email.sent_patch (clock env k)) r)))
      /\ (reminder_status r <> ReminderStatus.pending -> r' = r).
Proof.
  intros w r Hnd Hin run.
  destruct (final_row w r Hnd Hin) as [H | (Hdue & [H | (k & Hk & H)])];
    fold run in H.
  - exists r. split; [now apply find_reminder_rows|]. split; [now left|].
    reflexivity.
  - eexists. split; [apply find_reminder_rows; exact H|].
    split; [right; split; [exact Hdue | now left]|].
    intros Hs. now rewrite (due_is_pending _ _ Hdue) in Hs.
  - eexists. split; [apply find_reminder_rows; exact H|].
    split; [right; split; [exact Hdue | right; now exists k]|].
    intros Hs. now rewrite (due_is_pending _ _ Hdue) in Hs.
Qed.

Lemma update_event_of_delivery content res sev u id p ok id' p' ok' :
  Email.sendEmail env content = (res, sev) ->
  is_reminder_update u = false ->
  In (EvUpdateReminder id' p' ok')
     (u :: EvSendEmail content res :: sev ++ [EvUpdateReminder id p ok]) ->
  p' = p /\ ok' = ok.
Proof.
  intros S Hu [E | [E | Hin]].
  - rewrite E in Hu. discriminate Hu.
  - discriminate E.
  - apply in_app_single in Hin. destruct Hin as [Hin | E].
    + apply (sendEmail_events env _ _ _ _ S) in Hin.
      destruct Hin as [_ Hin]. discriminate Hin.
    + injection E as _ <- <-. tauto.
Qed.

End ProcessorMore.

(** X14: once the store has accepted the update a run made for a reminder
    (cancelled, or sent), no following run fetches that reminder again,
    whatever its environment and however late it starts: a reminder is not
    processed twice.  The reminder ids are the keys of the table. *)
Theorem accepted_update_ends_processing :
  forall (env env' : Env) (w : World) (r : Reminder) (evs : list event)
         (p : ReminderPatch),
    unique_ids w -> query_ok env w ->
    In r (reminders (db w)) -> Supabase.is_due (start_time env w) r = true ->
    let run := Email.processScheduledReminders env w in
    In (reminder_id r, evs) (Email.journal run) ->
    In (EvUpdateReminder (reminder_id r) p true) evs ->
    ~ In (reminder_id r)
         (map due_id
            (Email.fetched
               (Email.processScheduledReminders env' (Email.final run)))).
Proof.
  intros env env' w r evs p Hnd Hq Hin Hdue run Hj Hev Hmem.
  apply in_map_iff in Hmem. destruct Hmem as (d & Hid & Hd).
  destruct (run_locate env w r Hnd Hq Hin Hdue)
    as (w1 & w2 & evs0 & St & _ & U & B & A & _).
  fold run in U, A. rewrite (U evs Hj) in *. clear Hj U.
  destruct (fetched_are_due env' _ d Hd) as [Hrow Hdue'].
  assert (Hrows : In (rem d)
                    (rows_with (reminder_id r)
                       (reminders (db (Email.final run))))).
  { unfold rows_with. apply filter_In. split; [exact Hrow|].
    apply String.eqb_eq. exact Hid. }
  rewrite A in Hrows.
  assert (Hmoved : forall q,
             patch_status q = Some ReminderStatus.cancelled
             \/ patch_status q = Some ReminderStatus.sent ->
             In (rem d) [Supabase.apply_patch q r] -> False).
  { intros q Hq' [E | []]. rewrite <- E in Hdue'.
    apply due_is_pending in Hdue'. cbn [Supabase.apply_patch reminder_status]
      in Hdue'.
    destruct Hq' as [Hq' | Hq']; rewrite Hq' in Hdue'; discriminate. }
  inversion St as [ d0 w0 Hn
                  | d0 w0 ir ok w' Hir Hst Hup
                  | d0 w0 ir Hir Hnp _
                  | d0 w0 ir t c1 content res1 sev ok w' Hir Hnp Ht Hc Hto
                      Hse Hs Hup
                  | d0 w0 ir t c1 content res1 sev Hir Hnp Ht Hc Hto Hse Hs ];
    subst.
  - destruct Hev as [E | []]. discriminate E.
  - destruct Hev as [E | []]. assert (ok = true) by congruence. subst ok.
    apply update_reminder_cases in Hup.
    destruct Hup as (_ & _ & [(F & _) | (_ & _ & Hup)]); [discriminate F|].
    rewrite Hup in Hrows.
    change (due_id (Supabase.embed (db w) r)) with (reminder_id r) in Hrows.
    rewrite rows_with_upd_same, B in Hrows.
    apply (Hmoved Email.cancel_patch); [now left | exact Hrows].
  - destruct Hev as [E | []]. discriminate E.
  - destruct (update_event_of_delivery env content res1 sev
                (EvSelectUser (invoice_user_id (inv ir))) _ _ ok _ _ _
                Hse eq_refl Hev) as [_ Eok].
    subst ok.
    apply update_reminder_cases in Hup. cbn [tick db] in Hup.
    destruct Hup as (_ & _ & [(F & _) | (_ & _ & Hup)]); [discriminate F|].
    rewrite Hup in Hrows.
    change (due_id (Supabase.embed (db w) r)) with (reminder_id r) in Hrows.
    rewrite rows_with_upd_same, B in Hrows.
    apply (Hmoved (Email.sent_patch (clock env (S (ticks w1)))));
      [now right | exact Hrows].
  - destruct Hev as [E | [E | Hin']]; try discriminate E.
    apply in_app_single in Hin'. destruct Hin' as [Hin' | E].
    + apply (sendEmail_events env _ _ _ _ Hse) in Hin'.
      destruct Hin' as [_ Hin']. discriminate Hin'.
    + discriminate E.
Qed.

Lemma accepted_update_ends_processing_witness :
  let run := Email.processScheduledReminders env_ok world0 in
  ~ In (reminder_id r_unpaid)
       (map due_id
          (Email.fetched
             (Email.processScheduledReminders env_mail_down
                (Email.final run)))).
Proof.
  apply (accepted_update_ends_processing env_ok env_mail_down world0 r_unpaid
           delivered_entry
           (Email.sent_patch (ticking 2))).
  - exact world0_unique_ids.
  - reflexivity.
  - cbn. tauto.
  - reflexivity.
  - vm_compute. left. reflexivity.
  - vm_compute. do 3 right. left. reflexivity.
Defined.

Section ProcessorEdges.

Variable env : Env.


(** X16: when no API key is configured, a run hands no message to the mail
    provider and marks no reminder as sent: every transport call of the run
    comes back as a failure. *)
Theorem without_api_key_nothing_is_sent :
  truthy (SENDGRID_API_KEY env) = None ->
  forall (w : World) (id : string) (evs : list event) (e : event),
    In (id, evs) (Email.journal (Email.processScheduledReminders env w)) ->
    In e evs ->
    is_mail_send e = false /\ is_sent_update e = false
    /\ (forall c res, e = EvSendEmail c res -> success res = false).
Proof.
  intros Hkey w id evs e Hj He.
  assert (Hsend : forall content res sev,
             Email.sendEmail env content = (res, sev) ->
             success res = false
             /\ forall x, In x sev -> is_mail_send x = false
                                      /\ is_sent_update x = false
                                      /\ is_send x = false).
  { intros content res sev. unfold Email.sendEmail. rewrite Hkey.
    intros E. injection E as <- <-. split; [reflexivity|].
    intros x [<- | []]. repeat split; reflexivity. }
  destruct (run_entries_are_steps env w id evs Hj) as (d & w1 & w2 & _ & St).
  destruct St as [ d w0 Hn
                 | d w0 ir ok w' Hir Hst Hup
                 | d w0 ir Hir Hnp Hmiss
                 | d w0 ir t c content res sev ok w' Hir Hnp Ht Hc Hto Hse Hs
                     Hup
                 | d w0 ir t c content res sev Hir Hnp Ht Hc Hto Hse Hs ].
  - destruct He as [<- | []]. repeat split; try reflexivity; discriminate.
  - destruct He as [<- | []]. repeat split; try reflexivity; discriminate.
  - destruct He as [<- | []]. repeat split; try reflexivity; discriminate.
  - destruct (Hsend _ _ _ Hse) as [F _]. rewrite F in Hs. discriminate Hs.
  - destruct (Hsend _ _ _ Hse) as [F Hsev].
    destruct He as [<- | [<- | He]].
    + repeat split; try reflexivity; discriminate.
    + repeat split; try reflexivity. intros c0 res0 E. now injection E as _ <-.
    + apply in_app_single in He. destruct He as [He | ->].
      * destruct (Hsev _ He) as (H1 & H2 & H3). repeat split; auto.
        intros c0 res0 ->. discriminate H3.
      * repeat split; try reflexivity; discriminate.
Qed.

End ProcessorEdges.

Lemma one_transport_call_per_deliverable_reminder_witness :
  let run := Email.processScheduledReminders env_ok world0 in
  total_sends (Email.journal run)
  = List.length
      (filter deliverable (due_rows (start_time env_ok world0) (db world0)))
  /\ forall id evs, In (id, evs) (Email.journal run) -> (sends evs <= 1)%nat.
Proof.
  apply (one_transport_call_per_deliverable_reminder env_ok world0).
  reflexivity.
Defined.

Lemma a_run_moves_a_reminder_at_most_once_witness :
  let run := Email.processScheduledReminders env_ok world0 in
  exists r',
    find_reminder (db (Email.final run)) (reminder_id r_done) = Some r'
    /\ (r' = r_done
        \/ (Supabase.is_due (start_time env_ok world0) r_done = true
            /\ (r' = Supabase.apply_patch Email.cancel_patch r_done
                \/ exists k, (ticks world0 < k)%nat
                             /\ r' = Supabase.apply_patch
                                       (Email.sent_patch (clock env_ok k))
                                       r_done)))
    /\ (reminder_status r_done <> ReminderStatus.pending -> r' = r_done).
Proof.
  apply (a_run_moves_a_reminder_at_most_once env_ok world0 r_done).
  - exact world0_unique_ids.
  - cbn. tauto.
Defined.



Lemma without_api_key_nothing_is_sent_witness :
  forallb (fun entry => forallb (fun e => negb (is_mail_send e)
                                          && negb (is_sent_update e))
                          (snd entry))
    (Email.journal (Email.processScheduledReminders env_no_key world0))
  = true.
Proof.
  apply forallb_forall. intros [id evs] Hj.
  apply forallb_forall. intros e He.
  destruct (without_api_key_nothing_is_sent env_no_key eq_refl world0 id evs e
              Hj He) as (H1 & H2 & _).
  cbn [snd]. now rewrite H1, H2.
Defined.

(** ** The triggers *)

Section Triggers.

Variable env : Env.

Lemma run_resolves w :
  Email.ended (Email.processScheduledReminders env w) = Email.Resolved.
Proof.
  unfold Email.processScheduledReminders. cbn [new_Date].
  destruct (Supabase.select_due_reminders env _ _) as [[|d ds]|e];
    try reflexivity.
  destruct (Email.process_all env (d :: ds) _). reflexivity.
Qed.

(** X17: the POST trigger answers 401, and does nothing, exactly when a
    non-empty secret is configured and the request does not carry it;
    otherwise it runs the processor and answers success, whatever happened
    in the run (a failed query, failed sends, refused updates).  No secret,
    or an empty one, opens the trigger to every request. *)
Theorem POST_answers_unauthorized_or_success :
  forall (apiKey : option string) (w : World),
    let run := Email.processScheduledReminders env w in
    (Route.unauthorized env apiKey = true ->
     Route.POST env apiKey w = (Route.Json_error "Unauthorized" 401, w, []))
    /\ (Route.unauthorized env apiKey = false ->
        Route.POST env apiKey w
        = (Route.Json_success 200, Email.final run, Email.journal run))
    /\ (Route.unauthorized env apiKey = true <->
        exists k, API_SECRET_KEY env = Some k /\ k <> EmptyString
                  /\ apiKey <> Some k).
Proof.
  intros apiKey w run. split; [|split].
  - intros H. unfold Route.POST. now rewrite H.
  - intros H. unfold Route.POST. rewrite H. fold run.
    unfold run. now rewrite run_resolves.
  - unfold Route.unauthorized, truthy.
    destruct (API_SECRET_KEY env) as [k|].
    + destruct (String.eqb k EmptyString) eqn:E.
      * apply String.eqb_eq in E. subst k. split; [discriminate|].
        intros (k & Hk & Hne & _). injection Hk as <-. now contradiction Hne.
      * apply String.eqb_neq in E. destruct apiKey as [a|].
        -- destruct (String.eqb a k) eqn:A; cbn [negb].
           ++ apply String.eqb_eq in A. subst a. split; [discriminate|].
              intros (k' & Hk & _ & Hne). injection Hk as <-.
              now contradiction Hne.
           ++ apply String.eqb_neq in A. split; [|reflexivity].
              intros _. exists k. repeat split; auto. congruence.
        -- split; [|reflexivity]. intros _. exists k.
           repeat split; auto. discriminate.
    + split; [discriminate|]. intros (k & Hk & _). discriminate Hk.
Qed.

(** X18: the GET trigger works in development only: with any other value
    of NODE_ENV, or none, it answers 405 and does nothing.  In development
    it does what a POST that passed the key check does, and it does so
    without any key check, also when a secret is configured. *)
Theorem GET_runs_in_development_without_key_check :
  forall (NODE_ENV apiKey : option string) (w : World),
    let run := Email.processScheduledReminders env w in
    (NODE_ENV <> Some "development" ->
     RouteDev.GET env NODE_ENV w
     = (Route.Json_error "Method not allowed" 405, w, []))
    /\ RouteDev.GET env (Some "development") w
       = (Route.Json_success 200, Email.final run, Email.journal run)
    /\ (Route.unauthorized env apiKey = false ->
        RouteDev.GET env (Some "development") w = Route.POST env apiKey w).
Proof.
  intros NODE_ENV apiKey w run.
  assert (Hdev : RouteDev.GET env (Some "development") w
                 = (Route.Json_success 200, Email.final run,
                    Email.journal run)).
  { unfold RouteDev.GET. cbn [String.eqb Ascii.eqb Bool.eqb negb].
    fold run. unfold run. now rewrite run_resolves. }
  split; [|split; [exact Hdev|]].
  - intros Hne. unfold RouteDev.GET.
    destruct NODE_ENV as [v|]; [|reflexivity].
    destruct (String.eqb v "development") eqn:E; [|reflexivity].
    apply String.eqb_eq in E. subst v. now contradiction Hne.
  - intros Hauth. rewrite Hdev. unfold Route.POST. rewrite Hauth.
    fold run. unfold run. now rewrite run_resolves.
Qed.

End Triggers.

Lemma GET_runs_in_development_without_key_check_witness :
  RouteDev.GET env_ok (Some "production") world0
  = (Route.Json_error "Method not allowed" 405, world0, []).
Proof.
  apply (proj1 (GET_runs_in_development_without_key_check env_ok
                  (Some "production") None world0)).
  discriminate.
Defined.

Lemma POST_answers_unauthorized_or_success_witness :
  Route.POST env_store_down None world0
  = (Route.Json_success 200,
     Email.final (Email.processScheduledReminders env_store_down world0),
     Email.journal (Email.processScheduledReminders env_store_down world0)).
Proof.
  apply (proj1 (proj2 (POST_answers_unauthorized_or_success env_store_down
                         None world0))).
  reflexivity.
Defined.

(** ** The list read, row by row and read after read *)

Section ReconcilerSteps.

Variable env : Env.

Lemma sent_and_past_db ir w : db (snd (sent_and_past env ir w)) = db w.
Proof.
  unfold sent_and_past.
  destruct (InvoiceStatus.eqb (row_status ir) InvoiceStatus.sent); reflexivity.
Qed.

Lemma mark_overdue_db data :
  forall w, db (snd (InvoiceList.mark_overdue env data w)) = db w.
Proof.
  induction data as [|d data IH]; intros w; [reflexivity|].
  rewrite mark_overdue_cons. cbn [snd]. rewrite IH. apply sent_and_past_db.
Qed.

(** A row is returned as it was read, or it was read as sent and is
    returned as overdue. *)
Lemma mark_overdue_rows data :
  forall w,
    Forall2 (fun d u => u = d
                        \/ (row_status d = InvoiceStatus.sent
                            /\ u = with_overdue d))
            data (fst (InvoiceList.mark_overdue env data w)).
Proof.
  induction data as [|d data IH]; intros w.
  - constructor.
  - rewrite mark_overdue_cons. cbn [fst]. constructor; [|apply IH].
    destruct (fst (sent_and_past env d w)) eqn:Hit; [right | now left].
    split; [|reflexivity]. exact (sent_and_past_sent env d w Hit).
Qed.

(** Only rows read as sent are picked for an update. *)
Lemma changed_from_sent data id :
  forall w,
    In id (map row_id
             (InvoiceList.changed (fst (InvoiceList.mark_overdue env data w))
                data)) ->
    exists d, In d data /\ row_id d = id
              /\ row_status d = InvoiceStatus.sent.
Proof.
  induction data as [|d data IH]; intros w.
  - intros [].
  - rewrite mark_overdue_cons. cbn [fst]. rewrite changed_cons.
    destruct (fst (sent_and_past env d w)) eqn:Hit.
    + pose proof (sent_and_past_sent env d w Hit) as Hs.
      destruct (negb _).
      * intros [E | Hin].
        -- exists d. split; [now left|]. split; [exact E | exact Hs].
        -- destruct (IH _ Hin) as (d' & Hd & He & Hs').
           exists d'. split; [now right|]. now split.
      * intros Hin. destruct (IH _ Hin) as (d' & Hd & He & Hs').
        exists d'. split; [now right|]. now split.
    + assert (E : negb (InvoiceStatus.eqb (row_status d) (row_status d))
                  = false)
        by (destruct (row_status d); reflexivity).
      rewrite E. intros Hin. destruct (IH _ Hin) as (d' & Hd & He & Hs').
      exists d'. split; [now right|]. now split.
Qed.

(** What one update to overdue does to the stored invoices. *)
Lemma update_overdue_rows id w :
  Forall2 (fun i i' => invoice_core i' = invoice_core i
                       /\ (i' = i
                           \/ invoice_status i' = InvoiceStatus.overdue))
          (invoices (db w))
          (invoices (db (snd (Supabase.update_invoice_status env id
                                InvoiceStatus.overdue w)))).
Proof.
  unfold Supabase.update_invoice_status.
  destruct (store_fails env _); cbn [snd db invoices Supabase.set_invoices].
  - induction (invoices (db w)); constructor; auto.
  - induction (invoices (db w)) as [|i l IH]; cbn [map]; constructor; auto.
    destruct (String.eqb (invoice_id i) id); [|auto].
    split; [reflexivity | now right].
Qed.

Lemma update_overdue_rest id w :
  let w' := snd (Supabase.update_invoice_status env id
                   InvoiceStatus.overdue w) in
  reminders (db w') = reminders (db w) /\ clients (db w') = clients (db w)
  /\ message_templates (db w') = message_templates (db w)
  /\ users (db w') = users (db w).
Proof.
  unfold Supabase.update_invoice_status.
  destruct (store_fails env _); cbn; auto.
Qed.

Lemma persist_all_rows rows :
  forall w,
    let w' := fst (InvoiceList.persist_all env rows w) in
    Forall2 (fun i i' => invoice_core i' = invoice_core i
                         /\ (i' = i
                             \/ invoice_status i' = InvoiceStatus.overdue))
            (invoices (db w)) (invoices (db w'))
    /\ reminders (db w') = reminders (db w) /\ clients (db w') = clients (db w)
    /\ message_templates (db w') = message_templates (db w)
    /\ users (db w') = users (db w).
Proof.
  induction rows as [|ir rows IH]; intros w.
  - cbn. split; [|auto]. induction (invoices (db w)); constructor; auto.
  - rewrite persist_all_cons. cbn [fst]. cbv zeta.
    specialize (IH (snd (Supabase.update_invoice_status env (row_id ir)
                           InvoiceStatus.overdue w))).
    cbv zeta in IH. destruct IH as (F & R & C & T & U).
    destruct (update_overdue_rest (row_id ir) w) as (R0 & C0 & T0 & U0).
    split; [|repeat split; congruence].
    pose proof (update_overdue_rows (row_id ir) w) as F0.
    revert F0 F. generalize (invoices (db w)).
    generalize (invoices (db (snd (Supabase.update_invoice_status env
                                     (row_id ir) InvoiceStatus.overdue w)))).
    generalize (invoices (db (fst (InvoiceList.persist_all env rows
                  (snd (Supabase.update_invoice_status env (row_id ir)
                          InvoiceStatus.overdue w)))))).
    intros l2 l1 l0 F0. revert l2.
    induction F0 as [|a b l0 l1 (Hc & Hs) _ IH']; intros l2 F.
    + inversion F. constructor.
    + inversion F as [|b' c l1' l2' (Hc' & Hs') F' E1 E2]; subst.
      constructor; [|now apply IH'].
      split; [congruence|].
      destruct Hs' as [-> | Hov]; [|now right].
      exact Hs.
Qed.

Lemma update_overdue_keeps id id' w :
  stored_overdue id w ->
  stored_overdue id (snd (Supabase.update_invoice_status env id'
                            InvoiceStatus.overdue w)).
Proof.
  intros H. unfold Supabase.update_invoice_status.
  destruct (store_fails env _); cbn [snd]; [exact H|].
  intros i Hin Hid. cbn [db invoices Supabase.set_invoices] in Hin.
  apply in_map_iff in Hin. destruct Hin as (i0 & E & Hin0).
  destruct (String.eqb (invoice_id i0) id'); subst i; [reflexivity|].
  now apply H.
Qed.

Lemma persist_all_keeps id rows :
  forall w, stored_overdue id w ->
            stored_overdue id (fst (InvoiceList.persist_all env rows w)).
Proof.
  induction rows as [|ir rows IH]; intros w H; [exact H|].
  rewrite persist_all_cons. cbn [fst]. apply IH.
  now apply update_overdue_keeps.
Qed.

Lemma persist_all_sets id rows :
  store_fails env (UpdateInvoiceStatus id InvoiceStatus.overdue) = false ->
  In id (map row_id rows) ->
  forall w, stored_overdue id (fst (InvoiceList.persist_all env rows w)).
Proof.
  intros Hok. induction rows as [|ir rows IH]; [intros []|].
  intros Hin w. rewrite persist_all_cons. cbn [fst].
  destruct (string_dec (row_id ir) id) as [E | E].
  - apply persist_all_keeps. rewrite E.
    unfold Supabase.update_invoice_status. rewrite Hok. cbn [snd].
    intros i Hi Hid. cbn [db invoices Supabase.set_invoices] in Hi.
    apply in_map_iff in Hi. destruct Hi as (i0 & Ei & _).
    destruct (String.eqb (invoice_id i0) id) eqn:B; subst i; [reflexivity|].
    apply String.eqb_neq in B. now contradiction B.
  - apply IH. destruct Hin as [Hin | Hin]; [now contradiction E | exact Hin].
Qed.

Lemma select_invoices_stored userId w data d :
  InvoiceList.select_invoices env userId w = Ok data -> In d data ->
  In (inv d) (invoices (db w)).
Proof.
  unfold InvoiceList.select_invoices.
  destruct (store_fails env _); [discriminate|].
  intros H Hin. injection H as <-.
  apply in_map_iff in Hin. destruct Hin as (i & <- & Hi).
  apply filter_In in Hi. exact (proj1 Hi).
Qed.

End ReconcilerSteps.

Section ReconcilerMore.

Variable env : Env.

(** X19: the list read changes nothing but a status, and a status only to
    overdue.  Row by row and in the order read, a returned invoice is the
    invoice read, except that one read as sent may be returned as overdue;
    in the store every invoice keeps all its other fields and its place,
    its status is what it was or overdue, and reminders, clients,
    templates and users are untouched.  A failed read throws and writes
    nothing. *)
Theorem list_read_only_turns_sent_into_overdue :
  forall (userId : string) (w : World),
    let w' := snd (fst (InvoiceList.queryFn env userId w)) in
    (forall data,
        InvoiceList.select_invoices env userId w = Ok data ->
        exists updated,
          fst (fst (InvoiceList.queryFn env userId w)) = Ok updated
          /\ Forall2 (fun d u => u = d
                                 \/ (row_status d = InvoiceStatus.sent
                                     /\ u = with_overdue d))
                     data updated)
    /\ (forall e,
           InvoiceList.select_invoices env userId w = Thrown e ->
           InvoiceList.queryFn env userId w = (Thrown e, w, []))
    /\ Forall2 (fun i i' => invoice_core i' = invoice_core i
                            /\ (i' = i
                                \/ invoice_status i' = InvoiceStatus.overdue))
               (invoices (db w)) (invoices (db w'))
    /\ reminders (db w') = reminders (db w)
    /\ clients (db w') = clients (db w)
    /\ message_templates (db w') = message_templates (db w)
    /\ users (db w') = users (db w).
Proof.
  intros userId w w'.
  destruct (InvoiceList.select_invoices env userId w) as [data|e] eqn:Hsel.
  - pose proof (list_queryFn_unfold env userId w data Hsel) as Hq.
    cbv zeta in Hq. subst w'. rewrite Hq. cbn [fst snd].
    split; [|split; [discriminate|]].
    + intros data' E. injection E as <-.
      eexists. split; [reflexivity|]. apply (mark_overdue_rows env).
    + pose proof (persist_all_rows env
                    (InvoiceList.changed
                       (fst (InvoiceList.mark_overdue env data (tick w))) data)
                    (snd (InvoiceList.mark_overdue env data (tick w)))) as P.
      cbv zeta in P. rewrite !(mark_overdue_db env) in P. exact P.
  - assert (Hq : InvoiceList.queryFn env userId w = (Thrown e, w, []))
      by (unfold InvoiceList.queryFn; now rewrite Hsel).
    subst w'. rewrite Hq. cbn [fst snd].
    split; [discriminate|]. split; [congruence|].
    split; [|auto]. induction (invoices (db w)); constructor; auto.
Qed.

(** X20: the list read settles an invoice.  Once a read has found the
    invoice sent and past due and the store has accepted the update, the
    invoice is stored as overdue, and a later read, at any time and
    whatever the store then answers, returns it as overdue and requests no
    update for it. *)
Theorem second_list_read_requests_no_update :
  forall (env' : Env) (userId userId' : string) (w : World)
         (data : list InvoiceRow) (ir : InvoiceRow),
    InvoiceList.select_invoices env userId w = Ok data ->
    In ir data ->
    reconcilable env ir ->
    store_fails env (UpdateInvoiceStatus (row_id ir) InvoiceStatus.overdue)
    = false ->
    let w' := snd (fst (InvoiceList.queryFn env userId w)) in
    (forall i, In i (invoices (db w')) -> invoice_id i = row_id ir ->
               invoice_status i = InvoiceStatus.overdue)
    /\ overdue_updates (row_id ir)
         (snd (InvoiceList.queryFn env' userId' w')) = 0%nat
    /\ (forall rows u,
           fst (fst (InvoiceList.queryFn env' userId' w')) = Ok rows ->
           In u rows -> row_id u = row_id ir ->
           row_status u = InvoiceStatus.overdue).
Proof.
  intros env' userId userId' w data ir Hsel Hin Hrec Hok w'.
  assert (Hst : stored_overdue (row_id ir) w').
  { subst w'. rewrite (list_queryFn_unfold env userId w data Hsel).
    cbn [fst snd]. apply (persist_all_sets env); [exact Hok|].
    destruct (mark_overdue_spec env data (tick w)) as (_ & _ & I & _).
    now apply I. }
  split; [exact Hst|].
  destruct (InvoiceList.select_invoices env' userId' w') as [data'|e] eqn:Hsel'.
  - pose proof (list_queryFn_unfold env' userId' w' data' Hsel') as Hq.
    cbv zeta in Hq. rewrite Hq. cbn [fst snd].
    assert (Hno : forall d, In d data' -> row_id d = row_id ir ->
                            row_status d = InvoiceStatus.overdue).
    { intros d Hd Hid. apply Hst; [|exact Hid].
      exact (select_invoices_stored env' userId' w' data' d Hsel' Hd). }
    split.
    + rewrite persist_all_updates. apply count_occ_not_In. intros Hc.
      destruct (changed_from_sent env' data' (row_id ir) (tick w') Hc)
        as (d & Hd & Hid & Hs).
      rewrite (Hno d Hd Hid) in Hs. discriminate.
    + intros rows u E Hu Hid. injection E as <-.
      pose proof (mark_overdue_rows env' data' (tick w')) as F.
      revert Hno Hu. clear - F Hid.
      induction F as [|d u' l l' Hdu _ IH]; [intros _ []|].
      intros Hno [-> | Hu].
      * destruct Hdu as [-> | [_ ->]]; [|reflexivity].
        apply Hno; [now left | exact Hid].
      * apply IH; [|exact Hu]. intros d0 Hd0. apply Hno. now right.
  - assert (Hq : InvoiceList.queryFn env' userId' w' = (Thrown e, w', []))
      by (unfold InvoiceList.queryFn; now rewrite Hsel').
    rewrite Hq. cbn [fst snd]. split; [reflexivity|]. discriminate.
Qed.

End ReconcilerMore.

Lemma list_read_only_turns_sent_into_overdue_witness :
  exists updated,
    fst (fst (InvoiceList.queryFn env_ok "u1" world0)) = Ok updated
    /\ Forall2 (fun d u => u = d
                           \/ (row_status d = InvoiceStatus.sent
                               /\ u = with_overdue d))
               [scenario_row; mkInvoiceRow paid_invoice (Some scenario_client)]
               updated.
Proof.
  apply (proj1 (list_read_only_turns_sent_into_overdue env_ok "u1" world0)).
  reflexivity.
Defined.

Lemma second_list_read_requests_no_update_witness :
  overdue_updates "i1"
    (snd (InvoiceList.queryFn env_writes_refused "u1"
            (snd (fst (InvoiceList.queryFn env_ok "u1" world0))))) = 0%nat.
Proof.
  apply (proj1 (proj2 (second_list_read_requests_no_update env_ok
                         env_writes_refused "u1" "u1" world0
                         [scenario_row;
                          mkInvoiceRow paid_invoice (Some scenario_client)]
                         scenario_row eq_refl (or_introl eq_refl)
                         (scenario_row_reconcilable env_ok eq_refl eq_refl)
                         eq_refl))).
Defined.

(** ** The actions on an invoice, and the processor after them *)

Section ActionsMore.

Variable fails : InvoiceActions.action -> bool.

Lemma find_set_status id user st l iv :
  find (fun i => String.eqb (invoice_id i) id) l = Some iv ->
  invoice_user_id iv = user ->
  find (fun i => String.eqb (invoice_id i) id)
       (map (fun i => if String.eqb (invoice_id i) id
                         && String.eqb (invoice_user_id i) user
                      then Supabase.with_status i st else i) l)
  = Some (Supabase.with_status iv st).
Proof.
  intros Hf Hu. induction l as [|i l IH]; [discriminate Hf|].
  cbn [find map] in *.
  destruct (String.eqb (invoice_id i) id) eqn:E.
  - injection Hf as ->. rewrite Hu, String.eqb_refl. cbn [andb].
    cbn [Supabase.with_status invoice_id]. now rewrite E.
  - cbn [andb]. rewrite E. now apply IH.
Qed.

Lemma world_eta w : mkWorld (db w) (ticks w) = w.
Proof. now destruct w. Qed.

Lemma db_invoices_eta d : Supabase.set_invoices d (invoices d) = d.
Proof. now destruct d. Qed.

(** X21: marking an invoice as paid stops its reminders.  When the owner
    marks the invoice as paid and the store accepts it, whatever the status
    of the invoice was, the next run of the processor cancels a due
    reminder of the invoice: the reminder is stored with the cancel patch
    applied, and the only effect recorded for it is that one update; no
    email is sent. *)
Theorem marking_paid_cancels_due_reminders :
  forall (env : Env) (userId : string) (w : World) (r : Reminder)
         (iv : Invoice),
    unique_ids w -> query_ok env w ->
    In r (reminders (db w)) -> Supabase.is_due (start_time env w) r = true ->
    Supabase.find_invoice (db w) (reminder_invoice_id r) = Some iv ->
    invoice_user_id iv = userId ->
    fails (InvoiceActions.SetStatus (reminder_invoice_id r) userId
             InvoiceStatus.paid) = false ->
    store_fails env (UpdateReminder (reminder_id r) Email.cancel_patch)
    = false ->
    let act := InvoiceActions.markAsPaid fails (reminder_invoice_id r)
                 userId w in
    let run := Email.processScheduledReminders env (snd act) in
    fst act = Ok tt
    /\ find_reminder (db (Email.final run)) (reminder_id r)
       = Some (Supabase.apply_patch Email.cancel_patch r)
    /\ In (reminder_id r,
           [EvUpdateReminder (reminder_id r) Email.cancel_patch true])
          (Email.journal run)
    /\ (forall evs, In (reminder_id r, evs) (Email.journal run) ->
                    evs = [EvUpdateReminder (reminder_id r)
                             Email.cancel_patch true]).
Proof.
  intros env userId w r iv Hnd Hq Hin Hdue Hinv Hown Hact Hstore act run.
  assert (Ea : act
               = (Ok tt,
                  mkWorld
                    (Supabase.set_invoices (db w)
                       (map (fun i =>
                               if String.eqb (invoice_id i)
                                    (reminder_invoice_id r)
                                  && String.eqb (invoice_user_id i) userId
                               then Supabase.with_status i InvoiceStatus.paid
                               else i)
                            (invoices (db w))))
                    (ticks w))).
  { unfold act, InvoiceActions.markAsPaid, InvoiceActions.set_status.
    now rewrite Hact. }
  subst run. rewrite Ea. cbn [fst snd]. split; [reflexivity|].
  set (w' := mkWorld _ (ticks w)).
  assert (Hinv' : Supabase.find_invoice (db w') (reminder_invoice_id r)
                  = Some (Supabase.with_status iv InvoiceStatus.paid))
    by (exact (find_set_status _ _ _ _ _ Hinv Hown)).
  destruct (run_locate env w' r Hnd Hq Hin Hdue)
    as (w1 & w2 & evs & St & J & U & B & A & T).
  pose proof (embed_invoice _ _ _ Hinv') as Hi.
  inversion St as [ d0 w0 Hn
                  | d0 w0 ir ok w'' Hir Hst Hup
                  | d0 w0 ir Hir Hnp _
                  | d0 w0 ir t c content res sev ok w'' Hir Hnp
                  | d0 w0 ir t c content res sev Hir Hnp ]; subst;
    rewrite Hi in *; try discriminate;
    try (injection Hir as <-; exfalso;
         apply (paid_not_not_paid
                  (Supabase.embed_client (db w')
                     (Supabase.with_status iv InvoiceStatus.paid)));
         [reflexivity | assumption]).
  change (due_id (Supabase.embed (db w') r)) with (reminder_id r) in *.
  rewrite (update_reminder_accepted env _ _ _ Hstore) in Hup.
  injection Hup as <- <-.
  split; [|split].
  - apply find_reminder_rows. rewrite A.
    cbn [db Supabase.set_reminders reminders].
    rewrite rows_with_upd_same, B. reflexivity.
  - exact J.
  - exact U.
Qed.

(** X22: a status action reaches only an invoice of the acting user.  When
    no stored invoice has both the identifier and the user of the request,
    marking as paid, like sending, reports success and leaves the store as
    it was; and when the store refuses the request, the action throws and
    leaves the store as it was. *)
Theorem status_action_on_foreign_invoice_changes_nothing :
  forall (invoiceId userId : string) (st : InvoiceStatus.t) (w : World),
    (fails (InvoiceActions.SetStatus invoiceId userId st) = true ->
     InvoiceActions.set_status fails invoiceId userId st w
     = (Thrown store_error, w))
    /\ (fails (InvoiceActions.SetStatus invoiceId userId st) = false ->
        (forall i, In i (invoices (db w)) -> invoice_id i = invoiceId ->
                   invoice_user_id i <> userId) ->
        InvoiceActions.set_status fails invoiceId userId st w = (Ok tt, w)).
Proof.
  intros invoiceId userId st w. unfold InvoiceActions.set_status.
  split; intros H; rewrite H; [reflexivity|].
  intros Hnone.
  assert (E : map (fun i => if String.eqb (invoice_id i) invoiceId
                               && String.eqb (invoice_user_id i) userId
                            then Supabase.with_status i st else i)
                  (invoices (db w))
              = invoices (db w)).
  { clear H. induction (invoices (db w)) as [|i l IH]; [reflexivity|].
    cbn [map]. rewrite IH by (intros j Hj; apply Hnone; now right).
    f_equal.
    destruct (String.eqb (invoice_id i) invoiceId) eqn:E; [|reflexivity].
    apply String.eqb_eq in E.
    destruct (String.eqb (invoice_user_id i) userId) eqn:F; [|reflexivity].
    apply String.eqb_eq in F. exfalso.
    exact (Hnone i (or_introl eq_refl) E F). }
  rewrite E, db_invoices_eta, world_eta. reflexivity.
Qed.

(** X23: deleting an invoice removes its reminders first, and for good.
    When the store refuses the first request nothing is changed.  When it
    accepts it, the reminders left are those of the other invoices,
    whoever owns the invoice, and no later run of the processor fetches a
    reminder of the invoice; the invoice itself is then removed only if it
    belongs to the user, and it stays, without its reminders, when the
    second request is refused, in which case the action throws. *)
Theorem deleting_an_invoice_removes_its_reminders_first :
  forall (invoiceId userId : string) (w : World),
    let act := InvoiceActions.deleteInvoice fails invoiceId userId w in
    (fails (InvoiceActions.DeleteReminders invoiceId) = true ->
     act = (Thrown store_error, w))
    /\ (fails (InvoiceActions.DeleteReminders invoiceId) = false ->
        (forall r, In r (reminders (db (snd act))) <->
                   In r (reminders (db w))
                   /\ reminder_invoice_id r <> invoiceId)
        /\ (forall env d,
               In d (Email.fetched
                       (Email.processScheduledReminders env (snd act))) ->
               reminder_invoice_id (rem d) <> invoiceId)
        /\ (fails (InvoiceActions.DeleteInvoice invoiceId userId) = true ->
            fst act = Thrown store_error
            /\ invoices (db (snd act)) = invoices (db w))
        /\ (fails (InvoiceActions.DeleteInvoice invoiceId userId) = false ->
            fst act = Ok tt
            /\ forall i, In i (invoices (db (snd act))) <->
                         In i (invoices (db w))
                         /\ ~ (invoice_id i = invoiceId
                               /\ invoice_user_id i = userId))).
Proof.
  intros invoiceId userId w act. subst act.
  unfold InvoiceActions.deleteInvoice.
  split; intros H1; rewrite H1; [reflexivity|].
  destruct (fails (InvoiceActions.DeleteInvoice invoiceId userId)) eqn:H2;
    cbn [fst snd db ticks reminders invoices Supabase.set_reminders
         Supabase.set_invoices].
  - assert (Hrem : forall r,
               In r (filter (fun r => negb (String.eqb (reminder_invoice_id r)
                                              invoiceId))
                            (reminders (db w))) <->
               In r (reminders (db w)) /\ reminder_invoice_id r <> invoiceId).
    { intros r.
      rewrite filter_In, Bool.negb_true_iff, String.eqb_neq. reflexivity. }
    split; [exact Hrem|]. split; [|split; [auto | discriminate]].
    intros env d Hd. apply (fetched_are_due env) in Hd.
    destruct Hd as [Hd _]. apply Hrem in Hd. exact (proj2 Hd).
  - assert (Hrem : forall r,
               In r (filter (fun r => negb (String.eqb (reminder_invoice_id r)
                                              invoiceId))
                            (reminders (db w))) <->
               In r (reminders (db w)) /\ reminder_invoice_id r <> invoiceId).
    { intros r.
      rewrite filter_In, Bool.negb_true_iff, String.eqb_neq. reflexivity. }
    split; [exact Hrem|]. split; [|split; [discriminate|]].
    + intros env d Hd. apply (fetched_are_due env) in Hd.
      destruct Hd as [Hd _]. apply Hrem in Hd. exact (proj2 Hd).
    + intros _. split; [reflexivity|]. intros i.
      rewrite filter_In, Bool.negb_true_iff, Bool.andb_false_iff.
      rewrite !String.eqb_neq. split.
      * intros [Hi Hne]. split; [exact Hi|]. intros [A B].
        destruct Hne as [Hne | Hne]; now contradiction Hne.
      * intros [Hi Hn]. split; [exact Hi|].
        destruct (string_dec (invoice_id i) invoiceId) as [A | A];
          [|now left].
        right. intros B. apply Hn. now split.
Qed.

End ActionsMore.

Lemma marking_paid_cancels_due_reminders_witness :
  find_reminder
    (db (Email.final
           (Email.processScheduledReminders env_ok
              (snd (InvoiceActions.markAsPaid (fun _ => false) "i1" "u1"
                      world0)))))
    "r1"
  = Some (Supabase.apply_patch Email.cancel_patch r_unpaid).
Proof.
  apply (proj1 (proj2 (marking_paid_cancels_due_reminders (fun _ => false)
                         env_ok "u1" world0 r_unpaid scenario_invoice
                         world0_unique_ids eq_refl (or_introl eq_refl)
                         eq_refl eq_refl eq_refl eq_refl eq_refl))).
Defined.

Lemma status_action_on_foreign_invoice_changes_nothing_witness :
  InvoiceActions.set_status (fun _ => false) "i1" "u2" InvoiceStatus.paid
    world0
  = (Ok tt, world0).
Proof.
  apply (proj2 (status_action_on_foreign_invoice_changes_nothing
                  (fun _ => false) "i1" "u2" InvoiceStatus.paid world0)).
  - reflexivity.
  - intros i [<- | [<- | []]] _; discriminate.
Defined.

Lemma deleting_an_invoice_removes_its_reminders_first_witness :
  In r_paid
     (reminders
        (db (snd (InvoiceActions.deleteInvoice (fun _ => false) "i1" "u1"
                    world0))))
  /\ reminder_invoice_id r_unpaid = "i1".
Proof.
  split; [|reflexivity].
  apply (proj1 (proj2 (deleting_an_invoice_removes_its_reminders_first
                         (fun _ => false) "i1" "u1" world0) eq_refl) r_paid).
  split; [cbn; tauto | discriminate].
Defined.

Lemma sendEmail_reports_every_outcome_witness :
  error (fst (Email.sendEmail env_ok plain_content)) = None.
Proof.
  apply (proj1 (proj2 (sendEmail_reports_every_outcome env_ok plain_content))).
  reflexivity.
Defined.

Lemma run_changes_only_status_and_sent_at_witness :
  unique_ids (Email.final (Email.processScheduledReminders env_ok world0)).
Proof.
  apply (proj2 (proj2 (run_changes_only_status_and_sent_at env_ok world0))).
  exact world0_unique_ids.
Defined.
